(** * SIM900 modem driver (sim9.c / sim9.h): a shallow embedding

  The driver is single threaded C for an AVR controller.  Every function
  of sim9.c is rendered as a state-passing function over a [World] that
  holds the session structure [sim9_t], the serial transport behind
  [sim9->usart] and the three I/O registers touched at power-on.  The
  transport (usart.c), [_delay_ms] and the heap are not part of sim9.c:
  they enter as an interface ([Usart]) over which every definition and
  theorem is generic; a scripted transport ([Mock]) instantiates it for
  the concrete runs.

  Undefined behaviour of the C program (a store outside the array it
  targets) is an explicit failure: a driver function returns [None] when
  it would perform such a store.

  The file is read as it is compiled by default: SIM9_DEBUG_PORT is not
  defined (the debug output is left out), SIM9_ECHO_ENA is. *)

From Stdlib Require Import ZArith List Bool Lia.
From Stdlib Require Import Strings.Byte.
From Stdlib Require Strings.String.
Import String.StringSyntax.
Delimit Scope string_scope with string.
Import ListNotations.

Local Open Scope Z_scope.

(** ** C strings and buffers *)

Module CStr.

(** A buffer is the list of the bytes of a [char] array; its capacity is
    its length. *)
Definition buf := list byte.

Definition NUL : byte := x00.

(** String literals of the source. *)
Definition lit (s : String.string) : list byte := String.list_byte_of_string s.
Arguments lit s%_string.
Definition CR : byte := x0d.
Definition LF : byte := x0a.

(** The C string held in an array: the bytes before the first
    terminator.  An array holding no terminator is read to its end. *)
Fixpoint cstr (b : buf) : list byte :=
  match b with
  | [] => []
  | c :: b' => if Byte.eqb c NUL then [] else c :: cstr b'
  end.

Definition strlen (b : buf) : Z := Z.of_nat (length (cstr b)).

(** [strncmp s1 s2 n == 0], byte by byte as the C function does it: a
    difference stops with "not equal", a common terminator or [n]
    compared bytes stop with "equal". *)
Fixpoint strncmp_eq (s1 s2 : buf) (n : nat) : bool :=
  match n with
  | O => true
  | S n' =>
      let c1 := hd NUL s1 in
      let c2 := hd NUL s2 in
      if Byte.eqb c1 c2
      then if Byte.eqb c1 NUL then true else strncmp_eq (tl s1) (tl s2) n'
      else false
  end.

(** [strcmp s1 s2 == 0]. *)
Definition list_byte_eqb (a b : list byte) : bool :=
  if list_eq_dec byte_eq_dec a b then true else false.

Definition strcmp_eq (s1 s2 : buf) : bool := list_byte_eqb (cstr s1) (cstr s2).

Fixpoint prefixb (p s : list byte) : bool :=
  match p, s with
  | [], _ => true
  | _ :: _, [] => false
  | a :: p', b :: s' => Byte.eqb a b && prefixb p' s'
  end.

Fixpoint infixb (p s : list byte) : bool :=
  prefixb p s || match s with [] => false | _ :: s' => infixb p s' end.

(** [strstr hay needle != NULL]. *)
Definition strstr_found (hay needle : buf) : bool := infixb (cstr needle) (cstr hay).

(** [memcmp b l n == 0] for an array [b] of at least [n] bytes. *)
Definition memcmp_eq (b l : list byte) (n : nat) : bool :=
  list_byte_eqb (firstn n b) (firstn n l).

(** A store [b[i] = v]; outside the array it is undefined behaviour. *)
Fixpoint store_nat (b : buf) (i : nat) (v : byte) : option buf :=
  match b, i with
  | [], _ => None
  | _ :: b', O => Some (v :: b')
  | c :: b', S i' => option_map (cons c) (store_nat b' i' v)
  end.

Definition store (b : buf) (i : Z) (v : byte) : option buf :=
  if i <? 0 then None else store_nat b (Z.to_nat i) v.

(** Copying [src] to the start of [b]; undefined when [b] is too small. *)
Definition blit (b : buf) (src : list byte) : option buf :=
  if (length src <=? length b)%nat then Some (src ++ skipn (length src) b) else None.

Definition load (b : buf) (i : Z) : option byte :=
  if i <? 0 then None else nth_error b (Z.to_nat i).

End CStr.
Import CStr.

(** ** Bit-fields of the two 16 bit flag words (little endian layout, bit 0
  first, as avr-gcc lays them out) *)

Module Bits.

Definition uint8 (z : Z) : Z := z mod 256.
Definition uint16 (z : Z) : Z := z mod 65536.

Definition TRUE : Z := 1.
Definition FALSE : Z := 0.

(** A one bit field read as an integer. *)
Definition bit (w i : Z) : bool := Z.testbit w i.

(** An assignment to a one bit field keeps the low bit of the value. *)
Definition set_bit (w i : Z) (v : bool) : Z :=
  if v then Z.setbit w i else Z.clearbit w i.

Definition field (w pos width : Z) : Z :=
  Z.land (Z.shiftr w pos) (Z.ones width).

Definition set_field (w pos width v : Z) : Z :=
  Z.lor (Z.ldiff w (Z.shiftl (Z.ones width) pos))
        (Z.shiftl (Z.land v (Z.ones width)) pos).

(** status word *)
Definition ST_READY := 0.
Definition ST_GPRS := 1.
Definition ST_CID := 2.
Definition ST_SAPBR := 3.
Definition ST_HTTP := 4.
Definition ST_PROVIDER := 5.   (* two bits *)
Definition ST_TSMODE := 7.
Definition ST_TCPIP := 8.      (* four bits *)
Definition ST_ECHO := 12.
Definition ST_CONNECTED := 13.

(** error word *)
Definition ER_INIT := 0.
Definition ER_OFF := 1.
Definition ER_PIN := 2.
Definition ER_IMEI := 3.
Definition ER_APN := 4.
Definition ER_TCPIP := 5.
Definition ER_NETREG := 6.
Definition ER_DISCON := 7.
Definition ER_GPRS := 8.
Definition ER_ESC := 9.
Definition ER_CONNECTED := 10.
Definition ER_GPS := 11.

End Bits.
Import Bits.

(** ** sim9.h *)

Definition EQUAL : Z := 0.
Definition RELAX : Z := 1.
Definition STRICT : Z := 2.
Definition EEQUAL : Z := 3.
Definition ERELAX : Z := 4.
Definition ESTRICT : Z := 5.

Definition SENDAT_TYPE_NONE : Z := 0.
Definition SENDAT_TYPE_OK : Z := 1.
Definition SENDAT_TYPE_MSGOK : Z := 2.
Definition SENDAT_TYPE_MSG : Z := 3.

Definition IMEI_SIZE : Z := 18.
Definition GPS_LAT_SIZE : Z := 12.
Definition GPS_LON_SIZE : Z := 12.

(** [struct sim9_t].  [tx_buf] and [usart] point into the transport and are
  part of it. *)
Record sim9_t : Type := mk_sim9 {
status : Z;      (* status.all *)
errors : Z;      (* errors.all *)
flags : Z;
imei_buf : buf;  (* char *imei *)
gps_lat : buf;
gps_lon : buf
}.

Definition with_status (s : sim9_t) (v : Z) : sim9_t :=
mk_sim9 v (errors s) (flags s) (imei_buf s) (gps_lat s) (gps_lon s).
Definition with_errors (s : sim9_t) (v : Z) : sim9_t :=
mk_sim9 (status s) v (flags s) (imei_buf s) (gps_lat s) (gps_lon s).
Definition with_imei (s : sim9_t) (b : buf) : sim9_t :=
mk_sim9 (status s) (errors s) (flags s) b (gps_lat s) (gps_lon s).

(** ** What sim9.c is linked against

    usart.c, <util/delay.h> and the allocator.  [T] is the state of
    everything outside the driver: the receive queue, the clock, the modem at
    the other end of the line.  A line that arrives "asynchronously" arrives
    inside one of these operations. *)
Class Usart (T : Type) : Type := {
  (** [usart_init (port)], [usart_shut], [usart_resume], [usart_suspend] *)
  usart_init : T -> T;
  usart_shut : T -> T;
  usart_resume : T -> T;
  usart_suspend : T -> T;
  (** a read of the volatile [usart->flags.eol] *)
  usart_eol : T -> Z * T;
  (** [usart->rx->size] *)
  usart_rx_size : T -> Z;
  (** [usart_getmsg (port, s, size)]: the bytes it stores at [s[0..]]; their
      number is its return value *)
  usart_getmsg : Z -> T -> list byte * T;
  (** [usart_get (port, &c, 1)]: the bytes read, none or one *)
  usart_get : T -> list byte * T;
  (** [strncpy_P (usart->tx, s, usart->tx_size)] *)
  usart_tx_strncpy : list byte -> T -> T;
  (** [usart_printstr (port, s)]; [None] is [s == NULL]: the transmit buffer
      is sent *)
  usart_printstr : option (list byte) -> T -> T;
  usart_clear_rx_buffer : T -> T;
  (** [_delay_ms (ms)] *)
  delay_ms : Z -> T -> T;
  (** the indeterminate byte at offset [i] of a block fresh from [malloc] *)
  heap_junk : T -> nat -> byte
}.

(** The I/O registers written by [sim9_on]. *)
Record avr_io : Type := mk_io { DDRA : Z; PORTA : Z; DDRD : Z }.

Definition SIM9_PIN_ON : Z := 6.  (* PA6 *)
Definition SIM9_STATUS : Z := 5.  (* PA5 *)
Definition SIM9_RI : Z := 4.      (* PA4 *)
Definition SIM9_NET_ST : Z := 6.  (* PD6 *)
Definition SIM9_DTR : Z := 7.     (* PA7 *)
Definition _BV (b : Z) : Z := Z.shiftl 1 b.

(** The session [*sim9], the transport and the registers. *)
Record World (T : Type) : Type := mk_world {
  sim9 : sim9_t;
  usart : T;
  io : avr_io
}.
Arguments mk_world {T} _ _ _.
Arguments sim9 {T} _.
Arguments usart {T} _.
Arguments io {T} _.

(** ** The monad of the driver: state, and failure for undefined behaviour *)

Definition M (T A : Type) : Type := World T -> option (A * World T).

Definition ret {T A} (a : A) : M T A := fun w => Some (a, w).

Definition bind {T A B} (m : M T A) (k : A -> M T B) : M T B :=
  fun w => match m w with
           | Some (a, w') => k a w'
           | None => None
           end.

Definition undefined {T A} : M T A := fun _ => None.

Definition lift_opt {T A} (o : option A) : M T A :=
  fun w => match o with Some a => Some (a, w) | None => None end.

Declare Scope sim9_scope.
Delimit Scope sim9_scope with sim9.
Notation "x <- m ;; k" := (bind m (fun x => k))
  (at level 100, m at next level, right associativity) : sim9_scope.
Notation "' p <- m ;; k" := (bind m (fun x => match x with p => k end))
  (at level 100, p pattern, m at next level, right associativity) : sim9_scope.
Notation "m ;; k" := (bind m (fun _ => k))
  (at level 100, right associativity) : sim9_scope.
Local Open Scope sim9_scope.

Definition b2z (b : bool) : Z := if b then TRUE else FALSE.
Definition z2b (z : Z) : bool := negb (z =? 0).

Section Driver.

Context {T : Type} {U : Usart T}.

Local Abbreviation M := (M T).

(** *** Accessors *)

Definition get_sim9 : M sim9_t := fun w => Some (sim9 w, w).
Definition put_sim9 (s : sim9_t) : M unit :=
  fun w => Some (tt, mk_world s (usart w) (io w)).
Definition on_usart (f : T -> T) : M unit :=
  fun w => Some (tt, mk_world (sim9 w) (f (usart w)) (io w)).
Definition ask_usart {A} (f : T -> A * T) : M A :=
  fun w => let (a, t) := f (usart w) in Some (a, mk_world (sim9 w) t (io w)).
Definition put_io (r : avr_io) : M unit :=
  fun w => Some (tt, mk_world (sim9 w) (usart w) r).
Definition get_io : M avr_io := fun w => Some (io w, w).

(** [sim9->status.f] and [sim9->errors.f], read and assigned. *)
Definition status_bit (i : Z) : M bool :=
  s <- get_sim9 ;; ret (bit (status s) i).
Definition set_status_bit (i : Z) (v : bool) : M unit :=
  s <- get_sim9 ;; put_sim9 (with_status s (set_bit (status s) i v)).
Definition error_bit (i : Z) : M bool :=
  s <- get_sim9 ;; ret (bit (errors s) i).
Definition set_error_bit (i : Z) (v : bool) : M unit :=
  s <- get_sim9 ;; put_sim9 (with_errors s (set_bit (errors s) i v)).
Definition errors_all : M Z := s <- get_sim9 ;; ret (errors s).

Definition _delay_ms (ms : Z) : M unit := on_usart (delay_ms ms).
Definition flags_eol : M Z := ask_usart usart_eol.
Definition rx_size : M Z := fun w => Some (usart_rx_size (usart w), w).

(** [malloc (n)]: [n] bytes of indeterminate content.  [free] has no
    counterpart: a freed block is a value that is dropped. *)
Definition malloc (n : Z) : M buf :=
  fun w => Some (map (heap_junk (usart w)) (seq 0 (Z.to_nat n)), w).

(** [len = usart_getmsg (SIM9_SERIAL_PORT, s, size)] *)
Definition getmsg (s : buf) (size : Z) : M (Z * buf) :=
  data <- ask_usart (usart_getmsg size) ;;
  s' <- lift_opt (blit s data) ;;
  ret (uint8 (Z.of_nat (length data)), s').

(** *** sim9_send, sim9_send_P, sim9_clear_rx_buff *)

Definition sim9_send (s : option (list byte)) : M unit :=
  on_usart (usart_printstr s).

Definition sim9_send_P (s : list byte) : M unit :=
  on_usart (usart_tx_strncpy s) ;;
  sim9_send None.

Definition sim9_clear_rx_buff : M unit := on_usart usart_clear_rx_buffer.

(** *** sim9_wait4char *)

Fixpoint sim9_wait4char_loop (timeout : nat) (s : byte) : M Z :=
  match timeout with
  | O => ret FALSE
  | S n =>
      c <- ask_usart usart_get ;;
      match c with
      | c0 :: _ =>
          if Byte.eqb c0 s then ret TRUE
          else (_delay_ms 1000 ;; sim9_wait4char_loop n s)
      | [] => _delay_ms 1000 ;; sim9_wait4char_loop n s
      end
  end.

Definition sim9_wait4char (s : byte) (timeout : Z) : M Z :=
  sim9_wait4char_loop (Z.to_nat (uint8 timeout)) s.

(** *** sim9_msg *)

(** The [do ... while (!len && loop--)] loop; [loop] is the value of the
    counter when the body is entered; [len] is 0 at that point. *)
Fixpoint sim9_msg_loop (loop : nat) (s : buf) (size : Z) : M (Z * buf) :=
  _delay_ms 10 ;;
  eol <- flags_eol ;;
  '(len, s1) <-
    (if eol =? 0 then ret (0, s)
     else
       '(len, s1) <- getmsg s size ;;
       (* Ignore message compose only by CR LF *)
       ret (if len <? 3 then 0 else len, s1)) ;;
  if len =? 0 then
    match loop with
    | O => ret (0, s1)
    | S n => sim9_msg_loop n s1 size
    end
  else ret (len, s1).

Definition sim9_msg (s : buf) (size timeout : Z) : M (Z * buf) :=
  '(len, s1) <- sim9_msg_loop (Z.to_nat (uint16 (uint8 timeout * 100))) s (uint8 size) ;;
  if len =? 0 then ret (len, s1)
  else
    s2 <- lift_opt (store s1 (len - 2) NUL) ;;
    ret (len, s2).

(** *** sim9_searchfor *)

(** The [switch (type)] of the loop body: the new values of [check_error]
    and [ok].  [ERELAX] and [EEQUAL] are the two labels that set
    [check_error] before they fall through; every other value of [type],
    [STRICT] and [ESTRICT] included, reaches [default]. *)
Definition search_switch (type : Z) (check_error : bool) (s buffer : buf) : bool * bool :=
  if type =? ERELAX then (true, strstr_found buffer s)
  else if type =? RELAX then (check_error, strstr_found buffer s)
  else if type =? EEQUAL then (true, strncmp_eq s buffer (Z.to_nat (strlen s)))
  else (check_error, strncmp_eq s buffer (Z.to_nat (strlen s))).

(** The [do ... while (!ok && count--)] loop; [count] is the value of the
    counter when the body is entered and [ok] is FALSE there.  The
    assignment [count = 0] of the body, followed by the test [count--],
    leaves the loop.  The last component of the result is not a variable of
    the source: it counts the calls of [sim9_msg] made. *)
Fixpoint sim9_searchfor_loop (count : nat) (s : buf) (type : Z) (check_error : bool)
    (buffer : buf) (size : Z) : M (bool * buf * nat) :=
  '(len, buffer1) <- sim9_msg buffer size 1 ;;
  let '(check_error1, ok, stop) :=
    if len =? 0 then (check_error, false, false)
    else
      let '(ce, ok) := search_switch type check_error s buffer1 in
      (ce, ok, negb ok && ce && strcmp_eq buffer1 (lit "ERROR")) in
  if ok then ret (true, buffer1, 1%nat)
  else if stop then ret (false, buffer1, 1%nat)
  else
    match count with
    | O => ret (false, buffer1, 1%nat)
    | S n =>
        '(ok', buffer2, k) <- sim9_searchfor_loop n s type check_error1 buffer1 size ;;
        ret (ok', buffer2, S k)
    end.

(** [extbuff = None] is the NULL pointer.  The result carries the content
    of [extbuff] on return. *)
Definition sim9_searchfor (s : buf) (count : Z) (extbuff : option buf)
    (extsize : Z) (type : Z) : M (Z * option buf) :=
  '(size, buffer) <-
    (match extbuff with
     | Some b => ret (uint8 extsize, b)
     | None =>
         n <- rx_size ;;
         b <- malloc (uint8 n) ;;
         ret (uint8 n, b)
     end) ;;
  (* Clear the buffer *)
  buffer0 <- lift_opt (store buffer 0 NUL) ;;
  '(ok, buffer1, _) <-
    sim9_searchfor_loop (Z.to_nat (uint8 count)) s (uint8 type) false buffer0 size ;;
  ret (b2z ok, match extbuff with Some _ => Some buffer1 | None => None end).

(** The RAM copy of a flash string made by the [_P] functions:
    [size = strnlen_P (s, rx->size) + 1; buffer = malloc (size);
     strncpy_P (buffer, s, size); buffer[size - 1] = 0]. *)
Definition strncpy (src : list byte) (n : nat) : list byte :=
  firstn n (cstr src ++ repeat NUL n).

Definition ram_copy_P (s : list byte) : M buf :=
  n <- rx_size ;;
  let size := uint8 (Z.min (strlen s) n + 1) in
  buffer <- malloc size ;;
  buffer1 <- lift_opt (blit buffer (strncpy s (Z.to_nat size))) ;;
  lift_opt (store buffer1 (size - 1) NUL).

Definition sim9_searchfor_P (s : list byte) (count : Z) (extbuff : option buf)
    (extsize : Z) (type : Z) : M (Z * option buf) :=
  buffer <- ram_copy_P s ;;
  sim9_searchfor buffer count extbuff extsize type.

(** *** sim9_send_at *)

(** [ok = ok && sim9_msg (msg, size, sim9->usart->flags.eol + 1)]: the right
    operand, the read of [eol] included, is evaluated when [ok] is not 0. *)
Definition and_sim9_msg (ok : Z) (msg : buf) (size : Z) : M (Z * buf) :=
  if z2b ok then
    eol <- flags_eol ;;
    '(len, msg1) <- sim9_msg msg size (eol + 1) ;;
    ret (b2z (z2b len), msg1)
  else ret (FALSE, msg).

(** [ok = ok && sim9_searchfor_P (PSTR("OK"), eol + 1, NULL, 0, EEQUAL)] *)
Definition and_search_OK (ok : Z) : M Z :=
  if z2b ok then
    eol <- flags_eol ;;
    '(r, _) <- sim9_searchfor_P (lit "OK") (eol + 1) None 0 EEQUAL ;;
    ret (b2z (z2b r))
  else ret FALSE.

(** The first part of [sim9_send_at], down to the echo check: the value of
    [ok] when the processing delay starts. *)
Definition sim9_send_at_echo (cmd : buf) : M Z :=
  sim9_send (Some cmd) ;;
  sim9_send_P [CR] ;;
  echo <- status_bit ST_ECHO ;;
  if echo then
    sim9_send_P [LF] ;;
    (* wait for the echo back *)
    _delay_ms 100 ;;
    (* get the echo back from the buffer. *)
    eol <- flags_eol ;;
    '(r, _) <- sim9_searchfor cmd (eol + 1) None 0 EEQUAL ;;
    ret r
  else ret TRUE.

(** [msg] is the array [msg] points to; the NULL pointer of the callers
    that want no message back is the array of no byte. *)
Definition sim9_send_at (cmd : buf) (msg : buf) (size : Z) (type : Z) : M (Z * buf) :=
  ok <- sim9_send_at_echo cmd ;;
  (* wait for processing serial data *)
  _delay_ms 100 ;;
  if uint8 type =? SENDAT_TYPE_MSGOK then
    '(ok1, msg1) <- and_sim9_msg ok msg size ;;
    ok2 <- and_search_OK ok1 ;;
    ret (ok2, msg1)
  else if uint8 type =? SENDAT_TYPE_OK then
    ok1 <- and_search_OK ok ;;
    ret (ok1, msg)
  else if uint8 type =? SENDAT_TYPE_MSG then
    and_sim9_msg ok msg size
  else ret (ok, msg).

Definition sim9_send_at_P (cmd : list byte) (msg : buf) (msgsize : Z) (type : Z) : M (Z * buf) :=
  buffer <- ram_copy_P cmd ;;
  sim9_send_at buffer msg msgsize type.

(** *** sim9_escape *)

(** The [while (retry--)] loop with its [break].  The result, not a
    variable of the source, counts the probes [AT] sent. *)
Fixpoint sim9_escape_loop (retry : nat) : M nat :=
  match retry with
  | O => ret O
  | S n =>
      connected <- status_bit ST_CONNECTED ;;
      (if connected then
         _delay_ms 1000 ;;
         sim9_send_P (lit "+++") ;;
         _delay_ms 500 ;;
         (* send only to buffer the +++ with EOL *)
         echo <- status_bit ST_ECHO ;;
         if echo then
           sim9_send_P [CR; LF] ;;
           sim9_searchfor_P (lit "+++") 30 None 0 EQUAL ;;
           ret tt
         else _delay_ms 1000
       else ret tt) ;;
      (* get the result *)
      '(ok, _) <- sim9_send_at_P (lit "AT") [] 0 SENDAT_TYPE_OK ;;
      if z2b ok then (set_status_bit ST_CONNECTED false ;; ret 1%nat)
      else
        set_status_bit ST_CONNECTED true ;;
        k <- sim9_escape_loop n ;;
        ret (S k)
  end.

Definition sim9_escape : M unit :=
  sim9_escape_loop 3 ;;
  connected <- status_bit ST_CONNECTED ;;
  if connected then set_error_bit ER_ESC true
  else set_error_bit ER_ESC false.

(** *** imei, pin_check, network_registered *)

Definition put_imei (b : buf) : M unit :=
  s <- get_sim9 ;; put_sim9 (with_imei s b).

(** One evaluation of the condition
    [sim9_send_at_P (PSTR("AT+CGSN"), sim9->imei, IMEI_SIZE, SENDAT_TYPE_MSGOK)
     && (strlen (sim9->imei) > 14)].
    [sim9->imei] is handed to [sim9_send_at_P] as [msg]; the command
    functions read nothing of the session but [status.echo], so the array
    is written back on return. *)
Definition imei_attempt : M bool :=
  s <- get_sim9 ;;
  '(ok, b) <- sim9_send_at_P (lit "AT+CGSN") (imei_buf s) IMEI_SIZE SENDAT_TYPE_MSGOK ;;
  put_imei b ;;
  ret (z2b ok && (strlen b >? 14)).

(** The [while (sim9->errors.imei && retry--)] loop. *)
Fixpoint imei_loop (retry : nat) : M unit :=
  e <- error_bit ER_IMEI ;;
  if e then
    match retry with
    | O => ret tt
    | S n =>
        good <- imei_attempt ;;
        (if good then set_error_bit ER_IMEI false else ret tt) ;;
        imei_loop n
    end
  else ret tt.

(** The statements of [imei] before its loop. *)
Definition imei_reset : M unit :=
  s <- get_sim9 ;;
  b <- lift_opt (store (imei_buf s) 0 NUL) ;;
  put_imei b ;;
  set_error_bit ER_IMEI true ;;
  sim9_clear_rx_buff.

Definition imei : M unit :=
  imei_reset ;;
  imei_loop 10.

Definition SOB2 : Z := 20.

Definition pin_check : M unit :=
  buffer <- malloc SOB2 ;;
  '(ok, buffer1) <- sim9_send_at_P (lit "AT+CPIN?") buffer SOB2 SENDAT_TYPE_MSGOK ;;
  if z2b ok && memcmp_eq buffer1 (lit "+CPIN: READY") 12
  then set_error_bit ER_PIN false
  else set_error_bit ER_PIN true.

Definition SOB626 : Z := 20.

Fixpoint network_registered_loop (retry : nat) (buffer : buf) : M unit :=
  e <- error_bit ER_NETREG ;;
  if e then
    match retry with
    | O => ret tt
    | S n =>
        _delay_ms 2000 ;;
        '(ok, buffer1) <- sim9_send_at_P (lit "AT+CGREG?") buffer SOB626 SENDAT_TYPE_MSGOK ;;
        (if z2b ok && memcmp_eq buffer1 (lit "+CGREG: 0,1") 11
         then set_error_bit ER_NETREG false else ret tt) ;;
        network_registered_loop n buffer1
    end
  else ret tt.

Definition network_registered : M unit :=
  buffer <- malloc SOB626 ;;
  set_error_bit ER_NETREG true ;;
  network_registered_loop 5 buffer.

Definition sim9_suspend : M unit := on_usart usart_suspend.
Definition sim9_resume : M unit := on_usart usart_resume.

(** *** sim9_init

    The global [sim9] is [None] while it is the NULL pointer.  The result
    is the session the returned pointer, and from then on the global,
    points to.  ([sim9_shut] frees the blocks and leaves [sim9] dangling; it
    has no counterpart here.) *)
Definition sim9_init (g : option sim9_t) (t : T) : option (sim9_t * T) :=
  match g with
  | Some s => Some (s, t)
  | None =>
      let fresh n := map (heap_junk t) (seq 0 (Z.to_nat n)) in
      match store (fresh IMEI_SIZE) 0 NUL,
            store (fresh GPS_LAT_SIZE) 0 NUL,
            store (fresh GPS_LON_SIZE) 0 NUL with
      | Some i, Some la, Some lo => Some (mk_sim9 0 0 0 i la lo, usart_init t)
      | _, _, _ => None
      end
  end.

(** *** sim9_on, sim9_off *)

Definition send_at_P_OK (cmd : list byte) : M Z :=
  '(ok, _) <- sim9_send_at_P cmd [] 0 SENDAT_TYPE_OK ;; ret ok.

Definition sim9_on : M unit :=
  (* clear all flags *)
  s <- get_sim9 ;;
  put_sim9 (with_errors (with_status s 0) 0) ;;
  on_usart usart_resume ;;
  r <- get_io ;;
  let ddra := Z.ldiff (DDRA r) (Z.lor (Z.lor (_BV SIM9_STATUS) (_BV SIM9_RI)) (_BV SIM9_DTR)) in
  let ddrd := Z.ldiff (DDRD r) (_BV SIM9_NET_ST) in
  let ddra := Z.lor ddra (_BV SIM9_PIN_ON) in
  (* Start the modem with 1 sec pulse *)
  let porta := Z.ldiff (PORTA r) (_BV SIM9_PIN_ON) in
  put_io (mk_io ddra porta ddrd) ;;
  _delay_ms 1000 ;;
  put_io (mk_io ddra (Z.lor porta (_BV SIM9_PIN_ON)) ddrd) ;;
  _delay_ms 1000 ;;
  put_io (mk_io ddra (Z.ldiff (Z.lor porta (_BV SIM9_PIN_ON)) (_BV SIM9_PIN_ON)) ddrd) ;;
  _delay_ms 4000 ;;
  on_usart usart_clear_rx_buffer ;;
  send_at_P_OK (lit "AT") ;;
  send_at_P_OK (lit "AT+IPR=9600") ;;
  send_at_P_OK (lit "AT+CIURC=1") ;;
  sim9_searchfor_P (lit "Call Ready") 60 None 0 EQUAL ;;
  sim9_clear_rx_buff ;;
  (* Factory default *)
  ok <- send_at_P_OK (lit "AT&F&C0&D0") ;;
  (if z2b ok then ret tt else set_error_bit ER_INIT true) ;;
  (* SIM9_ECHO_ENA is defined *)
  set_status_bit ST_ECHO true ;;
  echo <- status_bit ST_ECHO ;;
  (if echo then send_at_P_OK (lit "ATE1") else send_at_P_OK (lit "ATE0")) ;;
  send_at_P_OK (lit "AT+SLEDS=1,53,790") ;;
  send_at_P_OK (lit "AT+SLEDS=2,53,2990") ;;
  send_at_P_OK (lit "AT+SLEDS=3,53,287") ;;
  send_at_P_OK (lit "AT+CNETLIGHT=1") ;;
  e <- errors_all ;;
  (if e =? 0 then pin_check else ret tt) ;;
  e <- errors_all ;;
  (if e =? 0 then imei else ret tt) ;;
  e <- errors_all ;;
  if e =? 0 then (_delay_ms 5000 ;; network_registered) else ret tt.

Definition sim9_off : M unit :=
  sim9_send_P (lit "AT+CPOWD=1" ++ [CR]) ;;
  '(ok, _) <- sim9_searchfor_P (lit "NORMAL POWER DOWN") 5 None 0 RELAX ;;
  if z2b ok then set_status_bit ST_READY false
  else set_error_bit ER_OFF true.

(** *** GPRS attach and the TCP bearer *)

Definition SIZEOFBUFFER : Z := 15.

Definition check_cgatt : M unit :=
  buffer <- malloc SIZEOFBUFFER ;;
  '(ok, buffer1) <- sim9_send_at_P (lit "AT+CGATT?") buffer SIZEOFBUFFER SENDAT_TYPE_MSGOK ;;
  if z2b ok then
    if negb (memcmp_eq buffer1 (lit "+CGATT: 1") 9)
    then set_status_bit ST_GPRS false
    else set_status_bit ST_GPRS true
  else set_error_bit ER_GPRS true.

(** [do check_cgatt (); while (!sim9->status.gprs && retry--)]; [retry] is
    the value of the counter when the body is entered.  The result, not a
    variable of the source, counts the calls of [check_cgatt]. *)
Fixpoint gprs_connect_loop (retry : nat) : M nat :=
  check_cgatt ;;
  g <- status_bit ST_GPRS ;;
  if negb g then
    match retry with
    | O => ret 1%nat
    | S n => k <- gprs_connect_loop n ;; ret (S k)
    end
  else ret 1%nat.

Definition gprs_connect : M unit :=
  set_error_bit ER_GPRS false ;;
  ok <- send_at_P_OK (lit "AT+CGATT=1") ;;
  if z2b ok then (gprs_connect_loop 5 ;; ret tt)
  else set_error_bit ER_GPRS true.

Fixpoint gprs_disconnect_loop (retry : nat) : M nat :=
  check_cgatt ;;
  g <- status_bit ST_GPRS ;;
  if g then
    match retry with
    | O => ret 1%nat
    | S n => k <- gprs_disconnect_loop n ;; ret (S k)
    end
  else ret 1%nat.

Definition gprs_disconnect : M unit :=
  set_error_bit ER_GPRS false ;;
  ok <- send_at_P_OK (lit "AT+CGATT=0") ;;
  if z2b ok then (gprs_disconnect_loop 5 ;; ret tt)
  else set_error_bit ER_GPRS true.

Definition SIZEOF_S : Z := 30.

Definition set_provider (v : Z) : M unit :=
  s <- get_sim9 ;; put_sim9 (with_status s (set_field (status s) ST_PROVIDER 2 v)).
Definition provider : M Z :=
  s <- get_sim9 ;; ret (field (status s) ST_PROVIDER 2).

Definition apn_setup : M unit :=
  s <- malloc SIZEOF_S ;;
  sim9_send_at_P (lit "AT+COPS?") [] 0 SENDAT_TYPE_NONE ;;
  '(ok, s1) <- sim9_searchfor (lit "+COPS:") 5 (Some s) SIZEOF_S RELAX ;;
  let s1 := match s1 with Some b => b | None => s end in
  if z2b ok then
    (if memcmp_eq (skipn 12 s1) (lit "I TIM") 5 then set_provider 3
     else if memcmp_eq (skipn 13 s1) (lit "odafo") 5 then set_provider 2
     else set_provider 1) ;;
    sim9_searchfor_P (lit "OK") 5 None 0 RELAX ;;
    ret tt
  else
    set_provider 0 ;;
    set_error_bit ER_APN true.

Definition gprs_wireless_connection : M unit :=
  ok <- send_at_P_OK (lit "AT+CIICR") ;;
  if z2b ok then ret tt else set_error_bit ER_TCPIP true.

Definition QUOTE : byte := x22.

(** The macro names inside the string literal are not expanded by the
    preprocessor: the command carries them as text. *)
Definition CSTT_others : list byte :=
  lit "AT+CSTT=" ++ [QUOTE] ++ lit "SIM9_APN_SITE" ++ [QUOTE] ++ lit "," ++
  [QUOTE] ++ lit "SIM9_APN_USER" ++ [QUOTE] ++ lit "," ++
  [QUOTE] ++ lit "SIM9_APN_PASSWORD" ++ [QUOTE].
Definition CSTT_vodafone : list byte :=
  lit "AT+CSTT=" ++ [QUOTE] ++ lit "web.omnitel.it" ++ [QUOTE].
Definition CSTT_tim : list byte :=
  lit "AT+CSTT=" ++ [QUOTE] ++ lit "ibox.tim.it" ++ [QUOTE].

Definition sim9_tcpip_on : M unit :=
  set_error_bit ER_TCPIP false ;;
  (* show the TCP config *)
  send_at_P_OK (lit "AT+CIPCCFG?") ;;
  (* set the transparent mode *)
  tsmode <- status_bit ST_TSMODE ;;
  (if tsmode then send_at_P_OK (lit "AT+CIPMODE=1")
   else send_at_P_OK (lit "AT+CIPMODE=0")) ;;
  (* attach GPRS network *)
  gprs_connect ;;
  g <- status_bit ST_GPRS ;;
  (if g then apn_setup else ret tt) ;;
  (* start task *)
  p <- provider ;;
  (if p =? 1 then send_at_P_OK CSTT_others ;; ret tt
   else if p =? 2 then send_at_P_OK CSTT_vodafone ;; ret tt
   else if p =? 3 then send_at_P_OK CSTT_tim ;; ret tt
   else set_error_bit ER_APN true) ;;
  e <- errors_all ;;
  (if e =? 0 then gprs_wireless_connection else ret tt) ;;
  (* GET the assigned IP address *)
  e <- errors_all ;;
  if e =? 0 then
    s <- malloc 30 ;;
    sim9_send_at_P (lit "AT+CIFSR") s 30 SENDAT_TYPE_MSG ;;
    ret tt
  else ret tt.

End Driver.

(** Modelled from the spec: the contract of the transport's dequeue operation
    [usart_getmsg], whose code (usart.c) is not part of sim9.c.  The spec has
    it deliver a received line into the output buffer "truncating to
    capacity": it stores at most [size] bytes. *)
Definition getmsg_truncates {T : Type} (U : Usart T) : Prop :=
  forall (size : Z) (t : T),
    0 <= size -> Z.of_nat (length (fst (usart_getmsg size t))) <= size.

(** ** A scripted transport

    The modem's lines are queued with the time, in ms, at which their last
    byte is in; [_delay_ms] moves the clock; what the driver sends is
    logged. *)
Module Mock.

Record t : Type := mk {
  now : Z;
  lines : list (Z * list byte);
  txbuf : list byte;
  sent : list (list byte)
}.

Definition TX_SIZE : nat := 64.
Definition RX_SIZE : Z := 64.

(** The lines at the head of the queue that are complete at [now]. *)
Fixpoint ready (clock : Z) (q : list (Z * list byte)) : nat :=
  match q with
  | (at_, _) :: q' => if at_ <=? clock then S (ready clock q') else O
  | [] => O
  end.

Definition eol (x : t) : Z * t := (Z.of_nat (ready (now x) (lines x)), x).

Definition getmsg (size : Z) (x : t) : list byte * t :=
  match lines x with
  | (at_, l) :: q =>
      if at_ <=? now x
      then (firstn (Z.to_nat size) l, mk (now x) q (txbuf x) (sent x))
      else ([], x)
  | [] => ([], x)
  end.

Definition get (x : t) : list byte * t :=
  match lines x with
  | (at_, c :: l) :: q =>
      if at_ <=? now x
      then ([c], mk (now x) ((at_, l) :: q) (txbuf x) (sent x))
      else ([], x)
  | _ => ([], x)
  end.

Definition tx_strncpy (s : list byte) (x : t) : t :=
  mk (now x) (lines x) (firstn TX_SIZE (cstr s ++ repeat NUL TX_SIZE)) (sent x).

Definition printstr (s : option (list byte)) (x : t) : t :=
  let out := match s with Some s' => cstr s' | None => cstr (txbuf x) end in
  mk (now x) (lines x) (txbuf x) (sent x ++ [out]).

Definition clear_rx (x : t) : t :=
  mk (now x) (skipn (ready (now x) (lines x)) (lines x)) (txbuf x) (sent x).

Definition delay (ms : Z) (x : t) : t :=
  mk (now x + ms) (lines x) (txbuf x) (sent x).

#[global] Instance transport : Usart t := {|
  usart_init := fun x => x;
  usart_shut := fun x => x;
  usart_resume := fun x => x;
  usart_suspend := fun x => x;
  usart_eol := eol;
  usart_rx_size := fun _ => RX_SIZE;
  usart_getmsg := getmsg;
  usart_get := get;
  usart_tx_strncpy := tx_strncpy;
  usart_printstr := printstr;
  usart_clear_rx_buffer := clear_rx;
  delay_ms := delay;
  heap_junk := fun _ _ => xaa
|}.

(** A line as the modem frames it: the text, CR, LF. *)
Definition line (s : String.string) : list byte := lit s ++ [CR; LF].
Arguments line s%_string.

(** The answer to AT+COPS? for the operator [name]. *)
Definition cops (name : String.string) : list byte :=
  lit "+COPS: 0,0," ++ [x22] ++ lit name ++ [x22; CR; LF].
Arguments cops name%_string.

(** A transport at time 0 with [q] on its way and a receive buffer of 64
    bytes. *)
Definition start (q : list (Z * list byte)) : t := mk 0 q [] [].

(** A session with the given flag words and fresh buffers. *)
Definition session (st er : Z) : sim9_t :=
  mk_sim9 st er 0 (NUL :: repeat xaa 17) (NUL :: repeat xaa 11) (NUL :: repeat xaa 11).

Definition world (st er : Z) (q : list (Z * list byte)) : World t :=
  mk_world (session st er) (start q) (mk_io 0 0 0).

(** No line is complete before [deadline] is past. *)
Definition silent_until (deadline : Z) (x : t) : Prop :=
  match lines x with
  | [] => True
  | (at_, _) :: _ => deadline < at_
  end.

(** What a run leaves behind: its result, the clock, the number of lines
    still queued and the strings sent. *)
Definition outcome {A : Type} (r : option (A * World t)) : option (A * Z * nat) :=
  match r with
  | Some (a, w) => Some (a, now (usart w), length (lines (usart w)))
  | None => None
  end.

Definition sent_by {A : Type} (r : option (A * World t)) : list (list byte) :=
  match r with
  | Some (_, w) => sent (usart w)
  | None => []
  end.

End Mock.

(** ** Observations used to state the properties *)

Section Observations.

Context {T : Type} {U : Usart T}.

(** No qualifying line is seen by [n] successive polls of the transport, 10
    ms apart: at each poll [flags.eol] is 0, or the line dequeued with
    capacity [size] has fewer than 3 bytes. *)
Fixpoint no_line_within (n : nat) (size : Z) (t : T) : bool :=
  match n with
  | O => true
  | S n' =>
      let (eol, t1) := usart_eol (delay_ms 10 t) in
      if eol =? 0 then no_line_within n' size t1
      else
        let (data, t2) := usart_getmsg size t1 in
        (uint8 (Z.of_nat (length data)) <? 3) && no_line_within n' size t2
  end.

(** Every run of [m] relates the world it starts in to the world it ends
    in by [R]. *)
Definition relates {A : Type} (R : World T -> World T -> Prop) (m : M T A) : Prop :=
  forall w a w', m w = Some (a, w') -> R w w'.

(** The session and the registers are as they were. *)
Definition same_session (w w' : World T) : Prop :=
  sim9 w' = sim9 w /\ io w' = io w.

(** Every error bit that was set is still set, but for the bits listed in
    [own]. *)
Definition sticky_outside (own : list Z) (w w' : World T) : Prop :=
  forall i, ~ In i own ->
    bit (errors (sim9 w)) i = true -> bit (errors (sim9 w')) i = true.

(** The session's identity buffer has its [IMEI_SIZE] bytes. *)
Definition wf (w : World T) : Prop :=
  Z.of_nat (length (imei_buf (sim9 w))) = IMEI_SIZE.

(** From a well formed world [m] runs without undefined behaviour, to a
    well formed world and a result that satisfies [Q]. *)
Definition safe {A : Type} (m : M T A) (Q : A -> Prop) : Prop :=
  forall w, wf w -> exists a w', m w = Some (a, w') /\ wf w' /\ Q a.

(** The postcondition that asks nothing of the result. *)
Definition anything {A : Type} (_ : A) : Prop := True.

(** The world a probe leaves, with [status.connected] assigned. *)
Definition after_probe (w2 : World T) (connected : bool) : World T :=
  mk_world (with_status (sim9 w2) (set_bit (status (sim9 w2)) ST_CONNECTED connected))
           (usart w2) (io w2).

(** [k] calls of [check_cgatt] in a row. *)
Fixpoint polls (k : nat) : M T unit :=
  match k with
  | O => ret tt
  | S k' => check_cgatt ;; polls k'
  end.

(** [j] evaluations of the condition of [imei] in a row, each of them
    false, lead from [w] to [wj]. *)
Fixpoint imei_attempts_fail (j : nat) (w wj : World T) : Prop :=
  match j with
  | O => wj = w
  | S j' => exists w1, imei_attempt w = Some (false, w1) /\ imei_attempts_fail j' w1 wj
  end.

(** The operations of the driver other than [sim9_init] and [sim9_on],
    with their arguments. *)
Inductive operation : Type :=
| Op_send (s : option (list byte))
| Op_send_P (s : list byte)
| Op_clear_rx_buff
| Op_wait4char (c : byte) (timeout : Z)
| Op_msg (s : buf) (size timeout : Z)
| Op_searchfor (s : buf) (count : Z) (extbuff : option buf) (extsize type : Z)
| Op_searchfor_P (s : list byte) (count : Z) (extbuff : option buf) (extsize type : Z)
| Op_send_at (cmd msg : buf) (size type : Z)
| Op_send_at_P (cmd : list byte) (msg : buf) (size type : Z)
| Op_escape
| Op_imei
| Op_pin_check
| Op_network_registered
| Op_suspend
| Op_resume
| Op_off
| Op_check_cgatt
| Op_gprs_connect
| Op_gprs_disconnect
| Op_apn_setup
| Op_gprs_wireless_connection
| Op_tcpip_on.

Definition run_operation (o : operation) : M T unit :=
  match o with
  | Op_send s => sim9_send s
  | Op_send_P s => sim9_send_P s
  | Op_clear_rx_buff => sim9_clear_rx_buff
  | Op_wait4char c timeout => sim9_wait4char c timeout ;; ret tt
  | Op_msg s size timeout => sim9_msg s size timeout ;; ret tt
  | Op_searchfor s count extbuff extsize type =>
      sim9_searchfor s count extbuff extsize type ;; ret tt
  | Op_searchfor_P s count extbuff extsize type =>
      sim9_searchfor_P s count extbuff extsize type ;; ret tt
  | Op_send_at cmd msg size type => sim9_send_at cmd msg size type ;; ret tt
  | Op_send_at_P cmd msg size type => sim9_send_at_P cmd msg size type ;; ret tt
  | Op_escape => sim9_escape
  | Op_imei => imei
  | Op_pin_check => pin_check
  | Op_network_registered => network_registered
  | Op_suspend => sim9_suspend
  | Op_resume => sim9_resume
  | Op_off => sim9_off
  | Op_check_cgatt => check_cgatt
  | Op_gprs_connect => gprs_connect
  | Op_gprs_disconnect => gprs_disconnect
  | Op_apn_setup => apn_setup
  | Op_gprs_wireless_connection => gprs_wireless_connection
  | Op_tcpip_on => sim9_tcpip_on
  end.

(** What the caller of an operation owes it: an array passed with a size
    has that many bytes at least, and a result array is not empty. *)
Definition operation_ok (o : operation) : Prop :=
  match o with
  | Op_msg s size _ => uint8 size <= Z.of_nat (length s)
  | Op_searchfor _ _ (Some b) extsize _
  | Op_searchfor_P _ _ (Some b) extsize _ =>
      1 <= Z.of_nat (length b) /\ uint8 extsize <= Z.of_nat (length b)
  | Op_send_at _ msg size _
  | Op_send_at_P _ msg size _ => uint8 size <= Z.of_nat (length msg)
  | _ => True
  end.

(** The error bits an operation assigns FALSE to: those of its own
    stage. *)
Definition resets (o : operation) : list Z :=
  match o with
  | Op_escape => [ER_ESC]
  | Op_imei => [ER_IMEI]
  | Op_pin_check => [ER_PIN]
  | Op_network_registered => [ER_NETREG]
  | Op_gprs_connect | Op_gprs_disconnect => [ER_GPRS]
  | Op_tcpip_on => [ER_TCPIP; ER_GPRS]
  | _ => []
  end.

End Observations.

(** ** A scripted transport with other dimensions

    The transport of [Mock] with a receive buffer of [rx] bytes and a heap
    whose fresh blocks hold [junk]. *)
Module Rig.

Definition transport (rx : Z) (junk : nat -> byte) : Usart Mock.t := {|
  usart_init := fun x => x;
  usart_shut := fun x => x;
  usart_resume := fun x => x;
  usart_suspend := fun x => x;
  usart_eol := Mock.eol;
  usart_rx_size := fun _ => rx;
  usart_getmsg := Mock.getmsg;
  usart_get := Mock.get;
  usart_tx_strncpy := Mock.tx_strncpy;
  usart_printstr := Mock.printstr;
  usart_clear_rx_buffer := Mock.clear_rx;
  delay_ms := Mock.delay;
  heap_junk := fun _ => junk
|}.

End Rig.

(** ** More observations *)

Section Traces.

Context {T : Type} {U : Usart T}.

(** [k] reads of one byte in a row, none of which gets the byte [s], each
    followed by the delay of one second, lead from [t] to [t']. *)
Fixpoint wait_misses (k : nat) (s : byte) (t t' : T) : Prop :=
  match k with
  | O => t' = t
  | S k' =>
      match fst (usart_get t) with
      | c0 :: _ => c0 <> s
      | [] => True
      end /\
      wait_misses k' s (delay_ms 1000 (snd (usart_get t))) t'
  end.

(** [n] polls of the transport in a row, 10 ms apart, that see
    [flags.eol] at 0. *)
Fixpoint idle_polls (n : nat) (t : T) : Prop :=
  match n with
  | O => True
  | S n' =>
      fst (usart_eol (delay_ms 10 t)) = 0 /\
      idle_polls n' (snd (usart_eol (delay_ms 10 t)))
  end.


(** One query of [network_registered]: the delay of two seconds, the
    MSGOK shaped AT+CGREG? into [buffer], and the test of the answer. *)
Definition netreg_query (buffer : buf) : M T (bool * buf) :=
  _delay_ms 2000 ;;
  '(ok, buffer1) <- sim9_send_at_P (lit "AT+CGREG?") buffer SOB626 SENDAT_TYPE_MSGOK ;;
  ret (z2b ok && memcmp_eq buffer1 (lit "+CGREG: 0,1") 11, buffer1).

(** [j] queries in a row, none of which finds the modem registered, lead
    from the block [buffer] and the world [w] to [bj] and [wj]. *)
Fixpoint netreg_queries_fail (j : nat) (buffer : buf) (w : World T)
    (bj : buf) (wj : World T) : Prop :=
  match j with
  | O => bj = buffer /\ wj = w
  | S j' =>
      exists b1 w1,
        netreg_query buffer w = Some (false, b1, w1) /\
        netreg_queries_fail j' b1 w1 bj wj
  end.

(** Every run of [m] from a world that satisfies [P] ends with a result
    and in a world that satisfy [Q]. *)
Definition hoare {A : Type} (P : World T -> Prop) (m : M T A)
    (Q : A -> World T -> Prop) : Prop :=
  forall w a w', P w -> m w = Some (a, w') -> Q a w'.

(** The status word is [st], the error word is one of [E], the I/O
    registers satisfy [iop]. *)
Definition sess (st : Z) (E : list Z) (iop : avr_io -> Prop) (w : World T) : Prop :=
  status (sim9 w) = st /\ In (errors (sim9 w)) E /\ iop (io w).

(** What a run may change in the session: of the error word the bits
    listed in [er], of the status word the bits listed in [st], of which
    [status.ready] is not raised, the identity buffer when [ib] is true;
    [flags], the two position buffers and the I/O registers are as they
    were. *)
Definition keeps (er st : list Z) (ib : bool) (w w' : World T) : Prop :=
  (forall i, ~ In i er -> bit (errors (sim9 w')) i = bit (errors (sim9 w)) i) /\
  (forall i, ~ In i st -> bit (status (sim9 w')) i = bit (status (sim9 w)) i) /\
  (bit (status (sim9 w')) ST_READY = true -> bit (status (sim9 w)) ST_READY = true) /\
  (ib = false -> imei_buf (sim9 w') = imei_buf (sim9 w)) /\
  flags (sim9 w') = flags (sim9 w) /\
  gps_lat (sim9 w') = gps_lat (sim9 w) /\
  gps_lon (sim9 w') = gps_lon (sim9 w) /\
  io w' = io w.

(** The error bits an operation assigns. *)
Definition error_footprint (o : operation) : list Z :=
  match o with
  | Op_escape => [ER_ESC]
  | Op_imei => [ER_IMEI]
  | Op_pin_check => [ER_PIN]
  | Op_network_registered => [ER_NETREG]
  | Op_off => [ER_OFF]
  | Op_check_cgatt | Op_gprs_connect | Op_gprs_disconnect => [ER_GPRS]
  | Op_apn_setup => [ER_APN]
  | Op_gprs_wireless_connection => [ER_TCPIP]
  | Op_tcpip_on => [ER_TCPIP; ER_GPRS; ER_APN]
  | _ => []
  end.

(** The status bits an operation assigns; [provider] is the two bits from
    [ST_PROVIDER]. *)
Definition status_footprint (o : operation) : list Z :=
  match o with
  | Op_escape => [ST_CONNECTED]
  | Op_off => [ST_READY]
  | Op_check_cgatt | Op_gprs_connect | Op_gprs_disconnect => [ST_GPRS]
  | Op_apn_setup => [ST_PROVIDER; ST_PROVIDER + 1]
  | Op_tcpip_on => [ST_GPRS; ST_PROVIDER; ST_PROVIDER + 1]
  | _ => []
  end.

(** Whether an operation writes the identity buffer. *)
Definition writes_imei (o : operation) : bool :=
  match o with
  | Op_imei => true
  | _ => false
  end.

End Traces.

(** * Properties *)

(** ** Runs of the monad *)

Section Runs.

Context {T : Type}.

Lemma bind_run {A B} (m : M T A) (k : A -> M T B) (w : World T) (r : B * World T) :
  bind m k w = Some r <->
  exists a w', m w = Some (a, w') /\ k a w' = Some r.
Proof.
  unfold bind. split.
  - destruct (m w) as [[a w']|]; [eauto | discriminate].
  - intros (a & w' & -> & Hk). exact Hk.
Qed.

Lemma ret_run {A} (a : A) (w : World T) (r : A * World T) :
  ret a w = Some r <-> r = (a, w).
Proof. unfold ret. split; [intros [= <-] | intros ->]; reflexivity. Qed.

Lemma lift_opt_run {A} (o : option A) (w : World T) (r : A * World T) :
  lift_opt o w = Some r <-> exists a, o = Some a /\ r = (a, w).
Proof.
  unfold lift_opt. destruct o as [a|]; split.
  - intros [= <-]. eauto.
  - intros (a' & [= <-] & ->). reflexivity.
  - discriminate.
  - intros (a' & [=] & _).
Qed.

End Runs.

(** [run_inv H] takes apart a hypothesis [H : m w = Some r] along the
    sequencing structure of [m]. *)
Ltac run_inv H :=
  lazymatch type of H with
  | bind _ _ _ = Some _ =>
      let a := fresh "a" in let w := fresh "w" in
      let H1 := fresh "Hrun" in
      apply bind_run in H; destruct H as (a & w & H1 & H);
      run_inv H1; run_inv H
  | ret _ _ = Some _ =>
      apply ret_run in H;
      first [injection H as ? ?; subst | injection H as ?; subst | idtac]
  | lift_opt _ _ = Some _ =>
      let a := fresh "a" in let E := fresh "Hopt" in
      apply lift_opt_run in H; destruct H as (a & E & H);
      first [injection H as ? ?; subst | injection H as ?; subst | idtac]
  | undefined _ = Some _ => discriminate H
  | (match ?x with (_, _) => _ end) _ = Some _ =>
      let a := fresh "a" in let b := fresh "b" in
      destruct x as [a b]; run_inv H
  | _ => idtac
  end.

(** ** C strings and buffers *)

Section Buffers.

Lemma store_nat_length (b : buf) (i : nat) (v : byte) (b' : buf) :
  store_nat b i v = Some b' -> length b' = length b.
Proof.
  revert i b'. induction b as [|c b IH]; intros [|i] b' H; simpl in H; try discriminate.
  - injection H as <-. reflexivity.
  - destruct (store_nat b i v) as [b1|] eqn:E; [|discriminate].
    injection H as <-. simpl. f_equal. eauto.
Qed.

Lemma store_nat_bound (b : buf) (i : nat) (v : byte) (b' : buf) :
  store_nat b i v = Some b' -> (i < length b)%nat.
Proof.
  revert i b'. induction b as [|c b IH]; intros [|i] b' H; simpl in H; try discriminate.
  - simpl. lia.
  - destruct (store_nat b i v) as [b1|] eqn:E; [|discriminate].
    apply IH in E. simpl. lia.
Qed.

Lemma store_nat_defined (b : buf) (i : nat) (v : byte) :
  (i < length b)%nat -> exists b', store_nat b i v = Some b'.
Proof.
  revert i. induction b as [|c b IH]; intros [|i] H; simpl in *; try lia.
  - eauto.
  - destruct (IH i) as (b1 & ->); [lia|]. simpl. eauto.
Qed.

Lemma store_nat_same (b : buf) (i : nat) (v : byte) (b' : buf) :
  store_nat b i v = Some b' -> nth_error b' i = Some v.
Proof.
  revert i b'. induction b as [|c b IH]; intros [|i] b' H; simpl in H; try discriminate.
  - injection H as <-. reflexivity.
  - destruct (store_nat b i v) as [b1|] eqn:E; [|discriminate].
    injection H as <-. simpl. eauto.
Qed.

Lemma store_nat_skipn (b : buf) (i : nat) (v : byte) (b' : buf) (n : nat) :
  store_nat b i v = Some b' -> (i < n)%nat -> skipn n b' = skipn n b.
Proof.
  revert i b' n. induction b as [|c b IH]; intros [|i] b' [|n] H Hn; simpl in H;
    try discriminate; try lia.
  - injection H as <-. reflexivity.
  - destruct (store_nat b i v) as [b1|] eqn:E; [|discriminate].
    injection H as <-. simpl. eapply IH; [eassumption | lia].
Qed.

Lemma store_length (b : buf) (i : Z) (v : byte) (b' : buf) :
  store b i v = Some b' -> length b' = length b.
Proof.
  unfold store. destruct (i <? 0); [discriminate|]. apply store_nat_length.
Qed.

Lemma store_bound (b : buf) (i : Z) (v : byte) (b' : buf) :
  store b i v = Some b' -> 0 <= i < Z.of_nat (length b).
Proof.
  unfold store. destruct (Z.ltb_spec i 0); [discriminate|].
  intros H'. apply store_nat_bound in H'. lia.
Qed.

Lemma store_defined (b : buf) (i : Z) (v : byte) :
  0 <= i < Z.of_nat (length b) -> exists b', store b i v = Some b'.
Proof.
  intros H. unfold store. destruct (Z.ltb_spec i 0); [lia|].
  apply store_nat_defined. lia.
Qed.

Lemma store_load (b : buf) (i : Z) (v : byte) (b' : buf) :
  store b i v = Some b' -> load b' i = Some v.
Proof.
  unfold store, load. destruct (i <? 0); [discriminate|]. apply store_nat_same.
Qed.

Lemma store_skipn (b : buf) (i : Z) (v : byte) (b' : buf) (n : Z) :
  store b i v = Some b' -> i < n -> skipn (Z.to_nat n) b' = skipn (Z.to_nat n) b.
Proof.
  unfold store. destruct (Z.ltb_spec i 0); [discriminate|].
  intros H' Hn. eapply store_nat_skipn; [eassumption | lia].
Qed.

Lemma blit_length (b src b' : buf) :
  blit b src = Some b' -> length b' = length b.
Proof.
  unfold blit. destruct (Nat.leb_spec (length src) (length b)); [|discriminate].
  intros [= <-]. rewrite length_app, length_skipn. lia.
Qed.

Lemma blit_defined (b src : buf) :
  (length src <= length b)%nat -> exists b', blit b src = Some b'.
Proof.
  intros H. unfold blit. destruct (Nat.leb_spec (length src) (length b)); [eauto | lia].
Qed.

Lemma blit_skipn (b src b' : buf) (n : nat) :
  blit b src = Some b' -> (length src <= n)%nat -> skipn n b' = skipn n b.
Proof.
  unfold blit. destruct (Nat.leb_spec (length src) (length b)); [|discriminate].
  intros [= <-] Hn.
  rewrite skipn_app, (skipn_all2 src) by lia. simpl.
  rewrite skipn_skipn. f_equal. lia.
Qed.

End Buffers.

(** ** The Message Reader *)

Section MessageReader.

Context {T : Type} {U : Usart T}.

Lemma sim9_msg_loop_eq (loop : nat) (s : buf) (size : Z) :
  sim9_msg_loop loop s size =
  (_delay_ms 10 ;;
   eol <- flags_eol ;;
   '(len, s1) <-
     (if eol =? 0 then ret (0, s)
      else
        '(len, s1) <- getmsg s size ;;
        ret (if len <? 3 then 0 else len, s1)) ;;
   if len =? 0 then
     match loop with
     | O => ret (0, s1)
     | S n => sim9_msg_loop n s1 size
     end
   else ret (len, s1))%sim9.
Proof. destruct loop; reflexivity. Qed.

Lemma uint8_le (z : Z) : 0 <= z -> 0 <= uint8 z <= z.
Proof.
  intros H. unfold uint8. split.
  - apply Z.mod_pos_bound. lia.
  - apply Z.mod_le; lia.
Qed.

Lemma uint8_range (z : Z) : 0 <= uint8 z < 256.
Proof. unfold uint8. apply Z.mod_pos_bound. lia. Qed.

Lemma uint8_small (z : Z) : 0 <= z < 256 -> uint8 z = z.
Proof. intros H. unfold uint8. apply Z.mod_small. exact H. Qed.

(** One dequeue under the transport's contract: defined, within the first
    [size] bytes of the array, the session untouched. *)
Lemma getmsg_spec (s : buf) (size : Z) (w : World T) :
  getmsg_truncates U ->
  0 <= size <= Z.of_nat (length s) ->
  let data := fst (usart_getmsg size (usart w)) in
  exists s',
    getmsg s size w =
      Some (uint8 (Z.of_nat (length data)), s',
            mk_world (sim9 w) (snd (usart_getmsg size (usart w))) (io w)) /\
    length s' = length s /\
    skipn (Z.to_nat size) s' = skipn (Z.to_nat size) s /\
    Z.of_nat (length data) <= size.
Proof.
  intros HU Hsz data.
  pose proof (HU size (usart w) (proj1 Hsz)) as Hd. fold data in Hd.
  destruct (blit_defined s data) as (s' & Hb); [lia|].
  exists s'. unfold getmsg, bind, ask_usart, lift_opt, ret.
  subst data. destruct (usart_getmsg size (usart w)) as [d t1]. simpl in *.
  rewrite Hb. repeat split.
  - eapply blit_length; eassumption.
  - eapply blit_skipn; [eassumption | lia].
  - exact Hd.
Qed.

Lemma sim9_msg_loop_spec (loop : nat) (s : buf) (size : Z) (w : World T) :
  getmsg_truncates U ->
  0 <= size <= Z.of_nat (length s) ->
  exists len s' w',
    sim9_msg_loop loop s size w = Some (len, s', w') /\
    length s' = length s /\
    skipn (Z.to_nat size) s' = skipn (Z.to_nat size) s /\
    (len = 0 \/ 3 <= len <= size) /\
    sim9 w' = sim9 w /\ io w' = io w /\
    (no_line_within (S loop) size (usart w) = true -> len = 0).
Proof.
  intros HU. revert s w. induction loop as [|n IH]; intros s w Hsz.
  - rewrite sim9_msg_loop_eq.
    unfold bind at 1; unfold _delay_ms, on_usart; simpl.
    unfold bind at 1; unfold flags_eol, ask_usart; simpl.
    destruct (usart_eol (delay_ms 10 (usart w))) as [eol t1].
    destruct (Z.eqb_spec eol 0) as [He|He].
    + unfold bind, ret; simpl. do 3 eexists. repeat split; auto.
    + set (w1 := mk_world (sim9 w) t1 (io w)).
      destruct (getmsg_spec s size w1 HU Hsz) as (s' & Hg & Hl & Hs & Hd).
      unfold bind at 1. unfold bind at 1. rewrite Hg. simpl in *.
      unfold ret at 1.
      destruct (usart_getmsg size t1) as [data t2]. simpl in *.
      pose proof (uint8_le (Z.of_nat (length data)) ltac:(lia)) as Hu.
      destruct (Z.ltb_spec (uint8 (Z.of_nat (length data))) 3) as [Hlt|Hge]; simpl.
      * unfold ret. do 3 eexists. repeat split; eauto.
      * destruct (Z.eqb_spec (uint8 (Z.of_nat (length data))) 0) as [E0|E0]; [lia|].
        unfold ret. do 3 eexists. repeat split; eauto.
        -- right. lia.
        -- intros [=].
  - rewrite sim9_msg_loop_eq.
    unfold bind at 1; unfold _delay_ms, on_usart; simpl.
    unfold bind at 1; unfold flags_eol, ask_usart; simpl.
    change (no_line_within (S (S n)) size (usart w)) with
      (let (eol, t1) := usart_eol (delay_ms 10 (usart w)) in
       if eol =? 0 then no_line_within (S n) size t1
       else
         let (data, t2) := usart_getmsg size t1 in
         (uint8 (Z.of_nat (length data)) <? 3) && no_line_within (S n) size t2).
    destruct (usart_eol (delay_ms 10 (usart w))) as [eol t1].
    destruct (Z.eqb_spec eol 0) as [He|He].
    + unfold bind at 1, ret at 1; simpl.
      destruct (IH s (mk_world (sim9 w) t1 (io w)) Hsz)
        as (len & s' & w' & Hr & Hl & Hs & Hlen & Hsim & Hio & Hq).
      exists len, s', w'. repeat split; auto.
    + set (w1 := mk_world (sim9 w) t1 (io w)).
      destruct (getmsg_spec s size w1 HU Hsz) as (s1 & Hg & Hl1 & Hs1 & Hd).
      unfold bind at 1. unfold bind at 1. rewrite Hg. simpl in *.
      unfold ret at 1.
      destruct (usart_getmsg size t1) as [data t2]. simpl in *.
      pose proof (uint8_le (Z.of_nat (length data)) ltac:(lia)) as Hu.
      destruct (Z.ltb_spec (uint8 (Z.of_nat (length data))) 3) as [Hlt|Hge]; simpl.
      * destruct (IH s1 (mk_world (sim9 w) t2 (io w)) ltac:(lia))
          as (len & s' & w' & Hr & Hl & Hs & Hlen & Hsim & Hio & Hq).
        exists len, s', w'. repeat split; auto; congruence.
      * destruct (Z.eqb_spec (uint8 (Z.of_nat (length data))) 0) as [E0|E0]; [lia|].
        unfold ret. do 3 eexists. repeat split; eauto.
        -- right. lia.
        -- intros [=].
Qed.

(** The whole call, under the transport's contract and for an array of at
    least [size] bytes. *)
Lemma sim9_msg_spec (s : buf) (size timeout : Z) (w : World T) :
  getmsg_truncates U ->
  0 <= size <= 255 -> size <= Z.of_nat (length s) ->
  exists len s' w',
    sim9_msg s size timeout w = Some (len, s', w') /\
    length s' = length s /\
    skipn (Z.to_nat size) s' = skipn (Z.to_nat size) s /\
    (len = 0 \/ 3 <= len <= size) /\
    (3 <= len -> load s' (len - 2) = Some NUL) /\
    sim9 w' = sim9 w /\ io w' = io w /\
    (no_line_within (S (Z.to_nat (uint16 (uint8 timeout * 100)))) size (usart w) = true ->
     len = 0).
Proof.
  intros HU Hsz Hcap.
  unfold sim9_msg. rewrite (uint8_small size) by lia.
  destruct (sim9_msg_loop_spec (Z.to_nat (uint16 (uint8 timeout * 100))) s size w HU
              ltac:(lia))
    as (len & s1 & w1 & Hr & Hl & Hs & Hlen & Hsim & Hio & Hq).
  unfold bind at 1. rewrite Hr.
  destruct Hlen as [-> | Hlen].
  - simpl. unfold ret. exists 0, s1, w1. repeat split; auto. lia.
  - destruct (Z.eqb_spec len 0) as [E|E]; [lia|].
    destruct (store_defined s1 (len - 2) NUL) as (s2 & Hst); [lia|].
    unfold bind, lift_opt, ret. rewrite Hst.
    exists len, s2, w1. repeat split; auto; try lia.
    + apply store_length in Hst. congruence.
    + rewrite <- Hs. eapply store_skipn; [eassumption | lia].
    + intros _. eapply store_load; eassumption.
Qed.


(** C8.  Called with a capacity [size < 2], whatever the timeout and the
    transport's state (a transport that truncates to capacity), [sim9_msg]
    returns 0, stores no terminator, and leaves the array beyond its first
    [size] bytes as it was. *)
Theorem sim9_msg_unusable_buffer (s : buf) (size timeout : Z) (w : World T) :
  getmsg_truncates U ->
  0 <= size < 2 -> size <= Z.of_nat (length s) ->
  exists s' w',
    sim9_msg s size timeout w = Some (0, s', w') /\
    length s' = length s /\
    skipn (Z.to_nat size) s' = skipn (Z.to_nat size) s.
Proof.
  intros HU Hsz Hcap.
  destruct (sim9_msg_spec s size timeout w HU ltac:(lia) Hcap)
    as (len & s' & w' & Hr & Hl & Hs & Hlen & _).
  assert (len = 0) as -> by lia.
  exists s', w'. auto.
Qed.

End MessageReader.

(** The scripted transport truncates to capacity. *)
Lemma mock_truncates : getmsg_truncates Mock.transport.
Proof.
  intros size t Hsz. simpl. unfold Mock.getmsg.
  destruct (Mock.lines t) as [|[at_ l] q]; simpl; [lia|].
  destruct (at_ <=? Mock.now t); simpl; [|lia].
  rewrite length_firstn. lia.
Qed.

(** On the scripted transport "no line within the timeout" is a matter of
    the clock: when the next line is not complete before [n] polls of 10
    ms are over, none of these polls sees a line. *)
Lemma mock_silent_no_line (n : nat) (size : Z) (x : Mock.t) :
  Mock.silent_until (Mock.now x + 10 * Z.of_nat n) x ->
  no_line_within n size x = true.
Proof.
  revert x. induction n as [|n IH]; intros x Hs; [reflexivity|].
  cbn [no_line_within usart_eol delay_ms Mock.transport].
  unfold Mock.eol, Mock.delay. cbn [Mock.now Mock.lines].
  assert (Hr : Mock.ready (Mock.now x + 10) (Mock.lines x) = O).
  { unfold Mock.silent_until in Hs.
    destruct (Mock.lines x) as [|[at_ l] q]; [reflexivity|].
    cbn [Mock.ready]. destruct (Z.leb_spec at_ (Mock.now x + 10)); [lia | reflexivity]. }
  rewrite Hr. cbn [Z.of_nat Z.eqb].
  apply IH. unfold Mock.silent_until in *. cbn [Mock.lines Mock.now].
  destruct (Mock.lines x) as [|[at_ l] q]; [exact I | lia].
Qed.

(** A call with timeout [t] on the scripted transport returns 0 when the
    next line is not complete before [t] seconds and 10 ms have passed. *)
Lemma mock_sim9_msg_times_out (s : buf) (size t : Z) (w : World Mock.t) :
  0 <= size <= 255 -> size <= Z.of_nat (length s) -> 1 <= t <= 255 ->
  Mock.silent_until (Mock.now (usart w) + t * 1000 + 10) (usart w) ->
  exists s' w', sim9_msg s size t w = Some (0, s', w').
Proof.
  intros Hsz Hcap Ht Hs.
  destruct (sim9_msg_spec s size t w mock_truncates Hsz Hcap)
    as (len & s' & w' & Hr & _ & _ & _ & _ & _ & _ & Hq).
  exists s', w'. rewrite Hr. repeat f_equal. apply Hq.
  apply mock_silent_no_line.
  rewrite (uint8_small t) by lia. unfold uint16. rewrite Z.mod_small by lia.
  unfold Mock.silent_until in *.
  destruct (Mock.lines (usart w)) as [|[at_ l] q]; [exact I | lia].
Qed.


(** An instance of C8: an array of one byte while OK is waiting. *)
Lemma sim9_msg_unusable_buffer_witness :
  let s := [xaa] in
  let w := Mock.world 0 0 [(0, Mock.line "OK")] in
  getmsg_truncates Mock.transport /\ 0 <= 1 < 2 /\ 1 <= Z.of_nat (length s) /\
  exists s' w',
    sim9_msg s 1 5 w = Some (0, s', w') /\
    length s' = length s /\
    skipn (Z.to_nat 1) s' = skipn (Z.to_nat 1) s.
Proof.
  intros s w.
  split; [exact mock_truncates|]. split; [lia|]. split; [simpl; lia|].
  apply (sim9_msg_unusable_buffer s 1 5 w);
    [exact mock_truncates | lia | simpl; lia].
Defined.

(** ** The Pattern Matcher *)

Section PatternMatcher.

Context {T : Type} {U : Usart T}.

Lemma sim9_searchfor_loop_eq (count : nat) (s : buf) (type : Z) (check_error : bool)
    (buffer : buf) (size : Z) :
  sim9_searchfor_loop count s type check_error buffer size =
  ('(len, buffer1) <- sim9_msg buffer size 1 ;;
   let '(check_error1, ok, stop) :=
     if len =? 0 then (check_error, false, false)
     else
       let '(ce, ok) := search_switch type check_error s buffer1 in
       (ce, ok, negb ok && ce && strcmp_eq buffer1 (lit "ERROR")) in
   if ok then ret (true, buffer1, 1%nat)
   else if stop then ret (false, buffer1, 1%nat)
   else
     match count with
     | O => ret (false, buffer1, 1%nat)
     | S n =>
         '(ok', buffer2, k) <- sim9_searchfor_loop n s type check_error1 buffer1 size ;;
         ret (ok', buffer2, S k)
     end)%sim9.
Proof. destruct count; reflexivity. Qed.

(** The error check is armed by [ERELAX] and [EEQUAL] and by no other
    value of [type]. *)
Lemma search_switch_check_error (type : Z) (ce : bool) (s buffer : buf) :
  fst (search_switch type ce s buffer) =
  ce || (type =? ERELAX) || (type =? EEQUAL).
Proof.
  unfold search_switch.
  destruct (Z.eqb_spec type ERELAX) as [->|H1]; [destruct ce; reflexivity|].
  destruct (Z.eqb_spec type RELAX) as [->|H2]; [destruct ce; reflexivity|].
  destruct (Z.eqb_spec type EEQUAL) as [->|H3]; destruct ce; reflexivity.
Qed.

(** The loop calls [sim9_msg] at least once and at most [count + 1]
    times. *)
Lemma sim9_searchfor_loop_calls (count : nat) (s : buf) (type : Z) (ce : bool)
    (buffer : buf) (size : Z) (w : World T) ok b k w' :
  sim9_searchfor_loop count s type ce buffer size w = Some (ok, b, k, w') ->
  (1 <= k <= S count)%nat.
Proof.
  revert ce buffer w ok b k w'.
  induction count as [|n IH]; intros ce buffer w ok b k w' H;
    rewrite sim9_searchfor_loop_eq in H;
    apply bind_run in H; destruct H as ([len b1] & w1 & _ & H);
    destruct (if len =? 0 then _ else _) as [[ce1 ok1] stop];
    destruct ok1; [run_inv H; lia | destruct stop; [run_inv H; lia|] | run_inv H; lia
                  | destruct stop; [run_inv H; lia|] ].
  - run_inv H. lia.
  - apply bind_run in H. destruct H as ([[ok2 b2] k2] & w2 & H2 & H).
    run_inv H. apply IH in H2. lia.
Qed.

(** In a mode that does not arm the error check, a search that fails has
    called [sim9_msg] exactly [count + 1] times. *)
Lemma sim9_searchfor_loop_exhausts (count : nat) (s : buf) (type : Z)
    (buffer : buf) (size : Z) (w : World T) b k w' :
  type <> ERELAX -> type <> EEQUAL ->
  sim9_searchfor_loop count s type false buffer size w = Some (false, b, k, w') ->
  k = S count.
Proof.
  intros H1 H2. revert buffer w b k w'.
  induction count as [|n IH]; intros buffer w b k w' H;
    rewrite sim9_searchfor_loop_eq in H;
    apply bind_run in H; destruct H as ([len b1] & w1 & _ & H).
  - destruct (len =? 0).
    + run_inv H. reflexivity.
    + pose proof (search_switch_check_error type false s b1) as Hce.
      destruct (search_switch type false s b1) as [ce ok]. simpl in Hce.
      destruct (Z.eqb_spec type ERELAX); [contradiction|].
      destruct (Z.eqb_spec type EEQUAL); [contradiction|].
      simpl in Hce. subst ce.
      destruct ok; simpl in H; run_inv H; [discriminate | reflexivity].
  - destruct (len =? 0).
    + apply bind_run in H. destruct H as ([[ok2 b2] k2] & w2 & Hl & H).
      run_inv H. f_equal. eapply IH. eassumption.
    + pose proof (search_switch_check_error type false s b1) as Hce.
      destruct (search_switch type false s b1) as [ce ok]. simpl in Hce.
      destruct (Z.eqb_spec type ERELAX); [contradiction|].
      destruct (Z.eqb_spec type EEQUAL); [contradiction|].
      simpl in Hce. subst ce.
      destruct ok; simpl in H; [run_inv H; discriminate|].
      apply bind_run in H. destruct H as ([[ok2 b2] k2] & w2 & Hl & H).
      run_inv H. f_equal. eapply IH. eassumption.
Qed.

(** The test made on a retrieved message: [ok] after the [switch]. *)
Lemma search_switch_ok (type : Z) (ce ce' : bool) (s buffer : buf) :
  snd (search_switch type ce s buffer) = snd (search_switch type ce' s buffer).
Proof.
  unfold search_switch.
  destruct (type =? ERELAX), (type =? RELAX), (type =? EEQUAL); reflexivity.
Qed.

(** The loop stops with success on the first retrieved message that
    passes the test, whatever is left of the budget. *)
Lemma sim9_searchfor_loop_match (count : nat) (s : buf) (type : Z) (ce : bool)
    (buffer : buf) (size : Z) (w : World T) len b1 w1 :
  sim9_msg buffer size 1 w = Some (len, b1, w1) ->
  len <> 0 ->
  snd (search_switch type ce s b1) = true ->
  sim9_searchfor_loop count s type ce buffer size w = Some (true, b1, 1%nat, w1).
Proof.
  intros Hm Hlen Hok. rewrite sim9_searchfor_loop_eq.
  unfold bind. rewrite Hm.
  destruct (Z.eqb_spec len 0) as [E|_]; [contradiction|].
  destruct (search_switch type ce s b1) as [ce1 ok]. simpl in Hok. subst ok.
  reflexivity.
Qed.

(** In the modes [EEQUAL] and [ERELAX], a retrieved message that fails the
    test and is the string ERROR ends the search with failure at once,
    whatever is left of the budget. *)
Lemma sim9_searchfor_loop_error (count : nat) (s : buf) (type : Z) (ce : bool)
    (buffer : buf) (size : Z) (w : World T) len b1 w1 :
  type = EEQUAL \/ type = ERELAX ->
  sim9_msg buffer size 1 w = Some (len, b1, w1) ->
  len <> 0 ->
  snd (search_switch type ce s b1) = false ->
  strcmp_eq b1 (lit "ERROR") = true ->
  sim9_searchfor_loop count s type ce buffer size w = Some (false, b1, 1%nat, w1).
Proof.
  intros Ht Hm Hlen Hok Herr. rewrite sim9_searchfor_loop_eq.
  unfold bind. rewrite Hm.
  destruct (Z.eqb_spec len 0) as [E|_]; [contradiction|].
  pose proof (search_switch_check_error type ce s b1) as Hce.
  destruct (search_switch type ce s b1) as [ce1 ok]. simpl in Hok, Hce. subst ok.
  assert (ce1 = true) as ->.
  { subst ce1. destruct Ht as [-> | ->]; destruct ce; reflexivity. }
  simpl. rewrite Herr. reflexivity.
Qed.

Lemma check_error_armed (type : Z) (ce : bool) :
  ce || (type =? ERELAX) || (type =? EEQUAL) = true ->
  ce = true \/ type = EEQUAL \/ type = ERELAX.
Proof.
  destruct ce; [auto|]. simpl.
  destruct (Z.eqb_spec type ERELAX); [auto|].
  destruct (Z.eqb_spec type EEQUAL); [auto|]. discriminate.
Qed.

(** A search that fails has used its whole budget of [count + 1] calls, or
    has the error check armed and ERROR as the last message. *)
Lemma sim9_searchfor_loop_failure (count : nat) (s : buf) (type : Z) (ce : bool)
    (buffer : buf) (size : Z) (w : World T) b k w' :
  sim9_searchfor_loop count s type ce buffer size w = Some (false, b, k, w') ->
  k = S count \/
  ((ce = true \/ type = EEQUAL \/ type = ERELAX) /\ strcmp_eq b (lit "ERROR") = true).
Proof.
  revert ce buffer w b k w'.
  induction count as [|n IH]; intros ce buffer w b k w' H;
    rewrite sim9_searchfor_loop_eq in H;
    apply bind_run in H; destruct H as ([len b1] & w1 & _ & H).
  - destruct (len =? 0); [run_inv H; auto|].
    destruct (search_switch type ce s b1) as [ce1 ok].
    destruct ok; simpl in H; [run_inv H; discriminate|].
    destruct ce1, (strcmp_eq b1 (lit "ERROR")) eqn:Herr; simpl in H; run_inv H; auto.
  - assert (Hrec : forall ce1 r,
               (ce1 = true -> ce = true \/ type = EEQUAL \/ type = ERELAX) ->
               ('(ok', buffer2, k0) <- sim9_searchfor_loop n s type ce1 b1 size ;;
                ret (ok', buffer2, S k0))%sim9 w1 = Some r ->
               r = (false, b, k, w') ->
               k = S (S n) \/
               (ce = true \/ type = EEQUAL \/ type = ERELAX) /\
               strcmp_eq b (lit "ERROR") = true).
    { intros ce1 r Hce Hr ->.
      apply bind_run in Hr. destruct Hr as ([[ok2 b2] k2] & w2 & Hl & Hr).
      run_inv Hr. apply IH in Hl. destruct Hl as [-> | [Harm Herr]]; [auto|].
      right. split; [|assumption].
      destruct Harm as [Harm | Harm]; auto. }
    destruct (len =? 0).
    + eapply (Hrec ce); [|eassumption|reflexivity]. auto.
    + pose proof (search_switch_check_error type ce s b1) as Hce.
      destruct (search_switch type ce s b1) as [ce1 ok]. simpl in Hce.
      destruct ok; simpl in H; [run_inv H; discriminate|].
      destruct ce1, (strcmp_eq b1 (lit "ERROR")) eqn:Herr; simpl in H.
      * run_inv H. right. split; [|assumption].
        apply check_error_armed. symmetry. assumption.
      * eapply Hrec; [|eassumption|reflexivity].
        intros _. apply check_error_armed. symmetry. assumption.
      * eapply Hrec; [|eassumption|reflexivity]. discriminate.
      * eapply Hrec; [|eassumption|reflexivity]. discriminate.
Qed.

End PatternMatcher.

(** C1.  The budget is overrun by one retrieval.  With [count = 1] and
    the lines NO CARRIER and OK queued, the search for OK in mode
    [EQUAL] reads both and reports success on the second; with no line at
    all it reports failure after two one-second retrievals (the clock
    stands at 2020 ms); the loop entered with [count = 1] has then called
    [sim9_msg] twice. *)
Theorem sim9_searchfor_budget_one :
  Mock.outcome (sim9_searchfor (lit "OK") 1 None 0 EQUAL
                  (Mock.world 0 0 [(0, Mock.line "NO CARRIER"); (0, Mock.line "OK")]))
    = Some (TRUE, None, 20, 0%nat) /\
  Mock.outcome (sim9_searchfor (lit "OK") 1 None 0 EQUAL (Mock.world 0 0 []))
    = Some (FALSE, None, 2020, 0%nat) /\
  match sim9_searchfor_loop 1 (lit "OK") EQUAL false (NUL :: repeat xaa 63) 64
          (Mock.world 0 0 []) with
  | Some (_, _, k, _) => k = 2%nat
  | None => False
  end.
Proof.
  split; [vm_compute; reflexivity|].
  split; [vm_compute; reflexivity|].
  vm_compute. reflexivity.
Qed.

(** C2.  [ESTRICT] does not arm the error check.  Searching "+CGATT: 1"
    with a budget of 3 when ERROR is the first line queued: in mode
    [ESTRICT] the search goes on and succeeds on the line after ERROR, and
    with ERROR alone it fails only after three more one-second retrievals
    (3040 ms); in modes [EEQUAL] and [ERELAX] it fails on ERROR, at 10 ms,
    with the next line still queued. *)
Theorem sim9_searchfor_ESTRICT_after_ERROR :
  let q := [(0, Mock.line "ERROR"); (0, Mock.line "+CGATT: 1")] in
  Mock.outcome (sim9_searchfor (lit "+CGATT: 1") 3 None 0 ESTRICT (Mock.world 0 0 q))
    = Some (TRUE, None, 20, 0%nat) /\
  Mock.outcome (sim9_searchfor (lit "+CGATT: 1") 3 None 0 ESTRICT
                  (Mock.world 0 0 [(0, Mock.line "ERROR")]))
    = Some (FALSE, None, 3040, 0%nat) /\
  Mock.outcome (sim9_searchfor (lit "+CGATT: 1") 3 None 0 EEQUAL (Mock.world 0 0 q))
    = Some (FALSE, None, 10, 1%nat) /\
  Mock.outcome (sim9_searchfor (lit "+CGATT: 1") 3 None 0 ERELAX (Mock.world 0 0 q))
    = Some (FALSE, None, 10, 1%nat).
Proof.
  intros q. subst q.
  split; [vm_compute; reflexivity|].
  split; [vm_compute; reflexivity|].
  split; vm_compute; reflexivity.
Qed.

(** ** Frames: what a run leaves alone *)

Section Relates.

Context {T : Type}.
Variable R : World T -> World T -> Prop.
Hypothesis R_refl : forall w, R w w.
Hypothesis R_trans : forall w1 w2 w3, R w1 w2 -> R w2 w3 -> R w1 w3.

Lemma relates_ret {A} (a : A) : relates R (ret a).
Proof. intros w a' w' H. run_inv H. apply R_refl. Qed.

Lemma relates_lift_opt {A} (o : option A) : relates R (lift_opt o).
Proof. intros w a' w' H. run_inv H. apply R_refl. Qed.

Lemma relates_undefined {A} : relates R (@undefined T A).
Proof. intros w a' w' H. discriminate H. Qed.

Lemma relates_bind {A B} (m : M T A) (k : A -> M T B) :
  relates R m -> (forall a, relates R (k a)) -> relates R (bind m k).
Proof.
  intros Hm Hk w b w' H.
  apply bind_run in H. destruct H as (a & w1 & H1 & H2).
  eapply R_trans; [eapply Hm | eapply Hk]; eassumption.
Qed.

End Relates.

Lemma relates_weaken {T A} (R R' : World T -> World T -> Prop) (m : M T A) :
  (forall w w', R w w' -> R' w w') -> relates R m -> relates R' m.
Proof. intros HR Hm w a w' H. apply HR. eapply Hm. eassumption. Qed.

Lemma same_session_refl {T} (w : World T) : same_session w w.
Proof. split; reflexivity. Qed.

Lemma same_session_trans {T} (w1 w2 w3 : World T) :
  same_session w1 w2 -> same_session w2 w3 -> same_session w1 w3.
Proof. intros [H1 H2] [H3 H4]. split; congruence. Qed.

Lemma sticky_outside_refl {T} (own : list Z) (w : World T) : sticky_outside own w w.
Proof. intros i _ H. exact H. Qed.

Lemma sticky_outside_trans {T} (own : list Z) (w1 w2 w3 : World T) :
  sticky_outside own w1 w2 -> sticky_outside own w2 w3 -> sticky_outside own w1 w3.
Proof. intros H1 H2 i Hi H. apply H2, H1; assumption. Qed.

Lemma same_session_sticky {T} (own : list Z) (w w' : World T) :
  same_session w w' -> sticky_outside own w w'.
Proof. intros [H _] i _ Hb. rewrite H. exact Hb. Qed.

Create HintDb frame discriminated.

(** [frame_tac refl trans] walks the sequencing structure of the run in
    the goal; the calls it meets are closed from the [frame] database. *)
Ltac frame_tac refl trans :=
  repeat first
    [ solve [auto with frame]
    | match goal with
      | |- forall _, _ => intros ?
      | |- relates _ (ret _) => apply relates_ret; refl
      | |- relates _ (lift_opt _) => apply relates_lift_opt; refl
      | |- relates _ undefined => apply relates_undefined
      | |- relates _ (bind _ _) => apply relates_bind; [trans | | intros ?]
      | |- relates _ (if ?b then _ else _) => destruct b
      | |- relates _ (match ?x with (_, _) => _ end) => destruct x
      | |- relates _ (match ?x with Some _ => _ | None => _ end) => destruct x
      end ].

Ltac same_session_tac :=
  frame_tac ltac:(exact (@same_session_refl _)) ltac:(exact (@same_session_trans _)).

Section SessionFrame.

Context {T : Type} {U : Usart T}.

Lemma on_usart_same (f : T -> T) : relates same_session (on_usart f).
Proof. intros w a w' [= _ <-]. split; reflexivity. Qed.

Lemma ask_usart_same {A} (f : T -> A * T) : relates same_session (ask_usart f).
Proof.
  intros w a w'. unfold ask_usart. destruct (f (usart w)). intros [= _ <-].
  split; reflexivity.
Qed.

Lemma rx_size_same : relates same_session rx_size.
Proof. intros w a w' [= _ <-]. apply same_session_refl. Qed.

Lemma malloc_same (n : Z) : relates same_session (malloc n).
Proof. intros w a w' [= _ <-]. apply same_session_refl. Qed.

Lemma get_sim9_same : relates (T:=T) same_session get_sim9.
Proof. intros w a w' [= _ <-]. apply same_session_refl. Qed.

Hint Resolve on_usart_same ask_usart_same rx_size_same malloc_same get_sim9_same : frame.

Lemma status_bit_same (i : Z) : relates (T:=T) same_session (status_bit i).
Proof. unfold status_bit. same_session_tac. Qed.

Lemma error_bit_same (i : Z) : relates (T:=T) same_session (error_bit i).
Proof. unfold error_bit. same_session_tac. Qed.

Lemma errors_all_same : relates (T:=T) same_session errors_all.
Proof. unfold errors_all. same_session_tac. Qed.

Lemma provider_same : relates (T:=T) same_session provider.
Proof. unfold provider. same_session_tac. Qed.

Lemma delay_ms_same (ms : Z) : relates same_session (_delay_ms ms).
Proof. apply on_usart_same. Qed.

Lemma flags_eol_same : relates same_session flags_eol.
Proof. apply ask_usart_same. Qed.

Lemma sim9_send_same (s : option (list byte)) : relates same_session (sim9_send s).
Proof. apply on_usart_same. Qed.

Hint Resolve status_bit_same error_bit_same errors_all_same provider_same
  delay_ms_same flags_eol_same sim9_send_same : frame.

Lemma sim9_send_P_same (s : list byte) : relates same_session (sim9_send_P s).
Proof. unfold sim9_send_P. same_session_tac. Qed.

Lemma sim9_clear_rx_buff_same : relates same_session sim9_clear_rx_buff.
Proof. apply on_usart_same. Qed.

Lemma getmsg_same (s : buf) (size : Z) : relates same_session (getmsg s size).
Proof. unfold getmsg. same_session_tac. Qed.

Hint Resolve sim9_send_P_same sim9_clear_rx_buff_same getmsg_same : frame.

Lemma sim9_msg_loop_same (loop : nat) (s : buf) (size : Z) :
  relates same_session (sim9_msg_loop loop s size).
Proof.
  revert s. induction loop as [|n IH]; intros s; rewrite sim9_msg_loop_eq;
    same_session_tac.
Qed.

Hint Resolve sim9_msg_loop_same : frame.

Lemma sim9_msg_same (s : buf) (size timeout : Z) :
  relates same_session (sim9_msg s size timeout).
Proof. unfold sim9_msg. same_session_tac. Qed.

Hint Resolve sim9_msg_same : frame.

Lemma sim9_searchfor_loop_same (count : nat) (s : buf) (type : Z) (ce : bool)
    (buffer : buf) (size : Z) :
  relates same_session (sim9_searchfor_loop count s type ce buffer size).
Proof.
  revert ce buffer. induction count as [|n IH]; intros ce buffer;
    rewrite sim9_searchfor_loop_eq.
  - apply relates_bind; [exact (@same_session_trans T) | auto with frame |].
    intros [len b1].
    destruct (if len =? 0 then _ else _) as [[ce1 ok] stop].
    same_session_tac.
  - apply relates_bind; [exact (@same_session_trans T) | auto with frame |].
    intros [len b1].
    destruct (if len =? 0 then _ else _) as [[ce1 ok] stop].
    same_session_tac.
Qed.

Hint Resolve sim9_searchfor_loop_same : frame.

Lemma sim9_searchfor_same (s : buf) (count : Z) (extbuff : option buf)
    (extsize type : Z) :
  relates same_session (sim9_searchfor s count extbuff extsize type).
Proof. unfold sim9_searchfor. same_session_tac. Qed.

Lemma ram_copy_P_same (s : list byte) : relates same_session (ram_copy_P s).
Proof. unfold ram_copy_P. same_session_tac. Qed.

Hint Resolve sim9_searchfor_same ram_copy_P_same : frame.

Lemma sim9_searchfor_P_same (s : list byte) (count : Z) (extbuff : option buf)
    (extsize type : Z) :
  relates same_session (sim9_searchfor_P s count extbuff extsize type).
Proof. unfold sim9_searchfor_P. same_session_tac. Qed.

Hint Resolve sim9_searchfor_P_same : frame.

Lemma and_sim9_msg_same (ok : Z) (msg : buf) (size : Z) :
  relates same_session (and_sim9_msg ok msg size).
Proof. unfold and_sim9_msg. same_session_tac. Qed.

Lemma and_search_OK_same (ok : Z) : relates same_session (and_search_OK ok).
Proof. unfold and_search_OK. same_session_tac. Qed.

Lemma sim9_send_at_echo_same (cmd : buf) : relates same_session (sim9_send_at_echo cmd).
Proof. unfold sim9_send_at_echo. same_session_tac. Qed.

Hint Resolve and_sim9_msg_same and_search_OK_same sim9_send_at_echo_same : frame.

Lemma sim9_send_at_same (cmd msg : buf) (size type : Z) :
  relates same_session (sim9_send_at cmd msg size type).
Proof. unfold sim9_send_at. same_session_tac. Qed.

Hint Resolve sim9_send_at_same : frame.

Lemma sim9_send_at_P_same (cmd : list byte) (msg : buf) (size type : Z) :
  relates same_session (sim9_send_at_P cmd msg size type).
Proof. unfold sim9_send_at_P. same_session_tac. Qed.

Lemma send_at_P_OK_same (cmd : list byte) : relates same_session (send_at_P_OK cmd).
Proof.
  unfold send_at_P_OK.
  apply relates_bind; [exact (@same_session_trans T) | apply sim9_send_at_P_same |].
  same_session_tac.
Qed.

Lemma sim9_wait4char_same (s : byte) (timeout : Z) :
  relates same_session (sim9_wait4char s timeout).
Proof.
  unfold sim9_wait4char. induction (Z.to_nat (uint8 timeout)) as [|n IH]; simpl.
  - same_session_tac.
  - apply relates_bind; [exact (@same_session_trans T) | auto with frame |].
    intros [|c0 c]; [|destruct (Byte.eqb c0 s)]; same_session_tac.
Qed.

End SessionFrame.

#[export] Hint Resolve on_usart_same ask_usart_same rx_size_same malloc_same
  get_sim9_same status_bit_same error_bit_same errors_all_same provider_same
  delay_ms_same flags_eol_same sim9_send_same sim9_send_P_same
  sim9_clear_rx_buff_same getmsg_same sim9_msg_loop_same sim9_msg_same
  sim9_searchfor_loop_same sim9_searchfor_same ram_copy_P_same
  sim9_searchfor_P_same and_sim9_msg_same and_search_OK_same
  sim9_send_at_echo_same sim9_send_at_same sim9_send_at_P_same
  send_at_P_OK_same sim9_wait4char_same : frame.

(** ** The Command Session *)

Section CommandSession.

Context {T : Type} {U : Usart T}.

Lemma status_bit_run (i : Z) (w : World T) b w' :
  status_bit i w = Some (b, w') <-> b = bit (status (sim9 w)) i /\ w' = w.
Proof. unfold status_bit, bind, get_sim9, ret. split; [intros [= <- <-] | intros [-> ->]]; auto. Qed.

Lemma error_bit_run (i : Z) (w : World T) b w' :
  error_bit i w = Some (b, w') <-> b = bit (errors (sim9 w)) i /\ w' = w.
Proof. unfold error_bit, bind, get_sim9, ret. split; [intros [= <- <-] | intros [-> ->]]; auto. Qed.

(** With echo enabled the value of [ok] before the processing delay is the
    result of the echo search. *)
Lemma sim9_send_at_echo_enabled (cmd : buf) (w : World T) e w1 :
  bit (status (sim9 w)) ST_ECHO = true ->
  sim9_send_at_echo cmd w = Some (e, w1) ->
  exists w0 eol w0' b,
    flags_eol w0 = Some (eol, w0') /\
    sim9_searchfor cmd (eol + 1) None 0 EEQUAL w0' = Some (e, b, w1).
Proof.
  intros He H. unfold sim9_send_at_echo in H.
  apply bind_run in H. destruct H as ([] & wa & Ha & H).
  apply bind_run in H. destruct H as ([] & wb & Hb & H).
  apply bind_run in H. destruct H as (echo & wc & Hc & H).
  assert (echo = true) as ->.
  { pose proof (sim9_send_same _ _ _ _ Ha) as [E1 _].
    pose proof (sim9_send_P_same _ _ _ _ Hb) as [E2 _].
    apply status_bit_run in Hc. destruct Hc as [-> _]. congruence. }
  apply bind_run in H. destruct H as ([] & wd & Hd & H).
  apply bind_run in H. destruct H as ([] & we & Hee & H).
  apply bind_run in H. destruct H as (eol & wf & Hf & H).
  apply bind_run in H. destruct H as ([r b] & wg & Hg & H).
  run_inv H. exists we, eol, wf, b. auto.
Qed.

(** C5 (amended).  [sim9_send_at] with shape MSGOK and echo enabled.  [e]
    is the result of the echo search.  When it is 0 the call returns FALSE
    with [msg] untouched, in the world the echo check left followed by the
    processing delay: neither the message retrieval nor the search for OK
    takes place.  When it is not 0 the message is retrieved first; the
    search for OK follows when, and only when, a message was retrieved;
    the call returns TRUE exactly when that search succeeds. *)
Theorem sim9_send_at_MSGOK_echo (cmd msg : buf) (size : Z) (w : World T) e w1 :
  bit (status (sim9 w)) ST_ECHO = true ->
  sim9_send_at_echo cmd w = Some (e, w1) ->
  let w2 := mk_world (sim9 w1) (delay_ms 100 (usart w1)) (io w1) in
  (exists w0 eol w0' b,
     flags_eol w0 = Some (eol, w0') /\
     sim9_searchfor cmd (eol + 1) None 0 EEQUAL w0' = Some (e, b, w1)) /\
  (e = 0 ->
   sim9_send_at cmd msg size SENDAT_TYPE_MSGOK w = Some (FALSE, msg, w2)) /\
  (e <> 0 ->
   forall r msg' w',
     sim9_send_at cmd msg size SENDAT_TYPE_MSGOK w = Some (r, msg', w') ->
     exists eol w3 len w4,
       flags_eol w2 = Some (eol, w3) /\
       sim9_msg msg size (eol + 1) w3 = Some (len, msg', w4) /\
       (len = 0 -> r = FALSE /\ w' = w4) /\
       (len <> 0 ->
        exists eol' w5 r5 b5,
          flags_eol w4 = Some (eol', w5) /\
          sim9_searchfor_P (lit "OK") (eol' + 1) None 0 EEQUAL w5 = Some (r5, b5, w') /\
          r = b2z (z2b r5))).
Proof.
  intros He Hecho w2. split; [eapply sim9_send_at_echo_enabled; eassumption|].
  split.
  - intros ->. unfold sim9_send_at, bind. rewrite Hecho. reflexivity.
  - intros Hne r msg' w' H.
    unfold sim9_send_at in H.
    apply bind_run in H. destruct H as (e' & w1' & H1 & H).
    rewrite Hecho in H1. injection H1 as <- <-.
    apply bind_run in H. destruct H as ([] & w2' & H2 & H).
    assert (w2' = w2) as -> by (injection H2 as <-; reflexivity).
    change (uint8 SENDAT_TYPE_MSGOK =? SENDAT_TYPE_MSGOK) with true in H.
    cbv iota in H.
    apply bind_run in H. destruct H as ([ok1 msg1] & w4 & Hm & H).
    apply bind_run in H. destruct H as (ok2 & w6 & Hs & H).
    run_inv H.
    unfold and_sim9_msg in Hm.
    assert (z2b e = true) as Hze.
    { unfold z2b. destruct (Z.eqb_spec e 0); [contradiction | reflexivity]. }
    rewrite Hze in Hm.
    apply bind_run in Hm. destruct Hm as (eol & w3 & Heol & Hm).
    apply bind_run in Hm. destruct Hm as ([len msg2] & w4' & Hmsg & Hm).
    run_inv Hm.
    exists eol, w3, len, w4'. split; [assumption|]. split; [assumption|].
    unfold and_search_OK in Hs. split.
    + intros ->. simpl in Hs. run_inv Hs. auto.
    + intros Hlen.
      assert (z2b (b2z (z2b len)) = true) as Hzl.
      { unfold z2b. destruct (Z.eqb_spec len 0); [contradiction | reflexivity]. }
      rewrite Hzl in Hs.
      apply bind_run in Hs. destruct Hs as (eol' & w5 & Heol' & Hs).
      apply bind_run in Hs. destruct Hs as ([r5 b5] & w7 & Hsrch & Hs).
      run_inv Hs. exists eol', w5, r5, b5. auto.
Qed.

End CommandSession.

(** C5, as stated, fails.  Echo is enabled (bit 12 of the status word);
    the modem answers the command with ERROR, so the echo check fails, and
    the lines "+CGATT: 1" and OK follow.  The call returns FALSE at 210 ms
    (the 100 ms echo wait, one poll, the 100 ms processing delay): the two
    lines are complete and still queued, and [msg] is not written.  A
    retrieval made in the world the call returns in gets the 11 bytes of
    the payload line. *)
Lemma sim9_send_at_MSGOK_skips_retrieval :
  let msg := repeat xaa 15 in
  let q := [(60, Mock.line "ERROR"); (150, Mock.line "+CGATT: 1"); (155, Mock.line "OK")] in
  match sim9_send_at (lit "AT+CGATT?") msg 15 SENDAT_TYPE_MSGOK (Mock.world 4096 0 q) with
  | Some (r, msg', w') =>
      r = FALSE /\ msg' = msg /\
      Mock.now (usart w') = 210 /\
      Mock.lines (usart w') = [(150, Mock.line "+CGATT: 1"); (155, Mock.line "OK")] /\
      Mock.ready (Mock.now (usart w')) (Mock.lines (usart w')) = 2%nat /\
      match sim9_msg msg 15 3 w' with
      | Some (len, _, _) => len = 11
      | None => False
      end
  | None => False
  end.
Proof. vm_compute. repeat split. Qed.

(** An instance of C5 (amended): the echo check fails on ERROR. *)
Lemma sim9_send_at_MSGOK_echo_witness :
  let msg := repeat xaa 15 in
  let cmd := lit "AT+CGATT?" in
  let q := [(60, Mock.line "ERROR"); (150, Mock.line "+CGATT: 1"); (155, Mock.line "OK")] in
  let w := Mock.world 4096 0 q in
  exists e w1,
    bit (status (sim9 w)) ST_ECHO = true /\
    sim9_send_at_echo cmd w = Some (e, w1) /\
    let w2 := mk_world (sim9 w1) (delay_ms 100 (usart w1)) (io w1) in
    (exists w0 eol w0' b,
       flags_eol w0 = Some (eol, w0') /\
       sim9_searchfor cmd (eol + 1) None 0 EEQUAL w0' = Some (e, b, w1)) /\
    (e = 0 ->
     sim9_send_at cmd msg 15 SENDAT_TYPE_MSGOK w = Some (FALSE, msg, w2)) /\
    (e <> 0 ->
     forall r msg' w',
       sim9_send_at cmd msg 15 SENDAT_TYPE_MSGOK w = Some (r, msg', w') ->
       exists eol w3 len w4,
         flags_eol w2 = Some (eol, w3) /\
         sim9_msg msg 15 (eol + 1) w3 = Some (len, msg', w4) /\
         (len = 0 -> r = FALSE /\ w' = w4) /\
         (len <> 0 ->
          exists eol' w5 r5 b5,
            flags_eol w4 = Some (eol', w5) /\
            sim9_searchfor_P (lit "OK") (eol' + 1) None 0 EEQUAL w5 = Some (r5, b5, w') /\
            r = b2z (z2b r5))).
Proof.
  intros msg cmd q w. eexists. eexists.
  split; [reflexivity|].
  split; [vm_compute; reflexivity|].
  apply (sim9_send_at_MSGOK_echo cmd msg 15 w); [reflexivity | vm_compute; reflexivity].
Defined.

(** ** Error bits *)

Section BitFacts.

Lemma bit_set_bit (w i j : Z) (v : bool) :
  0 <= i -> bit (set_bit w i v) j = if i =? j then v else bit w j.
Proof.
  intros Hi. unfold bit, set_bit. destruct v.
  - rewrite Z.setbit_eqb by assumption. destruct (i =? j); reflexivity.
  - rewrite Z.clearbit_eqb. destruct (i =? j); simpl.
    + apply andb_false_r.
    + apply andb_true_r.
Qed.

Lemma bit_set_bit_same (w i : Z) (v : bool) : 0 <= i -> bit (set_bit w i v) i = v.
Proof. intros Hi. rewrite bit_set_bit by assumption. rewrite Z.eqb_refl. reflexivity. Qed.

Lemma bit_set_bit_other (w i j : Z) (v : bool) :
  0 <= i -> i <> j -> bit (set_bit w i v) j = bit w j.
Proof.
  intros Hi Hij. rewrite bit_set_bit by assumption.
  destruct (Z.eqb_spec i j); [contradiction | reflexivity].
Qed.

End BitFacts.

Section Sticky.

Context {T : Type} {U : Usart T}.

Lemma set_error_bit_run (i : Z) (v : bool) (w : World T) a w' :
  set_error_bit i v w = Some (a, w') <->
  a = tt /\
  w' = mk_world (with_errors (sim9 w) (set_bit (errors (sim9 w)) i v)) (usart w) (io w).
Proof.
  unfold set_error_bit, bind, get_sim9, put_sim9.
  split; [intros [= <- <-] | intros [-> ->]]; auto.
Qed.

Lemma set_status_bit_run (i : Z) (v : bool) (w : World T) a w' :
  set_status_bit i v w = Some (a, w') <->
  a = tt /\
  w' = mk_world (with_status (sim9 w) (set_bit (status (sim9 w)) i v)) (usart w) (io w).
Proof.
  unfold set_status_bit, bind, get_sim9, put_sim9.
  split; [intros [= <- <-] | intros [-> ->]]; auto.
Qed.

Lemma set_error_bit_true_sticky (own : list Z) (i : Z) :
  0 <= i -> relates (T:=T) (sticky_outside own) (set_error_bit i true).
Proof.
  intros Hi w a w' H. apply set_error_bit_run in H. destruct H as [_ ->].
  intros j _ Hj.
  change (bit (set_bit (errors (sim9 w)) i true) j = true).
  rewrite bit_set_bit by assumption.
  destruct (i =? j); [reflexivity | assumption].
Qed.

Lemma set_error_bit_false_sticky (own : list Z) (i : Z) :
  0 <= i -> In i own -> relates (T:=T) (sticky_outside own) (set_error_bit i false).
Proof.
  intros Hi Hin w a w' H. apply set_error_bit_run in H. destruct H as [_ ->].
  intros j Hj Hb.
  change (bit (set_bit (errors (sim9 w)) i false) j = true).
  rewrite bit_set_bit_other; [assumption | assumption |].
  intros ->. contradiction.
Qed.

Lemma set_status_bit_sticky (own : list Z) (i : Z) (v : bool) :
  relates (T:=T) (sticky_outside own) (set_status_bit i v).
Proof.
  intros w a w' H. apply set_status_bit_run in H. destruct H as [_ ->].
  intros j _ Hb. exact Hb.
Qed.

Lemma put_imei_sticky (own : list Z) (b : buf) :
  relates (T:=T) (sticky_outside own) (put_imei b).
Proof. intros w a w' [= _ <-]. intros j _ Hb. exact Hb. Qed.

Lemma set_provider_sticky (own : list Z) (v : Z) :
  relates (T:=T) (sticky_outside own) (set_provider v).
Proof. intros w a w' [= _ <-]. intros j _ Hb. exact Hb. Qed.

Lemma same_session_relates_sticky {A} (own : list Z) (m : M T A) :
  relates same_session m -> relates (sticky_outside own) m.
Proof. apply relates_weaken. apply same_session_sticky. Qed.

End Sticky.

Ltac sticky_leaf :=
  first
    [ assumption
    | match goal with
      | H : forall x, relates _ (?f ?n x) |- relates _ (?f ?n _) => apply H
      end
    | match goal with
      | |- relates _ (set_status_bit _ _) => apply set_status_bit_sticky
      | |- relates _ (put_imei _) => apply put_imei_sticky
      | |- relates _ (set_provider _) => apply set_provider_sticky
      | |- relates _ (set_error_bit _ true) =>
          apply set_error_bit_true_sticky; discriminate
      | |- relates _ (set_error_bit _ false) =>
          apply set_error_bit_false_sticky; [discriminate | simpl; auto]
      | |- relates (sticky_outside _) _ =>
          apply same_session_relates_sticky; solve [auto with frame]
      end ].

Ltac sticky_tac :=
  repeat first
    [ solve [sticky_leaf]
    | match goal with
      | |- forall _, _ => intros ?
      | |- relates _ (ret _) => apply relates_ret; exact (@sticky_outside_refl _ _)
      | |- relates _ (lift_opt _) => apply relates_lift_opt; exact (@sticky_outside_refl _ _)
      | |- relates _ (bind _ _) =>
          apply relates_bind; [exact (@sticky_outside_trans _ _) | | intros ?]
      | |- relates _ (if ?b then _ else _) => destruct b
      | |- relates _ (match ?x with (_, _) => _ end) => destruct x
      | |- relates _ (match ?x with Some _ => _ | None => _ end) => destruct x
      end ].



Section StickyStages.

Context {T : Type} {U : Usart T}.

Lemma imei_loop_eq (retry : nat) :
  imei_loop retry =
  (e <- error_bit ER_IMEI ;;
   if e then
     match retry with
     | O => ret tt
     | S n =>
         good <- imei_attempt ;;
         (if good then set_error_bit ER_IMEI false else ret tt) ;;
         imei_loop n
     end
   else ret tt)%sim9.
Proof. destruct retry; reflexivity. Qed.

Lemma imei_attempt_sticky (own : list Z) : relates (sticky_outside own) imei_attempt.
Proof. unfold imei_attempt. sticky_tac. Qed.

Lemma network_registered_loop_eq (retry : nat) (buffer : buf) :
  network_registered_loop retry buffer =
  (e <- error_bit ER_NETREG ;;
   if e then
     match retry with
     | O => ret tt
     | S n =>
         _delay_ms 2000 ;;
         '(ok, buffer1) <- sim9_send_at_P (lit "AT+CGREG?") buffer SOB626 SENDAT_TYPE_MSGOK ;;
         (if z2b ok && memcmp_eq buffer1 (lit "+CGREG: 0,1") 11
          then set_error_bit ER_NETREG false else ret tt) ;;
         network_registered_loop n buffer1
     end
   else ret tt)%sim9.
Proof. destruct retry; reflexivity. Qed.

Lemma gprs_connect_loop_eq (retry : nat) :
  gprs_connect_loop retry =
  (check_cgatt ;;
   g <- status_bit ST_GPRS ;;
   if negb g then
     match retry with
     | O => ret 1%nat
     | S n => k <- gprs_connect_loop n ;; ret (S k)
     end
   else ret 1%nat)%sim9.
Proof. destruct retry; reflexivity. Qed.

Lemma gprs_disconnect_loop_eq (retry : nat) :
  gprs_disconnect_loop retry =
  (check_cgatt ;;
   g <- status_bit ST_GPRS ;;
   if g then
     match retry with
     | O => ret 1%nat
     | S n => k <- gprs_disconnect_loop n ;; ret (S k)
     end
   else ret 1%nat)%sim9.
Proof. destruct retry; reflexivity. Qed.

Lemma sim9_escape_loop_S (n : nat) :
  sim9_escape_loop (S n) =
  (connected <- status_bit ST_CONNECTED ;;
   (if connected then
      _delay_ms 1000 ;;
      sim9_send_P (lit "+++") ;;
      _delay_ms 500 ;;
      echo <- status_bit ST_ECHO ;;
      if echo then
        sim9_send_P [CR; LF] ;;
        sim9_searchfor_P (lit "+++") 30 None 0 EQUAL ;;
        ret tt
      else _delay_ms 1000
    else ret tt) ;;
   '(ok, _) <- sim9_send_at_P (lit "AT") [] 0 SENDAT_TYPE_OK ;;
   if z2b ok then (set_status_bit ST_CONNECTED false ;; ret 1%nat)
   else
     set_status_bit ST_CONNECTED true ;;
     k <- sim9_escape_loop n ;;
     ret (S k))%sim9.
Proof. reflexivity. Qed.

Lemma sim9_escape_loop_sticky (own : list Z) (retry : nat) :
  relates (sticky_outside own) (sim9_escape_loop retry).
Proof.
  induction retry as [|n IH]; [apply relates_ret; apply sticky_outside_refl|].
  rewrite sim9_escape_loop_S. sticky_tac.
Qed.

Lemma sim9_escape_sticky (own : list Z) :
  In ER_ESC own -> relates (sticky_outside own) sim9_escape.
Proof.
  intros Hin. unfold sim9_escape.
  pose proof (sim9_escape_loop_sticky own 3) as Hl.
  sticky_tac.
Qed.

Lemma imei_loop_sticky (own : list Z) (retry : nat) :
  In ER_IMEI own -> relates (sticky_outside own) (imei_loop retry).
Proof.
  intros Hin. pose proof (imei_attempt_sticky own) as Ha.
  induction retry as [|n IH]; rewrite imei_loop_eq; sticky_tac.
Qed.

Lemma imei_sticky (own : list Z) :
  In ER_IMEI own -> relates (sticky_outside own) imei.
Proof.
  intros Hin. unfold imei, imei_reset.
  pose proof (imei_loop_sticky own 10 Hin) as Hl.
  sticky_tac.
Qed.

Lemma pin_check_sticky (own : list Z) :
  In ER_PIN own -> relates (sticky_outside own) pin_check.
Proof. intros Hin. unfold pin_check. sticky_tac. Qed.

Lemma network_registered_loop_sticky (own : list Z) (retry : nat) (buffer : buf) :
  In ER_NETREG own -> relates (sticky_outside own) (network_registered_loop retry buffer).
Proof.
  intros Hin. revert buffer.
  induction retry as [|n IH]; intros buffer; rewrite network_registered_loop_eq; sticky_tac.
Qed.

Lemma network_registered_sticky (own : list Z) :
  In ER_NETREG own -> relates (sticky_outside own) network_registered.
Proof.
  intros Hin. unfold network_registered.
  pose proof (fun b => network_registered_loop_sticky own 5 b Hin) as Hl.
  sticky_tac.
Qed.

Lemma sim9_off_sticky (own : list Z) : relates (sticky_outside own) sim9_off.
Proof. unfold sim9_off. sticky_tac. Qed.

Lemma check_cgatt_sticky (own : list Z) : relates (sticky_outside own) check_cgatt.
Proof. unfold check_cgatt. sticky_tac. Qed.

Lemma gprs_connect_loop_sticky (own : list Z) (retry : nat) :
  relates (sticky_outside own) (gprs_connect_loop retry).
Proof.
  pose proof (check_cgatt_sticky own) as Hc.
  induction retry as [|n IH]; rewrite gprs_connect_loop_eq; sticky_tac.
Qed.

Lemma gprs_disconnect_loop_sticky (own : list Z) (retry : nat) :
  relates (sticky_outside own) (gprs_disconnect_loop retry).
Proof.
  pose proof (check_cgatt_sticky own) as Hc.
  induction retry as [|n IH]; rewrite gprs_disconnect_loop_eq; sticky_tac.
Qed.

Lemma gprs_connect_sticky (own : list Z) :
  In ER_GPRS own -> relates (sticky_outside own) gprs_connect.
Proof.
  intros Hin. unfold gprs_connect.
  pose proof (gprs_connect_loop_sticky own 5) as Hl.
  sticky_tac.
Qed.

Lemma gprs_disconnect_sticky (own : list Z) :
  In ER_GPRS own -> relates (sticky_outside own) gprs_disconnect.
Proof.
  intros Hin. unfold gprs_disconnect.
  pose proof (gprs_disconnect_loop_sticky own 5) as Hl.
  sticky_tac.
Qed.

Lemma apn_setup_sticky (own : list Z) : relates (sticky_outside own) apn_setup.
Proof. unfold apn_setup. sticky_tac. Qed.

Lemma gprs_wireless_connection_sticky (own : list Z) :
  relates (sticky_outside own) gprs_wireless_connection.
Proof. unfold gprs_wireless_connection. sticky_tac. Qed.

Lemma sim9_tcpip_on_sticky (own : list Z) :
  In ER_TCPIP own -> In ER_GPRS own -> relates (sticky_outside own) sim9_tcpip_on.
Proof.
  intros Hin1 Hin2. unfold sim9_tcpip_on.
  pose proof (gprs_connect_sticky own Hin2) as Hg.
  pose proof (apn_setup_sticky own) as Ha.
  pose proof (gprs_wireless_connection_sticky own) as Hw.
  sticky_tac.
Qed.

(** C4 (amended).  An operation other than [sim9_init] and [sim9_on]
    assigns FALSE to no error bit but those of its own stage ([resets]):
    [sim9_escape] to [esc], [imei] to [imei], [pin_check] to [pin],
    [network_registered] to [netreg], [gprs_connect] and [gprs_disconnect]
    to [gprs], [sim9_tcpip_on] to [tcpip] and [gprs]; every other error bit
    that is set when the operation starts is set when it returns. *)
Theorem error_bits_sticky_outside_stage (o : operation) (w w' : World T) (i : Z) :
  run_operation o w = Some (tt, w') ->
  ~ In i (resets o) ->
  bit (errors (sim9 w)) i = true ->
  bit (errors (sim9 w')) i = true.
Proof.
  intros Hrun Hi Hb.
  assert (Hrel : relates (sticky_outside (resets o)) (run_operation o)).
  { destruct o; simpl.
    - sticky_tac.
    - sticky_tac.
    - sticky_tac.
    - sticky_tac.
    - sticky_tac.
    - sticky_tac.
    - sticky_tac.
    - sticky_tac.
    - sticky_tac.
    - apply sim9_escape_sticky. simpl. auto.
    - apply imei_sticky. simpl. auto.
    - apply pin_check_sticky. simpl. auto.
    - apply network_registered_sticky. simpl. auto.
    - apply same_session_relates_sticky. apply on_usart_same.
    - apply same_session_relates_sticky. apply on_usart_same.
    - apply sim9_off_sticky.
    - apply check_cgatt_sticky.
    - apply gprs_connect_sticky. simpl. auto.
    - apply gprs_disconnect_sticky. simpl. auto.
    - apply apn_setup_sticky.
    - apply gprs_wireless_connection_sticky.
    - apply sim9_tcpip_on_sticky; simpl; auto. }
  exact (Hrel w tt w' Hrun i Hi Hb).
Qed.

End StickyStages.

(** C4, as stated, fails: [gprs_connect] run with [errors.gprs] set (bit 8,
    the word 256) against a modem that confirms the attach command and
    then reports "+CGATT: 1" returns with [errors.gprs] clear. *)
Lemma gprs_connect_clears_gprs_error :
  let q := [(50, Mock.line "OK"); (160, Mock.line "+CGATT: 1"); (165, Mock.line "OK")] in
  let w := Mock.world 0 256 q in
  bit (errors (sim9 w)) ER_GPRS = true /\
  match gprs_connect w with
  | Some (_, w') => bit (errors (sim9 w')) ER_GPRS = false
  | None => False
  end.
Proof. split; vm_compute; reflexivity. Qed.

(** An instance of C4 (amended): [errors.pin] survives [gprs_connect]. *)
Lemma error_bits_sticky_outside_stage_witness :
  let q := [(50, Mock.line "OK"); (160, Mock.line "+CGATT: 1"); (165, Mock.line "OK")] in
  let w := Mock.world 0 (256 + 4) q in
  exists w',
    run_operation Op_gprs_connect w = Some (tt, w') /\
    ~ In ER_PIN (resets Op_gprs_connect) /\
    bit (errors (sim9 w)) ER_PIN = true /\
    bit (errors (sim9 w')) ER_PIN = true.
Proof.
  intros q w. eexists.
  assert (Hin : ~ In ER_PIN (resets Op_gprs_connect)).
  { simpl. intros [H|[]]. discriminate H. }
  split; [vm_compute; reflexivity|].
  split; [exact Hin|].
  split; [reflexivity|].
  apply (error_bits_sticky_outside_stage Op_gprs_connect w _ ER_PIN);
    [vm_compute; reflexivity | exact Hin | reflexivity].
Defined.

(** ** GPRS attach *)

Section GprsAttach.

Context {T : Type} {U : Usart T}.

Lemma polls_S (k : nat) (w : World T) :
  polls (S k) w = bind check_cgatt (fun _ => polls k) w.
Proof. reflexivity. Qed.

(** The loop entered with [retry = n] is [k] polls in a row, one at least
    and [n + 1] at most; GPRS was not seen attached after any poll but the
    last; a loop that ends without GPRS attached has made all [n + 1]. *)
Lemma gprs_connect_loop_spec (n : nat) (w : World T) k w' :
  gprs_connect_loop n w = Some (k, w') ->
  polls k w = Some (tt, w') /\
  (1 <= k <= S n)%nat /\
  (bit (status (sim9 w')) ST_GPRS = false -> k = S n) /\
  (forall j wj, (1 <= j < k)%nat -> polls j w = Some (tt, wj) ->
                bit (status (sim9 wj)) ST_GPRS = false).
Proof.
  revert w k w'. induction n as [|n IH]; intros w k w' H;
    rewrite gprs_connect_loop_eq in H;
    apply bind_run in H; destruct H as ([] & w1 & Hc & H);
    apply bind_run in H; destruct H as (g & w1' & Hg & H);
    apply status_bit_run in Hg; destruct Hg as [-> ->];
    destruct (bit (status (sim9 w1)) ST_GPRS) eqn:Eg; simpl in H.
  - run_inv H. rewrite polls_S. unfold bind. rewrite Hc.
    repeat split; auto; try solve [intros; first [reflexivity | lia | congruence]].
  - run_inv H. rewrite polls_S. unfold bind. rewrite Hc.
    repeat split; auto; try solve [intros; first [reflexivity | lia | congruence]].
  - run_inv H. rewrite polls_S. unfold bind. rewrite Hc.
    repeat split; auto; try solve [intros; first [reflexivity | lia | congruence]].
  - apply bind_run in H. destruct H as (k' & w2 & Hl & H). run_inv H.
    apply IH in Hl. destruct Hl as (Hp & Hk & Hlast & Hbefore).
    repeat split; try lia.
    + rewrite polls_S. unfold bind. rewrite Hc. exact Hp.
    + intros E. rewrite (Hlast E). reflexivity.
    + intros [|[|j]] wj Hj Hpj; [lia | |].
      * rewrite polls_S in Hpj. unfold bind in Hpj. rewrite Hc in Hpj.
        injection Hpj as <-. exact Eg.
      * rewrite polls_S in Hpj. unfold bind in Hpj. rewrite Hc in Hpj.
        eapply Hbefore; [|eassumption]. lia.
Qed.

(** C6 (amended).  [gprs_connect] clears [errors.gprs] and issues the
    attach command.  When the command fails it sets [errors.gprs] and does
    nothing else: no poll.  When it succeeds it polls with [check_cgatt]
    at least once and at most 6 times (the first poll and 5 retries): no
    poll but the last saw GPRS attached, and fewer than 6 polls end with
    GPRS attached. *)
Theorem gprs_connect_attach_then_poll (w w' : World T) :
  gprs_connect w = Some (tt, w') ->
  exists w0 ok w1,
    set_error_bit ER_GPRS false w = Some (tt, w0) /\
    send_at_P_OK (lit "AT+CGATT=1") w0 = Some (ok, w1) /\
    (ok = 0 ->
     set_error_bit ER_GPRS true w1 = Some (tt, w') /\ usart w' = usart w1) /\
    (ok <> 0 ->
     exists k,
       (1 <= k <= 6)%nat /\
       polls k w1 = Some (tt, w') /\
       (forall j wj, (1 <= j < k)%nat -> polls j w1 = Some (tt, wj) ->
                     bit (status (sim9 wj)) ST_GPRS = false) /\
       ((k < 6)%nat -> bit (status (sim9 w')) ST_GPRS = true)).
Proof.
  intros H. unfold gprs_connect in H.
  apply bind_run in H. destruct H as ([] & w0 & H0 & H).
  apply bind_run in H. destruct H as (ok & w1 & H1 & H).
  exists w0, ok, w1. split; [assumption|]. split; [assumption|].
  unfold z2b in H. destruct (Z.eqb_spec ok 0) as [E|E]; cbn [negb] in H.
  - split; [|contradiction]. intros _. split; [assumption|].
    apply set_error_bit_run in H. destruct H as [_ ->]. reflexivity.
  - split; [contradiction|]. intros _.
    apply bind_run in H. destruct H as (k & w2 & Hl & H). run_inv H.
    apply gprs_connect_loop_spec in Hl. destruct Hl as (Hp & Hk & Hlast & Hbefore).
    exists k. split; [lia|]. split; [assumption|]. split; [assumption|].
    intros Hk6.
    match goal with |- ?b = true => destruct b eqn:Eg end; [reflexivity|].
    specialize (Hlast eq_refl). lia.
Qed.

End GprsAttach.

(** C6, as stated, fails: the modem confirms the attach command and then
    stays silent; the status query AT+CGATT? is sent 6 times, and the loop
    entered with [retry = 5] counts 6 polls. *)
Lemma gprs_connect_polls_six_times :
  let w := Mock.world 0 0 [(50, Mock.line "OK")] in
  count_occ (list_eq_dec byte_eq_dec) (Mock.sent_by (gprs_connect w)) (lit "AT+CGATT?")
    = 6%nat /\
  match gprs_connect_loop 5 w with
  | Some (k, _) => k = 6%nat
  | None => False
  end.
Proof. split; vm_compute; reflexivity. Qed.

(** An instance of C6 (amended): the modem confirms the attach command and
    reports GPRS attached at the first poll. *)
Lemma gprs_connect_attach_then_poll_witness :
  let q := [(50, Mock.line "OK"); (160, Mock.line "+CGATT: 1"); (165, Mock.line "OK")] in
  let w := Mock.world 0 0 q in
  exists w',
    gprs_connect w = Some (tt, w') /\
    exists w0 ok w1,
      set_error_bit ER_GPRS false w = Some (tt, w0) /\
      send_at_P_OK (lit "AT+CGATT=1") w0 = Some (ok, w1) /\
      (ok = 0 ->
       set_error_bit ER_GPRS true w1 = Some (tt, w') /\ usart w' = usart w1) /\
      (ok <> 0 ->
       exists k,
         (1 <= k <= 6)%nat /\
         polls k w1 = Some (tt, w') /\
         (forall j wj, (1 <= j < k)%nat -> polls j w1 = Some (tt, wj) ->
                       bit (status (sim9 wj)) ST_GPRS = false) /\
         ((k < 6)%nat -> bit (status (sim9 w')) ST_GPRS = true)).
Proof.
  intros q w. eexists. split; [vm_compute; reflexivity|].
  apply (gprs_connect_attach_then_poll w). vm_compute. reflexivity.
Defined.

(** ** Identity retrieval *)

Section Identity.

Context {T : Type} {U : Usart T}.

(** One evaluation of the condition leaves the error word as it was; when
    true, the command succeeded and the identity it stored is longer than
    14 characters. *)
Lemma imei_attempt_spec (w : World T) g w1 :
  imei_attempt w = Some (g, w1) ->
  errors (sim9 w1) = errors (sim9 w) /\
  exists ok w0,
    sim9_send_at_P (lit "AT+CGSN") (imei_buf (sim9 w)) IMEI_SIZE SENDAT_TYPE_MSGOK w
      = Some (ok, imei_buf (sim9 w1), w0) /\
    g = z2b ok && (strlen (imei_buf (sim9 w1)) >? 14).
Proof.
  intros H. unfold imei_attempt in H.
  apply bind_run in H. destruct H as (s0 & wa & Ha & H).
  injection Ha as <- <-.
  apply bind_run in H. destruct H as ([ok b] & wb & Hb & H).
  apply bind_run in H. destruct H as ([] & wc & Hc & H).
  injection Hc as <-. run_inv H.
  pose proof (sim9_send_at_P_same _ _ _ _ _ _ _ Hb) as [E _].
  simpl. split; [congruence|].
  exists ok, wb. split; [assumption | reflexivity].
Qed.

Lemma imei_loop_spec (n : nat) (w w' : World T) :
  imei_loop n w = Some (tt, w') ->
  bit (errors (sim9 w)) ER_IMEI = true ->
  (exists j w1 w2,
     (j < n)%nat /\
     imei_attempts_fail j w w1 /\
     imei_attempt w1 = Some (true, w2) /\
     set_error_bit ER_IMEI false w2 = Some (tt, w')) \/
  (imei_attempts_fail n w w' /\ bit (errors (sim9 w')) ER_IMEI = true).
Proof.
  revert w. induction n as [|n IH]; intros w H He;
    rewrite imei_loop_eq in H;
    apply bind_run in H; destruct H as (e & w0 & H0 & H);
    apply error_bit_run in H0; destruct H0 as [-> ->];
    rewrite He in H.
  - run_inv H. right. split; [reflexivity | assumption].
  - apply bind_run in H. destruct H as (good & w1 & Ha & H).
    apply bind_run in H. destruct H as ([] & w2 & Hset & H).
    destruct good.
    + left. exists O, w, w1.
      rewrite imei_loop_eq in H.
      apply bind_run in H. destruct H as (e & w3 & H3 & H).
      apply error_bit_run in H3. destruct H3 as [-> ->].
      pose proof Hset as Hset'.
      apply set_error_bit_run in Hset'. destruct Hset' as [_ Hw2].
      assert (bit (errors (sim9 w2)) ER_IMEI = false) as Eb.
      { rewrite Hw2.
        change (bit (set_bit (errors (sim9 w1)) ER_IMEI false) ER_IMEI = false).
        apply bit_set_bit_same. discriminate. }
      rewrite Eb in H. run_inv H.
      split; [lia|]. split; [reflexivity|]. split; assumption.
    + run_inv Hset.
      pose proof (imei_attempt_spec _ _ _ Ha) as [Eerr _].
      apply IH in H; [|rewrite Eerr; assumption].
      destruct H as [(j & wa & wb & Hj & Hf & Hg & Hs) | [Hf Hb]].
      * left. exists (S j), wa, wb. split; [lia|]. split; [|split; assumption].
        simpl. exists w1. split; assumption.
      * right. split; [|assumption]. simpl. exists w1. split; assumption.
Qed.


End Identity.


(** ** The Escape Sequencer *)

Section Escape.

Context {T : Type} {U : Usart T}.

(** The loop entered with [retry = n + 1] sends [k] probes, one at least
    and [n + 1] at most, and ends in the world its last probe leaves, with
    [status.connected] clear when that probe succeeded and set when it
    failed; it ends on a failed probe only when all [n + 1] have failed. *)
Lemma sim9_escape_loop_spec (n : nat) (w : World T) k w' :
  sim9_escape_loop (S n) w = Some (k, w') ->
  (1 <= k <= S n)%nat /\
  exists w1 ok msg w2,
    sim9_send_at_P (lit "AT") [] 0 SENDAT_TYPE_OK w1 = Some (ok, msg, w2) /\
    w' = after_probe w2 (negb (z2b ok)) /\
    (z2b ok = false -> k = S n).
Proof.
  revert w k w'. induction n as [|n IH]; intros w k w' H;
    rewrite sim9_escape_loop_S in H;
    apply bind_run in H; destruct H as (c & wa & _ & H);
    apply bind_run in H; destruct H as ([] & w1 & _ & H);
    apply bind_run in H; destruct H as ([ok msg] & w2 & Hp & H);
    destruct (z2b ok) eqn:Eok.
  - apply bind_run in H. destruct H as ([] & w3 & Hs & H).
    apply set_status_bit_run in Hs. destruct Hs as [_ ->]. run_inv H.
    split; [lia|]. exists w1, ok, msg, w2. rewrite Eok.
    split; [assumption|]. split; [reflexivity | discriminate].
  - apply bind_run in H. destruct H as ([] & w3 & Hs & H).
    apply set_status_bit_run in Hs. destruct Hs as [_ ->].
    apply bind_run in H. destruct H as (k' & w4 & Hl & H).
    injection Hl as <- <-. run_inv H.
    split; [lia|]. exists w1, ok, msg, w2. rewrite Eok.
    split; [assumption|]. split; reflexivity.
  - apply bind_run in H. destruct H as ([] & w3 & Hs & H).
    apply set_status_bit_run in Hs. destruct Hs as [_ ->]. run_inv H.
    split; [lia|]. exists w1, ok, msg, w2. rewrite Eok.
    split; [assumption|]. split; [reflexivity | discriminate].
  - apply bind_run in H. destruct H as ([] & w3 & Hs & H).
    apply bind_run in H. destruct H as (k' & w4 & Hl & H).
    run_inv H. apply IH in Hl.
    destruct Hl as (Hk & wa1 & ok1 & msg1 & wa2 & Hp1 & Hw & Hlast).
    split; [lia|]. exists wa1, ok1, msg1, wa2.
    split; [assumption|]. split; [assumption|].
    intros E. rewrite (Hlast E). reflexivity.
Qed.

(** C9.  When [sim9_escape] returns, [errors.esc] equals
    [status.connected].  The call has sent [k] probes, between 1 and 3, and
    [status.connected] is clear exactly when the last of them succeeded:
    cleared by that probe; it is set, after a failed last probe, only when
    all 3 probes have failed. *)
Theorem sim9_escape_esc_mirrors_connected (w w' : World T) :
  sim9_escape w = Some (tt, w') ->
  bit (errors (sim9 w')) ER_ESC = bit (status (sim9 w')) ST_CONNECTED /\
  exists k wl w1 ok msg w2,
    sim9_escape_loop 3 w = Some (k, wl) /\
    (1 <= k <= 3)%nat /\
    sim9_send_at_P (lit "AT") [] 0 SENDAT_TYPE_OK w1 = Some (ok, msg, w2) /\
    wl = after_probe w2 (negb (z2b ok)) /\
    usart w' = usart w2 /\
    bit (status (sim9 w')) ST_CONNECTED = negb (z2b ok) /\
    (z2b ok = false -> k = 3%nat).
Proof.
  intros H. unfold sim9_escape in H.
  apply bind_run in H. destruct H as (k & wl & Hl & H).
  apply bind_run in H. destruct H as (c & wl' & Hc & H).
  apply status_bit_run in Hc. destruct Hc as [-> ->].
  assert (Hw' : w' = mk_world (with_errors (sim9 wl)
                                 (set_bit (errors (sim9 wl)) ER_ESC
                                    (bit (status (sim9 wl)) ST_CONNECTED)))
                              (usart wl) (io wl)).
  { destruct (bit (status (sim9 wl)) ST_CONNECTED);
      apply set_error_bit_run in H; destruct H as [_ ->]; reflexivity. }
  clear H.
  pose proof (sim9_escape_loop_spec _ _ _ _ Hl)
    as (Hk & w1 & ok & msg & w2 & Hp & Hwl & Hlast).
  assert (Hconn : bit (status (sim9 wl)) ST_CONNECTED = negb (z2b ok)).
  { rewrite Hwl.
    change (bit (set_bit (status (sim9 w2)) ST_CONNECTED (negb (z2b ok))) ST_CONNECTED
            = negb (z2b ok)).
    apply bit_set_bit_same. discriminate. }
  split.
  - rewrite Hw'.
    change (bit (set_bit (errors (sim9 wl)) ER_ESC (bit (status (sim9 wl)) ST_CONNECTED)) ER_ESC
            = bit (status (sim9 wl)) ST_CONNECTED).
    apply bit_set_bit_same. discriminate.
  - exists k, wl, w1, ok, msg, w2.
    split; [assumption|]. split; [assumption|]. split; [assumption|].
    split; [assumption|]. split; [rewrite Hw', Hwl; reflexivity|].
    split; [rewrite Hw'; exact Hconn | assumption].
Qed.

End Escape.

(** An instance of C9: the link is connected, echo is off, and the modem
    answers the first probe. *)
Lemma sim9_escape_esc_mirrors_connected_witness :
  let w := Mock.world 8192 0 [(3000, Mock.line "OK")] in
  exists w',
    sim9_escape w = Some (tt, w') /\
    bit (errors (sim9 w')) ER_ESC = bit (status (sim9 w')) ST_CONNECTED /\
    exists k wl w1 ok msg w2,
      sim9_escape_loop 3 w = Some (k, wl) /\
      (1 <= k <= 3)%nat /\
      sim9_send_at_P (lit "AT") [] 0 SENDAT_TYPE_OK w1 = Some (ok, msg, w2) /\
      wl = after_probe w2 (negb (z2b ok)) /\
      usart w' = usart w2 /\
      bit (status (sim9 w')) ST_CONNECTED = negb (z2b ok) /\
      (z2b ok = false -> k = 3%nat).
Proof.
  intros w. eexists. split; [vm_compute; reflexivity|].
  apply (sim9_escape_esc_mirrors_connected w). vm_compute. reflexivity.
Defined.

(** ** Session creation *)

Section Init.

Context {T : Type} {U : Usart T}.

(** C10.  [sim9_init] returns a session; when one exists already it is
    that session, and the transport is as it was: status word, error word,
    flags and buffers unchanged, nothing allocated, [usart_init] not
    called.  A further call returns the same session again and changes
    nothing. *)
Theorem sim9_init_idempotent (g : option sim9_t) (t : T) :
  exists s t1,
    sim9_init g t = Some (s, t1) /\
    (forall s0, g = Some s0 -> s = s0 /\ t1 = t) /\
    sim9_init (Some s) t1 = Some (s, t1).
Proof.
  destruct g as [s0|].
  - exists s0, t. split; [reflexivity|]. split; [|reflexivity].
    intros s1 [= <-]. split; reflexivity.
  - eexists. eexists. split; [reflexivity|]. split; [|reflexivity].
    intros s1 [=].
Qed.

End Init.


(** ** Absence of undefined behaviour

    With a transport that truncates to capacity and has a receive buffer
    of 1 to 254 bytes, no operation of the driver stores outside an
    array. *)

Section SafeRules.

Context {T : Type}.

Lemma safe_ret {A} (a : A) (Q : A -> Prop) : Q a -> safe (T:=T) (ret a) Q.
Proof. intros HQ w Hw. exists a, w. auto. Qed.

Lemma safe_bind {A B} (m : M T A) (k : A -> M T B) (Q1 : A -> Prop) (Q : B -> Prop) :
  safe m Q1 -> (forall a, Q1 a -> safe (k a) Q) -> safe (bind m k) Q.
Proof.
  intros Hm Hk w Hw.
  destruct (Hm w Hw) as (a & w1 & H1 & Hw1 & Ha).
  destruct (Hk a Ha w1 Hw1) as (b & w2 & H2 & Hw2 & Hb).
  exists b, w2. unfold bind. rewrite H1. auto.
Qed.

Lemma safe_lift_opt {A} (o : option A) (Q : A -> Prop) (a : A) :
  o = Some a -> Q a -> safe (T:=T) (lift_opt o) Q.
Proof. intros -> HQ w Hw. exists a, w. auto. Qed.

Lemma safe_weaken {A} (m : M T A) (Q Q' : A -> Prop) :
  safe m Q -> (forall a, Q a -> Q' a) -> safe m Q'.
Proof.
  intros Hm HQ w Hw. destruct (Hm w Hw) as (a & w' & H & Hw' & Ha).
  exists a, w'. auto.
Qed.

(** A run that keeps the session keeps it well formed. *)
Lemma safe_same_session {A} (m : M T A) (Q : A -> Prop) :
  relates same_session m ->
  (forall w, exists a w', m w = Some (a, w') /\ Q a) ->
  safe m Q.
Proof.
  intros Hs Hm w Hw. destruct (Hm w) as (a & w' & H & Ha).
  exists a, w'. split; [assumption|]. split; [|assumption].
  destruct (Hs _ _ _ H) as [E _]. unfold wf in *. rewrite E. exact Hw.
Qed.

End SafeRules.

Section Safety.

Context {T : Type} {U : Usart T}.
Hypothesis truncates : getmsg_truncates U.
Hypothesis rx_bounds : forall t : T, 1 <= usart_rx_size t <= 254.

Lemma on_usart_safe (f : T -> T) : safe (on_usart f) anything.
Proof.
  apply safe_same_session; [apply on_usart_same|].
  intros w. do 2 eexists. split; [reflexivity | exact I].
Qed.

Lemma ask_usart_safe {A} (f : T -> A * T) : safe (ask_usart f) anything.
Proof.
  apply safe_same_session; [apply ask_usart_same|].
  intros w. unfold ask_usart. destruct (f (usart w)). do 2 eexists.
  split; [reflexivity | exact I].
Qed.

Lemma rx_size_safe : safe rx_size (fun n => 1 <= n <= 254).
Proof.
  apply safe_same_session; [apply rx_size_same|].
  intros w. do 2 eexists. split; [reflexivity | apply rx_bounds].
Qed.

Lemma malloc_safe (n : Z) : safe (malloc n) (fun b => length b = Z.to_nat n).
Proof.
  apply safe_same_session; [apply malloc_same|].
  intros w. do 2 eexists. split; [reflexivity|].
  rewrite length_map, length_seq. reflexivity.
Qed.

Lemma get_sim9_safe :
  safe (T:=T) get_sim9 (fun s => Z.of_nat (length (imei_buf s)) = IMEI_SIZE).
Proof. intros w Hw. exists (sim9 w), w. auto. Qed.

Lemma status_bit_safe (i : Z) : safe (T:=T) (status_bit i) anything.
Proof. intros w Hw. do 2 eexists. split; [reflexivity|]. split; [exact Hw | exact I]. Qed.

Lemma error_bit_safe (i : Z) : safe (T:=T) (error_bit i) anything.
Proof. intros w Hw. do 2 eexists. split; [reflexivity|]. split; [exact Hw | exact I]. Qed.

Lemma errors_all_safe : safe (T:=T) errors_all anything.
Proof. intros w Hw. do 2 eexists. split; [reflexivity|]. split; [exact Hw | exact I]. Qed.

Lemma provider_safe : safe (T:=T) provider anything.
Proof. intros w Hw. do 2 eexists. split; [reflexivity|]. split; [exact Hw | exact I]. Qed.

Lemma set_status_bit_safe (i : Z) (v : bool) : safe (T:=T) (set_status_bit i v) anything.
Proof. intros w Hw. do 2 eexists. split; [reflexivity|]. split; [exact Hw | exact I]. Qed.

Lemma set_error_bit_safe (i : Z) (v : bool) : safe (T:=T) (set_error_bit i v) anything.
Proof. intros w Hw. do 2 eexists. split; [reflexivity|]. split; [exact Hw | exact I]. Qed.

Lemma set_provider_safe (v : Z) : safe (T:=T) (set_provider v) anything.
Proof. intros w Hw. do 2 eexists. split; [reflexivity|]. split; [exact Hw | exact I]. Qed.

Lemma put_imei_safe (b : buf) :
  Z.of_nat (length b) = IMEI_SIZE -> safe (T:=T) (put_imei b) anything.
Proof. intros Hb w Hw. do 2 eexists. split; [reflexivity|]. split; [exact Hb | exact I]. Qed.

Lemma sim9_send_P_safe (s : list byte) : safe (sim9_send_P s) anything.
Proof.
  apply safe_same_session; [apply sim9_send_P_same|].
  intros w. do 2 eexists. split; [reflexivity | exact I].
Qed.

(** [sim9_msg] into an array of at least [size] bytes. *)
Lemma sim9_msg_safe (s : buf) (size timeout : Z) :
  0 <= size <= 255 -> size <= Z.of_nat (length s) ->
  safe (sim9_msg s size timeout) (fun r => length (snd r) = length s).
Proof.
  intros Hsz Hcap. apply safe_same_session; [apply sim9_msg_same|].
  intros w.
  destruct (sim9_msg_spec s size timeout w truncates Hsz Hcap)
    as (len & s' & w' & Hr & Hl & _).
  exists (len, s'), w'. auto.
Qed.

Lemma sim9_searchfor_loop_safe (count : nat) (s : buf) (type : Z) (ce : bool)
    (buffer : buf) (size : Z) :
  0 <= size <= 255 -> size <= Z.of_nat (length buffer) ->
  safe (sim9_searchfor_loop count s type ce buffer size)
       (fun r => length (snd (fst r)) = length buffer).
Proof.
  intros Hsz. revert ce buffer.
  induction count as [|n IH]; intros ce buffer Hcap;
    rewrite sim9_searchfor_loop_eq;
    (eapply safe_bind; [apply sim9_msg_safe; assumption|]);
    intros [len b1] Hb1; simpl in Hb1;
    destruct (if len =? 0 then _ else _) as [[ce1 ok] stop];
    destruct ok; try (apply safe_ret; assumption);
    destruct stop; try (apply safe_ret; assumption).
  eapply safe_bind; [apply IH; rewrite Hb1; assumption|].
  intros [[ok2 b2] k2] Hb2. simpl in Hb2. apply safe_ret. simpl. congruence.
Qed.

Lemma anything_I {A} (a : A) : anything a.
Proof. exact I. Qed.

Lemma safe_anything {A} (m : M T A) (Q : A -> Prop) : safe m Q -> safe m anything.
Proof. intros H. eapply safe_weaken; [exact H | intros; exact I]. Qed.

(** [safe_tac] walks the sequencing structure; [leaf] closes the calls. *)
Ltac safe_walk leaf :=
  repeat first
    [ match goal with
      | |- safe (ret _) _ => apply safe_ret; first [exact I | assumption | idtac]
      | |- safe (bind _ _) _ =>
          first [ eapply safe_bind; [solve [leaf] | intros ? ?; cbv beta in *]
                | eapply safe_bind with (Q1 := anything); [| intros ? ?] ]
      | |- safe (if ?b then _ else _) _ => destruct b
      | |- safe (match ?x with (_, _) => _ end) _ => destruct x
      | |- safe (match ?x with Some _ => _ | None => _ end) _ => destruct x
      end
    | solve [leaf]
    | solve [eapply safe_anything; leaf] ].

Ltac safe_prim :=
  match goal with
  | |- safe (on_usart _) _ => apply on_usart_safe
  | |- safe (ask_usart _) _ => apply ask_usart_safe
  | |- safe (_delay_ms _) _ => apply on_usart_safe
  | |- safe flags_eol _ => apply ask_usart_safe
  | |- safe (sim9_send _) _ => apply on_usart_safe
  | |- safe sim9_clear_rx_buff _ => apply on_usart_safe
  | |- safe (sim9_send_P _) _ => apply sim9_send_P_safe
  | |- safe rx_size _ => apply rx_size_safe
  | |- safe (malloc _) _ => apply malloc_safe
  | |- safe get_sim9 _ => apply get_sim9_safe
  | |- safe (status_bit _) _ => apply status_bit_safe
  | |- safe (error_bit _) _ => apply error_bit_safe
  | |- safe errors_all _ => apply errors_all_safe
  | |- safe provider _ => apply provider_safe
  | |- safe (set_status_bit _ _) _ => apply set_status_bit_safe
  | |- safe (set_error_bit _ _) _ => apply set_error_bit_safe
  | |- safe (set_provider _) _ => apply set_provider_safe
  end.

Lemma sim9_searchfor_safe (s : buf) (count : Z) (extbuff : option buf)
    (extsize type : Z) :
  (forall b, extbuff = Some b ->
             1 <= Z.of_nat (length b) /\ uint8 extsize <= Z.of_nat (length b)) ->
  safe (sim9_searchfor s count extbuff extsize type) anything.
Proof.
  intros Hext. unfold sim9_searchfor.
  eapply safe_bind with
    (Q1 := fun r => 0 <= fst r <= 255 /\ fst r <= Z.of_nat (length (snd r)) /\
                    1 <= Z.of_nat (length (snd r))).
  - destruct extbuff as [b|].
    + apply safe_ret. simpl. destruct (Hext b eq_refl) as [H1 H2].
      pose proof (uint8_range extsize). lia.
    + eapply safe_bind; [apply rx_size_safe|]. intros n Hn. cbv beta in Hn.
      eapply safe_bind; [apply malloc_safe|]. intros b Hb. cbv beta in Hb.
      apply safe_ret. rewrite (uint8_small n) in * by lia.
      cbn [fst snd]. rewrite Hb. lia.
  - intros [size buffer] (Hsz & Hcap & Hpos). simpl in *.
    destruct (store_defined buffer 0 NUL) as (b0 & Hb0); [lia|].
    eapply safe_bind; [eapply safe_lift_opt with (Q := fun b => length b = length buffer);
                       [exact Hb0 | eapply store_length; exact Hb0]|].
    intros b0' Hb0'. cbv beta in Hb0'.
    eapply safe_bind;
      [apply sim9_searchfor_loop_safe; [assumption | rewrite Hb0'; assumption]|].
    intros [[ok b1] k] _. apply safe_ret. exact I.
Qed.

Lemma strncpy_length (src : list byte) (n : nat) : length (strncpy src n) = n.
Proof.
  unfold strncpy. rewrite length_firstn, length_app, repeat_length. lia.
Qed.

Lemma ram_copy_P_safe (s : list byte) : safe (ram_copy_P s) anything.
Proof.
  unfold ram_copy_P.
  eapply safe_bind; [apply rx_size_safe|]. intros n Hn. cbv beta in Hn.
  pose proof (Zle_0_nat (length (cstr s))) as Hlen.
  assert (Hsize : uint8 (Z.min (strlen s) n + 1) = Z.min (strlen s) n + 1).
  { apply uint8_small. unfold strlen. lia. }
  rewrite Hsize.
  assert (Hpos : 1 <= Z.min (strlen s) n + 1) by (unfold strlen; lia).
  eapply safe_bind; [apply malloc_safe|]. intros b Hb. cbv beta in Hb.
  destruct (blit_defined b (strncpy s (Z.to_nat (Z.min (strlen s) n + 1)))) as (b1 & Hb1).
  { rewrite strncpy_length, Hb. lia. }
  eapply safe_bind; [eapply safe_lift_opt with (Q := fun x => length x = length b);
                     [exact Hb1 | eapply blit_length; exact Hb1]|].
  intros b1' Hb1'. cbv beta in Hb1'.
  destruct (store_defined b1' (Z.min (strlen s) n + 1 - 1) NUL) as (b2 & Hb2).
  { rewrite Hb1', Hb. lia. }
  eapply safe_lift_opt; [exact Hb2 | exact I].
Qed.

Lemma sim9_searchfor_P_safe (s : list byte) (count : Z) (extbuff : option buf)
    (extsize type : Z) :
  (forall b, extbuff = Some b ->
             1 <= Z.of_nat (length b) /\ uint8 extsize <= Z.of_nat (length b)) ->
  safe (sim9_searchfor_P s count extbuff extsize type) anything.
Proof.
  intros Hext. unfold sim9_searchfor_P.
  eapply safe_bind; [apply ram_copy_P_safe|]. intros b _.
  apply sim9_searchfor_safe. assumption.
Qed.

Lemma no_extbuff (extsize : Z) :
  forall b : buf, @None buf = Some b ->
    1 <= Z.of_nat (length b) /\ uint8 extsize <= Z.of_nat (length b).
Proof. intros b [=]. Qed.

Lemma and_sim9_msg_safe (ok : Z) (msg : buf) (size : Z) :
  uint8 size <= Z.of_nat (length msg) ->
  safe (and_sim9_msg ok msg size) (fun r => length (snd r) = length msg).
Proof.
  intros Hcap. unfold and_sim9_msg. destruct (z2b ok).
  - eapply safe_bind; [apply ask_usart_safe|]. intros eol _.
    assert (Heq : forall t, sim9_msg msg size t = sim9_msg msg (uint8 size) t).
    { intros t. unfold sim9_msg.
      replace (uint8 (uint8 size)) with (uint8 size); [reflexivity|].
      unfold uint8. rewrite Z.mod_mod by lia. reflexivity. }
    rewrite Heq.
    eapply safe_bind;
      [apply sim9_msg_safe; [pose proof (uint8_range size); lia | assumption]|].
    intros [len msg1] Hl. cbv beta in Hl. apply safe_ret. exact Hl.
  - apply safe_ret. reflexivity.
Qed.

Lemma and_search_OK_safe (ok : Z) : safe (and_search_OK ok) anything.
Proof.
  unfold and_search_OK. destruct (z2b ok).
  - eapply safe_bind; [apply ask_usart_safe|]. intros eol _.
    eapply safe_bind; [apply sim9_searchfor_P_safe; apply no_extbuff|].
    intros [r b] _. apply safe_ret. exact I.
  - apply safe_ret. exact I.
Qed.

Lemma sim9_send_at_echo_safe (cmd : buf) : safe (sim9_send_at_echo cmd) anything.
Proof.
  unfold sim9_send_at_echo.
  eapply safe_bind; [apply on_usart_safe|]. intros _ _.
  eapply safe_bind; [apply sim9_send_P_safe|]. intros _ _.
  eapply safe_bind; [apply status_bit_safe|]. intros echo _.
  destruct echo; [|apply safe_ret; exact I].
  eapply safe_bind; [apply sim9_send_P_safe|]. intros _ _.
  eapply safe_bind; [apply on_usart_safe|]. intros _ _.
  eapply safe_bind; [apply ask_usart_safe|]. intros eol _.
  eapply safe_bind; [apply sim9_searchfor_safe; apply no_extbuff|].
  intros [r b] _. apply safe_ret. exact I.
Qed.

(** [sim9_send_at] with an array [msg] of at least [size] bytes (the NULL
    pointer with size 0 of the callers that want no message). *)
Lemma sim9_send_at_safe (cmd msg : buf) (size type : Z) :
  uint8 size <= Z.of_nat (length msg) ->
  safe (sim9_send_at cmd msg size type) (fun r => length (snd r) = length msg).
Proof.
  intros Hcap. unfold sim9_send_at.
  eapply safe_bind; [apply sim9_send_at_echo_safe|]. intros ok _.
  eapply safe_bind; [apply on_usart_safe|]. intros _ _.
  destruct (uint8 type =? SENDAT_TYPE_MSGOK).
  { eapply safe_bind; [apply and_sim9_msg_safe; assumption|].
    intros [ok1 msg1] Hl. cbv beta in Hl.
    eapply safe_bind; [apply and_search_OK_safe|]. intros ok2 _.
    apply safe_ret. exact Hl. }
  destruct (uint8 type =? SENDAT_TYPE_OK).
  { eapply safe_bind; [apply and_search_OK_safe|]. intros ok1 _.
    apply safe_ret. reflexivity. }
  destruct (uint8 type =? SENDAT_TYPE_MSG).
  { apply and_sim9_msg_safe. assumption. }
  apply safe_ret. reflexivity.
Qed.

Lemma sim9_send_at_P_safe (cmd : list byte) (msg : buf) (size type : Z) :
  uint8 size <= Z.of_nat (length msg) ->
  safe (sim9_send_at_P cmd msg size type) (fun r => length (snd r) = length msg).
Proof.
  intros Hcap. unfold sim9_send_at_P.
  eapply safe_bind; [apply ram_copy_P_safe|]. intros b _.
  apply sim9_send_at_safe. assumption.
Qed.

Lemma send_at_P_OK_safe (cmd : list byte) : safe (send_at_P_OK cmd) anything.
Proof.
  unfold send_at_P_OK.
  eapply safe_bind; [apply sim9_send_at_P_safe; discriminate|].
  intros [ok b] _. apply safe_ret. exact I.
Qed.

Lemma sim9_wait4char_safe (c : byte) (timeout : Z) : safe (sim9_wait4char c timeout) anything.
Proof.
  unfold sim9_wait4char. induction (Z.to_nat (uint8 timeout)) as [|n IH]; simpl.
  - apply safe_ret. exact I.
  - eapply safe_bind; [apply ask_usart_safe|]. intros [|c0 l] _.
    + eapply safe_bind; [apply on_usart_safe|]. intros _ _. exact IH.
    + destruct (Byte.eqb c0 c); [apply safe_ret; exact I|].
      eapply safe_bind; [apply on_usart_safe|]. intros _ _. exact IH.
Qed.

Ltac safe_leaf :=
  first
    [ safe_prim
    | assumption
    | match goal with
      | |- safe (send_at_P_OK _) _ => apply send_at_P_OK_safe
      | |- safe (sim9_send_at_P _ _ _ _) _ =>
          apply sim9_send_at_P_safe;
          first [ assumption | discriminate
                | match goal with H : length _ = _ |- _ => rewrite H; discriminate end ]
      | |- safe (sim9_searchfor_P _ _ None _ _) _ =>
          apply sim9_searchfor_P_safe; apply no_extbuff
      | |- safe (put_imei _) _ => apply put_imei_safe; first [assumption | congruence | lia]
      end ].

Ltac safe_tac := safe_walk safe_leaf.

Lemma sim9_escape_loop_safe (retry : nat) : safe (sim9_escape_loop retry) anything.
Proof.
  induction retry as [|n IH]; [apply safe_ret; exact I|].
  rewrite sim9_escape_loop_S. safe_tac.
Qed.

Lemma sim9_escape_safe : safe sim9_escape anything.
Proof.
  unfold sim9_escape. pose proof (sim9_escape_loop_safe 3) as Hl. safe_tac.
Qed.

Lemma imei_attempt_safe : safe imei_attempt anything.
Proof.
  unfold imei_attempt.
  eapply safe_bind; [apply get_sim9_safe|]. intros s Hs. cbv beta in Hs.
  eapply safe_bind; [apply sim9_send_at_P_safe; rewrite Hs; discriminate|].
  intros [ok b] Hb. cbv beta in Hb. simpl in Hb.
  eapply safe_bind; [apply put_imei_safe; congruence|]. intros _ _.
  apply safe_ret. exact I.
Qed.

Lemma imei_loop_safe (retry : nat) : safe (imei_loop retry) anything.
Proof.
  pose proof imei_attempt_safe as Ha.
  induction retry as [|n IH]; rewrite imei_loop_eq; safe_tac.
Qed.

Lemma imei_safe : safe imei anything.
Proof.
  unfold imei, imei_reset. pose proof (imei_loop_safe 10) as Hl.
  eapply safe_bind; [|intros _ _; exact Hl].
  eapply safe_bind; [apply get_sim9_safe|]. intros s Hs. cbv beta in Hs.
  destruct (store_defined (imei_buf s) 0 NUL) as (b & Hb);
    [rewrite Hs; unfold IMEI_SIZE; lia|].
  eapply safe_bind;
    [eapply safe_lift_opt with (Q := fun x => Z.of_nat (length x) = IMEI_SIZE);
     [exact Hb | apply store_length in Hb; congruence]|].
  intros b' Hb'. cbv beta in Hb'.
  safe_tac.
Qed.

Lemma pin_check_safe : safe pin_check anything.
Proof.
  unfold pin_check.
  eapply safe_bind; [apply malloc_safe|]. intros b Hb. cbv beta in Hb.
  eapply safe_bind; [apply sim9_send_at_P_safe; rewrite Hb; discriminate|].
  intros ? ?. safe_tac.
Qed.

Lemma network_registered_loop_safe (retry : nat) (buffer : buf) :
  length buffer = Z.to_nat SOB626 ->
  safe (network_registered_loop retry buffer) anything.
Proof.
  revert buffer. induction retry as [|n IH]; intros buffer Hb;
    rewrite network_registered_loop_eq.
  - safe_tac.
  - eapply safe_bind; [apply error_bit_safe|]. intros e _.
    destruct e; [|apply safe_ret; exact I].
    eapply safe_bind; [apply on_usart_safe|]. intros _ _.
    eapply safe_bind; [apply sim9_send_at_P_safe; rewrite Hb; discriminate|].
    intros [ok b1] Hb1. cbv beta in Hb1. simpl in Hb1.
    eapply safe_bind with (Q1 := anything); [safe_tac|]. intros _ _.
    apply IH. congruence.
Qed.

Lemma network_registered_safe : safe network_registered anything.
Proof.
  unfold network_registered.
  eapply safe_bind; [apply malloc_safe|]. intros b Hb. cbv beta in Hb.
  eapply safe_bind; [apply set_error_bit_safe|]. intros _ _.
  apply network_registered_loop_safe. exact Hb.
Qed.

Lemma sim9_off_safe : safe sim9_off anything.
Proof. unfold sim9_off. safe_tac. Qed.

Lemma check_cgatt_safe : safe check_cgatt anything.
Proof.
  unfold check_cgatt.
  eapply safe_bind; [apply malloc_safe|]. intros b Hb. cbv beta in Hb.
  eapply safe_bind; [apply sim9_send_at_P_safe; rewrite Hb; discriminate|].
  intros ? ?. safe_tac.
Qed.

Lemma gprs_connect_loop_safe (retry : nat) : safe (gprs_connect_loop retry) anything.
Proof.
  pose proof check_cgatt_safe as Hc.
  induction retry as [|n IH]; rewrite gprs_connect_loop_eq; safe_tac.
Qed.

Lemma gprs_disconnect_loop_safe (retry : nat) : safe (gprs_disconnect_loop retry) anything.
Proof.
  pose proof check_cgatt_safe as Hc.
  induction retry as [|n IH]; rewrite gprs_disconnect_loop_eq; safe_tac.
Qed.

Lemma gprs_connect_safe : safe gprs_connect anything.
Proof.
  unfold gprs_connect. pose proof (gprs_connect_loop_safe 5) as Hl. safe_tac.
Qed.

Lemma gprs_disconnect_safe : safe gprs_disconnect anything.
Proof.
  unfold gprs_disconnect. pose proof (gprs_disconnect_loop_safe 5) as Hl. safe_tac.
Qed.

Lemma apn_setup_safe : safe apn_setup anything.
Proof.
  unfold apn_setup.
  eapply safe_bind; [apply malloc_safe|]. intros b Hb. cbv beta in Hb.
  eapply safe_bind; [eapply safe_anything; apply sim9_send_at_P_safe; discriminate|].
  intros _ _.
  eapply safe_bind.
  { apply sim9_searchfor_safe. intros b0 [= <-]. rewrite Hb. split; discriminate. }
  intros ? ?. safe_tac.
Qed.

Lemma gprs_wireless_connection_safe : safe gprs_wireless_connection anything.
Proof. unfold gprs_wireless_connection. safe_tac. Qed.

Lemma sim9_tcpip_on_safe : safe sim9_tcpip_on anything.
Proof.
  unfold sim9_tcpip_on.
  pose proof gprs_connect_safe as Hg.
  pose proof apn_setup_safe as Ha.
  pose proof gprs_wireless_connection_safe as Hw.
  safe_tac.
Qed.

(** With a transport that truncates to capacity and a receive buffer of 1
    to 254 bytes, every operation called as [operation_ok] asks returns:
    none stores outside an array, and the identity buffer keeps its
    size. *)
Theorem run_operation_defined (o : operation) (w : World T) :
  operation_ok o -> wf w ->
  exists w', run_operation o w = Some (tt, w') /\ wf w'.
Proof.
  intros Hok Hw.
  assert (Hsafe : safe (run_operation o) anything).
  { destruct o; simpl in *.
    - apply on_usart_safe.
    - apply sim9_send_P_safe.
    - apply on_usart_safe.
    - eapply safe_bind; [apply sim9_wait4char_safe|]. intros _ _. apply safe_ret. exact I.
    - assert (Heq : sim9_msg s size timeout = sim9_msg s (uint8 size) timeout).
      { unfold sim9_msg.
        replace (uint8 (uint8 size)) with (uint8 size); [reflexivity|].
        unfold uint8. rewrite Z.mod_mod by lia. reflexivity. }
      rewrite Heq.
      eapply safe_bind;
        [apply sim9_msg_safe; [pose proof (uint8_range size); lia | assumption]|].
      intros _ _. apply safe_ret. exact I.
    - eapply safe_bind.
      + apply sim9_searchfor_safe. intros b ->. exact Hok.
      + intros _ _. apply safe_ret. exact I.
    - eapply safe_bind.
      + apply sim9_searchfor_P_safe. intros b ->. exact Hok.
      + intros _ _. apply safe_ret. exact I.
    - eapply safe_bind; [apply sim9_send_at_safe; assumption|].
      intros _ _. apply safe_ret. exact I.
    - eapply safe_bind; [apply sim9_send_at_P_safe; assumption|].
      intros _ _. apply safe_ret. exact I.
    - apply sim9_escape_safe.
    - apply imei_safe.
    - apply pin_check_safe.
    - apply network_registered_safe.
    - apply on_usart_safe.
    - apply on_usart_safe.
    - apply sim9_off_safe.
    - apply check_cgatt_safe.
    - apply gprs_connect_safe.
    - apply gprs_disconnect_safe.
    - apply apn_setup_safe.
    - apply gprs_wireless_connection_safe.
    - apply sim9_tcpip_on_safe. }
  destruct (Hsafe w Hw) as ([] & w' & Hr & Hw' & _). eauto.
Qed.

End Safety.

Lemma mock_rx_bounds (t : Mock.t) : 1 <= usart_rx_size t <= 254.
Proof. simpl. unfold Mock.RX_SIZE. lia. Qed.

(** On the scripted transport every stage returns, whatever the modem
    sends and whenever. *)
Lemma mock_run_operation_defined (o : operation) (st er : Z) (q : list (Z * list byte)) :
  operation_ok o ->
  exists w', run_operation o (Mock.world st er q) = Some (tt, w').
Proof.
  intros Hok.
  destruct (run_operation_defined mock_truncates mock_rx_bounds o (Mock.world st er q) Hok)
    as (w' & Hr & _); [reflexivity | eauto].
Qed.

(** ** Runs of the scenarios the specification lists *)

(** [sim9_msg] with timeout 1 and the line OK framed in 4 bytes: the result
    is 4 and the array holds O, K and the terminator. *)
Example run_message_reader :
  match sim9_msg (repeat xaa 8) 8 1 (Mock.world 0 0 [(0, Mock.line "OK")]) with
  | Some (len, s, _) => len = 4 /\ firstn 3 s = lit "OK" ++ [NUL]
  | None => False
  end.
Proof. vm_compute. split; reflexivity. Qed.

(** [RELAX] finds RDY inside "MODEM RDY NOW"; [EQUAL] and [STRICT] accept a
    message that begins with OK and refuse "xOK". *)
Example run_match_modes :
  Mock.outcome (sim9_searchfor (lit "RDY") 0 None 0 RELAX
                  (Mock.world 0 0 [(0, Mock.line "MODEM RDY NOW")]))
    = Some (TRUE, None, 10, 0%nat) /\
  Mock.outcome (sim9_searchfor (lit "OK") 0 None 0 EQUAL
                  (Mock.world 0 0 [(0, Mock.line "OKAY")]))
    = Some (TRUE, None, 10, 0%nat) /\
  Mock.outcome (sim9_searchfor (lit "OK") 0 None 0 STRICT
                  (Mock.world 0 0 [(0, Mock.line "OKAY")]))
    = Some (TRUE, None, 10, 0%nat) /\
  Mock.outcome (sim9_searchfor (lit "OK") 0 None 0 EQUAL
                  (Mock.world 0 0 [(0, Mock.line "xOK")]))
    = Some (FALSE, None, 10, 0%nat) /\
  Mock.outcome (sim9_searchfor (lit "OK") 0 None 0 STRICT
                  (Mock.world 0 0 [(0, Mock.line "xOK")]))
    = Some (FALSE, None, 10, 0%nat).
Proof.
  split; [vm_compute; reflexivity|].
  split; [vm_compute; reflexivity|].
  split; [vm_compute; reflexivity|].
  split; vm_compute; reflexivity.
Qed.

(** [sim9_send_at] with shape OK and echo disabled, the modem answering
    OK: the result is TRUE. *)
Example run_command_session :
  Mock.outcome (sim9_send_at (lit "AT+CIPMODE=1") [] 0 SENDAT_TYPE_OK
                  (Mock.world 0 0 [(40, [CR; LF]); (50, Mock.line "OK")]))
    = Some (TRUE, [], 120, 0%nat).
Proof. vm_compute. reflexivity. Qed.

(** [sim9_escape] with the link connected and the first probe answered:
    [status.connected] and [errors.esc] are clear, one escape token and one
    probe have been sent. *)
Example run_escape :
  match sim9_escape (Mock.world 8192 0 [(2550, Mock.line "OK")]) with
  | Some (_, w') =>
      bit (status (sim9 w')) ST_CONNECTED = false /\
      bit (errors (sim9 w')) ER_ESC = false /\
      Mock.sent (usart w') = [lit "+++"; lit "AT"; [CR]]
  | None => False
  end.
Proof. vm_compute. repeat split. Qed.

(** [apn_setup] classifies the operator: TIM is provider 3, Vodafone 2,
    any other 1, and [errors.apn] stays clear; with no answer the provider
    is 0 and [errors.apn] is set. *)
Example run_apn_setup :
  let result q :=
    match apn_setup (Mock.world 0 0 q) with
    | Some (_, w') => Some (field (status (sim9 w')) ST_PROVIDER 2, bit (errors (sim9 w')) ER_APN)
    | None => None
    end in
  result [(50, Mock.cops "I TIM"); (55, Mock.line "OK")] = Some (3, false) /\
  result [(50, Mock.cops "vodafone IT"); (55, Mock.line "OK")] = Some (2, false) /\
  result [(50, Mock.cops "I WIND"); (55, Mock.line "OK")] = Some (1, false) /\
  result [] = Some (0, true).
Proof.
  intros result. subst result.
  split; [vm_compute; reflexivity|].
  split; [vm_compute; reflexivity|].
  split; vm_compute; reflexivity.
Qed.

(** * Further properties of the driver *)

(** ** What the tests of the pattern matcher mean *)

Section StringFacts.

Lemma prefixb_spec (p s : list byte) :
  prefixb p s = true <-> exists r, s = p ++ r.
Proof.
  revert s. induction p as [|a p IH]; intros s; simpl.
  - split; [intros _; exists s; reflexivity | reflexivity].
  - destruct s as [|b s].
    + split; [discriminate | intros (r & [=])].
    + rewrite andb_true_iff, IH. split.
      * intros [Hab (r & ->)]. apply byte_dec_bl in Hab. subst b. exists r. reflexivity.
      * intros (r & [= -> ->]). split; [apply byte_dec_lb; reflexivity | eauto].
Qed.

Lemma infixb_spec (p s : list byte) :
  infixb p s = true <-> exists a r, s = a ++ p ++ r.
Proof.
  induction s as [|b s IH]; simpl.
  - rewrite orb_false_r, prefixb_spec. split.
    + intros (r & ->). exists [], r. reflexivity.
    + intros (a & r & H). destruct a as [|x a]; [|discriminate H].
      exists r. exact H.
  - rewrite orb_true_iff, prefixb_spec, IH. split.
    + intros [(r & ->) | (a & r & ->)].
      * exists [], r. reflexivity.
      * exists (b :: a), r. reflexivity.
    + intros ([|x a] & r & H).
      * left. exists r. exact H.
      * right. injection H as -> ->. eauto.
Qed.

Lemma cstr_no_nul (b : buf) : ~ In NUL (cstr b).
Proof.
  induction b as [|c b IH]; simpl; [tauto|].
  destruct (Byte.eqb c NUL) eqn:E; simpl; [tauto|].
  intros [H | H]; [|tauto].
  subst c. discriminate E.
Qed.

Lemma cstr_app_nul (p r : list byte) :
  ~ In NUL p -> cstr (p ++ NUL :: r) = p.
Proof.
  induction p as [|c p IH]; simpl; intros H; [reflexivity|].
  destruct (Byte.eqb c NUL) eqn:E.
  - apply byte_dec_bl in E. subst c. tauto.
  - f_equal. apply IH. tauto.
Qed.

Lemma cstr_id (p : list byte) : ~ In NUL p -> cstr p = p.
Proof.
  induction p as [|c p IH]; simpl; intros H; [reflexivity|].
  destruct (Byte.eqb c NUL) eqn:E.
  - apply byte_dec_bl in E. subst c. tauto.
  - f_equal. apply IH. tauto.
Qed.

Lemma cstr_idem (b : buf) : cstr (cstr b) = cstr b.
Proof. apply cstr_id, cstr_no_nul. Qed.

(** A pattern that holds no terminator is a prefix of an array exactly
    when it is a prefix of the string in the array. *)
Lemma prefixb_cstr (p b : list byte) :
  ~ In NUL p -> prefixb p (cstr b) = prefixb p b.
Proof.
  revert b. induction p as [|a p IH]; intros b H; [reflexivity|].
  destruct b as [|c b]; [reflexivity|]. simpl.
  destruct (Byte.eqb c NUL) eqn:E; simpl.
  - apply byte_dec_bl in E. subst c.
    destruct (Byte.eqb a NUL) eqn:E'; [|reflexivity].
    apply byte_dec_bl in E'. subst a. simpl in H. tauto.
  - f_equal. apply IH. simpl in H. tauto.
Qed.

(** [strncmp (s, b, strlen (s)) == 0]: the string [s] is a prefix of the
    array [b]. *)
Lemma strncmp_eq_prefix (s b : buf) :
  strncmp_eq s b (length (cstr s)) = prefixb (cstr s) b.
Proof.
  revert b. induction s as [|c s IH]; intros b; [reflexivity|].
  simpl. destruct (Byte.eqb c NUL) eqn:E; [reflexivity|].
  simpl. destruct b as [|d b]; simpl.
  - rewrite E. reflexivity.
  - destruct (Byte.eqb c d); [|reflexivity]. simpl. rewrite E. apply IH.
Qed.

Lemma strncmp_eq_strlen (s b : buf) :
  strncmp_eq s b (Z.to_nat (strlen s)) = prefixb (cstr s) (cstr b).
Proof.
  unfold strlen. rewrite Nat2Z.id, strncmp_eq_prefix.
  symmetry. apply prefixb_cstr, cstr_no_nul.
Qed.

End StringFacts.

(** X1.  The test the matcher makes on a retrieved message.  In the modes
    [RELAX] and [ERELAX] the pattern occurs somewhere in the message; in
    every other mode (EQUAL, STRICT, EEQUAL, ESTRICT and any value that is
    not a mode) the message begins with the pattern, and may go on after
    it.  The strings compared are those before the first terminator. *)
Theorem search_test_meaning (type : Z) (ce : bool) (s buffer : buf) :
  snd (search_switch type ce s buffer) = true <->
  if (type =? RELAX) || (type =? ERELAX)
  then exists pre post, cstr buffer = pre ++ cstr s ++ post
  else exists post, cstr buffer = cstr s ++ post.
Proof.
  unfold search_switch.
  destruct (Z.eqb_spec type ERELAX) as [->|H1].
  - simpl. unfold strstr_found. apply infixb_spec.
  - destruct (Z.eqb_spec type RELAX) as [->|H2].
    + simpl. unfold strstr_found. apply infixb_spec.
    + simpl. destruct (type =? EEQUAL); simpl;
        rewrite strncmp_eq_strlen; apply prefixb_spec.
Qed.

(** ** Arrays keep their size *)

Section Lengths.

Context {T : Type} {U : Usart T}.

Lemma getmsg_length (s : buf) (size : Z) (w : World T) len s' w' :
  getmsg s size w = Some (len, s', w') -> length s' = length s.
Proof.
  intros H. unfold getmsg in H.
  apply bind_run in H. destruct H as (data & w1 & _ & H).
  apply bind_run in H. destruct H as (s1 & w2 & Hb & H).
  apply lift_opt_run in Hb. destruct Hb as (s2 & Hb & [= <- <-]).
  apply ret_run in H. injection H as _ <- _.
  eapply blit_length. eassumption.
Qed.

Lemma sim9_msg_loop_length (loop : nat) (s : buf) (size : Z) (w : World T) len s' w' :
  sim9_msg_loop loop s size w = Some (len, s', w') -> length s' = length s.
Proof.
  revert s w. induction loop as [|n IH]; intros s w H;
    rewrite sim9_msg_loop_eq in H;
    apply bind_run in H; destruct H as ([] & w1 & _ & H);
    apply bind_run in H; destruct H as (eol & w2 & _ & H);
    apply bind_run in H; destruct H as ([len1 s1] & w3 & Hg & H);
    assert (Hl1 : length s1 = length s)
      by (destruct (eol =? 0);
          [ apply ret_run in Hg; injection Hg as _ <- _; reflexivity
          | apply bind_run in Hg; destruct Hg as ([len0 s0] & w4 & Hg & Hr);
            apply ret_run in Hr; injection Hr as _ <- _;
            eapply getmsg_length; eassumption ]);
    destruct (len1 =? 0).
  - apply ret_run in H. injection H as _ <- _. exact Hl1.
  - apply ret_run in H. injection H as _ <- _. exact Hl1.
  - apply IH in H. congruence.
  - apply ret_run in H. injection H as _ <- _. exact Hl1.
Qed.

Lemma sim9_msg_length (s : buf) (size timeout : Z) (w : World T) len s' w' :
  sim9_msg s size timeout w = Some (len, s', w') -> length s' = length s.
Proof.
  intros H. unfold sim9_msg in H.
  apply bind_run in H. destruct H as ([len1 s1] & w1 & Hl & H).
  apply sim9_msg_loop_length in Hl.
  destruct (len1 =? 0).
  - apply ret_run in H. injection H as _ <- _. exact Hl.
  - apply bind_run in H. destruct H as (s2 & w2 & Hs & H).
    apply lift_opt_run in Hs. destruct Hs as (s3 & Hs & [= <- <-]).
    apply ret_run in H. injection H as _ <- _.
    apply store_length in Hs. congruence.
Qed.

(** A message of length [len >= 3] ends the string in the array at
    [len - 2] at the latest. *)
Lemma sim9_msg_terminated (s : buf) (size timeout : Z) (w : World T) len s' w' :
  sim9_msg s size timeout w = Some (len, s', w') ->
  len <> 0 -> load s' (len - 2) = Some NUL.
Proof.
  intros H Hlen. unfold sim9_msg in H.
  apply bind_run in H. destruct H as ([len1 s1] & w1 & Hl & H).
  destruct (Z.eqb_spec len1 0) as [E|E].
  - apply ret_run in H. injection H as <- _ _. contradiction.
  - apply bind_run in H. destruct H as (s2 & w2 & Hs & H).
    apply lift_opt_run in Hs. destruct Hs as (s3 & Hs & [= <- <-]).
    apply ret_run in H. injection H as <- <- _.
    eapply store_load. eassumption.
Qed.

Lemma sim9_searchfor_loop_length (count : nat) (s : buf) (type : Z) (ce : bool)
    (buffer : buf) (size : Z) (w : World T) ok b k w' :
  sim9_searchfor_loop count s type ce buffer size w = Some (ok, b, k, w') ->
  length b = length buffer.
Proof.
  revert ce buffer w ok b k w'.
  induction count as [|n IH]; intros ce buffer w ok b k w' H;
    rewrite sim9_searchfor_loop_eq in H;
    apply bind_run in H; destruct H as ([len b1] & w1 & Hm & H);
    apply sim9_msg_length in Hm;
    destruct (if len =? 0 then _ else _) as [[ce1 ok1] stop];
    destruct ok1; try (apply ret_run in H; injection H as _ <- _ _; exact Hm);
    destruct stop; try (apply ret_run in H; injection H as _ <- _ _; exact Hm).
  apply bind_run in H. destruct H as ([[ok2 b2] k2] & w2 & H2 & H).
  apply ret_run in H. injection H as _ <- _ _.
  apply IH in H2. congruence.
Qed.

(** A search that succeeds leaves in its buffer a message that passes the
    test. *)
Lemma sim9_searchfor_loop_found (count : nat) (s : buf) (type : Z) (ce : bool)
    (buffer : buf) (size : Z) (w : World T) b k w' :
  sim9_searchfor_loop count s type ce buffer size w = Some (true, b, k, w') ->
  snd (search_switch type false s b) = true.
Proof.
  revert ce buffer w b k w'.
  induction count as [|n IH]; intros ce buffer w b k w' H;
    rewrite sim9_searchfor_loop_eq in H;
    apply bind_run in H; destruct H as ([len b1] & w1 & Hm & H);
    destruct (len =? 0).
  - apply ret_run in H. discriminate H.
  - pose proof (search_switch_ok type ce false s b1) as Hce.
    destruct (search_switch type ce s b1) as [ce1 ok]. simpl in Hce.
    destruct ok; simpl in H.
    + apply ret_run in H. injection H as <- _ _. symmetry. exact Hce.
    + destruct (ce1 && strcmp_eq b1 (lit "ERROR")); apply ret_run in H; discriminate H.
  - apply bind_run in H. destruct H as ([[ok2 b2] k2] & w2 & H2 & H).
    apply ret_run in H. injection H as <- <- _ _.
    eapply IH. eassumption.
  - pose proof (search_switch_ok type ce false s b1) as Hce.
    destruct (search_switch type ce s b1) as [ce1 ok]. simpl in Hce.
    destruct ok; simpl in H.
    + apply ret_run in H. injection H as <- _ _. symmetry. exact Hce.
    + destruct (ce1 && strcmp_eq b1 (lit "ERROR")).
      * apply ret_run in H. discriminate H.
      * apply bind_run in H. destruct H as ([[ok2 b2] k2] & w2 & H2 & H).
        apply ret_run in H. injection H as <- <- _ _.
        eapply IH. eassumption.
Qed.

(** X2.  What a search hands back in the caller's array: the array keeps its
    size and the session is as it was; when the result is TRUE the array
    holds a message that passes the test of the mode, and the result is
    TRUE or FALSE. *)
Theorem sim9_searchfor_extbuff (s : buf) (count : Z) (b0 : buf) (extsize type : Z)
    (w : World T) r ext w' :
  sim9_searchfor s count (Some b0) extsize type w = Some (r, ext, w') ->
  exists b,
    ext = Some b /\ length b = length b0 /\
    sim9 w' = sim9 w /\
    (r = TRUE \/ r = FALSE) /\
    (r = TRUE -> snd (search_switch (uint8 type) false s b) = true).
Proof.
  intros H. pose proof (sim9_searchfor_same _ _ _ _ _ _ _ _ H) as [Hs _].
  unfold sim9_searchfor in H.
  apply bind_run in H. destruct H as ([size buffer] & w1 & H1 & H).
  apply ret_run in H1. injection H1 as -> -> ->.
  apply bind_run in H. destruct H as (buffer0 & w2 & Hst & H).
  apply lift_opt_run in Hst. destruct Hst as (b1 & Hst & [= <- <-]).
  apply bind_run in H. destruct H as ([[ok b] k] & w3 & Hl & H).
  apply ret_run in H. injection H as -> -> ->.
  exists b. split; [reflexivity|]. split.
  - apply sim9_searchfor_loop_length in Hl. apply store_length in Hst. congruence.
  - split; [exact Hs|]. split; [destruct ok; auto|].
    destruct ok; [|discriminate]. intros _.
    eapply sim9_searchfor_loop_found. eassumption.
Qed.

End Lengths.

(** An instance: +COPS: is looked for in an array of 30 bytes. *)
Lemma sim9_searchfor_extbuff_witness :
  let b0 := repeat xaa 30 in
  let w := Mock.world 0 0 [(0, Mock.line "RING"); (0, Mock.cops "I TIM")] in
  exists r ext w',
    sim9_searchfor (lit "+COPS:") 5 (Some b0) 30 RELAX w = Some (r, ext, w') /\
    exists b,
      ext = Some b /\ length b = length b0 /\
      sim9 w' = sim9 w /\
      (r = TRUE \/ r = FALSE) /\
      (r = TRUE -> snd (search_switch (uint8 RELAX) false (lit "+COPS:") b) = true).
Proof.
  intros b0 w. eexists. eexists. eexists.
  split; [vm_compute; reflexivity|].
  apply (sim9_searchfor_extbuff (lit "+COPS:") 5 b0 30 RELAX w).
  vm_compute. reflexivity.
Defined.

(** ** The RAM copy of a flash string *)

Section RamCopy.

Context {T : Type} {U : Usart T}.

Lemma store_nat_app (p : list byte) (x v : byte) (r : list byte) :
  store_nat (p ++ x :: r) (length p) v = Some (p ++ v :: r).
Proof.
  induction p as [|c p IH]; simpl; [reflexivity|]. rewrite IH. reflexivity.
Qed.

Lemma firstn_S_split (m : nat) (l : list byte) :
  (m < length l)%nat -> exists x, firstn (S m) l = firstn m l ++ [x].
Proof.
  revert l. induction m as [|m IH]; intros [|c l] H; simpl in H; try lia.
  - exists c. reflexivity.
  - destruct (IH l) as (x & Hx); [lia|]. exists x.
    change (firstn (S (S m)) (c :: l)) with (c :: firstn (S m) l).
    rewrite Hx. reflexivity.
Qed.

Lemma firstn_no_nul (n : nat) (l : list byte) : ~ In NUL l -> ~ In NUL (firstn n l).
Proof.
  revert l. induction n as [|n IH]; intros [|c l] H; simpl; try tauto.
  simpl in H. intros [E|E]; [tauto|]. apply (IH l); tauto.
Qed.

(** With a receive buffer of 1 to 254 bytes the copy is defined, changes
    nothing, and holds the string cut to the size of the receive buffer. *)
Lemma ram_copy_P_spec (s : list byte) (w : World T) :
  1 <= usart_rx_size (usart w) <= 254 ->
  exists b,
    ram_copy_P s w = Some (b, w) /\
    cstr b = firstn (Z.to_nat (usart_rx_size (usart w))) (cstr s).
Proof.
  intros Hn. unfold ram_copy_P.
  unfold bind at 1. unfold rx_size at 1.
  set (n := usart_rx_size (usart w)) in *.
  pose proof (Zle_0_nat (length (cstr s))) as Hlen.
  assert (Hsize : uint8 (Z.min (strlen s) n + 1) = Z.min (strlen s) n + 1).
  { apply uint8_small. unfold strlen. lia. }
  rewrite Hsize.
  set (m := Z.to_nat (Z.min (strlen s) n)).
  assert (Hm : Z.to_nat (Z.min (strlen s) n + 1) = S m) by (unfold m, strlen; lia).
  assert (Hmc : (m <= length (cstr s))%nat) by (unfold m, strlen; lia).
  unfold bind at 1. unfold malloc at 1. rewrite Hm.
  set (junk := map (heap_junk (usart w)) (seq 0 (S m))).
  assert (Hj : length junk = S m) by (unfold junk; rewrite length_map, length_seq; reflexivity).
  destruct (firstn_S_split m (cstr s ++ repeat NUL (S m))) as (x & Hx).
  { rewrite length_app, repeat_length. lia. }
  assert (Hcp : strncpy s (S m) = firstn m (cstr s) ++ [x]).
  { unfold strncpy. rewrite Hx. f_equal.
    rewrite firstn_app. replace (m - length (cstr s))%nat with O by lia.
    simpl. apply app_nil_r. }
  assert (Hlp : length (firstn m (cstr s)) = m) by (rewrite length_firstn; lia).
  unfold bind at 1. unfold lift_opt at 1. unfold blit.
  rewrite Hcp, length_app, Hlp, Hj. simpl length.
  replace (m + 1 <=? S m)%nat with true by (symmetry; apply Nat.leb_le; lia).
  rewrite skipn_all2 by lia. rewrite app_nil_r.
  replace (Z.min (strlen s) n + 1 - 1) with (Z.of_nat m) by (unfold m, strlen; lia).
  unfold lift_opt, store.
  destruct (Z.ltb_spec (Z.of_nat m) 0) as [Hneg|_]; [lia|].
  rewrite Nat2Z.id.
  pose proof (store_nat_app (firstn m (cstr s)) x NUL []) as Hst.
  rewrite Hlp in Hst. rewrite Hst.
  eexists. split; [reflexivity|].
  rewrite cstr_app_nul by (apply firstn_no_nul, cstr_no_nul).
  destruct (Z.le_ge_cases (strlen s) n) as [Hle|Hge].
  - rewrite !firstn_all2; [reflexivity | |]; unfold m, strlen in *; lia.
  - f_equal. unfold m. f_equal. lia.
Qed.

(** The tests of the matcher read the pattern up to its terminator. *)
Lemma search_switch_cstr (type : Z) (ce : bool) (s1 s2 buffer : buf) :
  cstr s1 = cstr s2 ->
  search_switch type ce s1 buffer = search_switch type ce s2 buffer.
Proof.
  intros E. unfold search_switch, strstr_found.
  rewrite !strncmp_eq_strlen, E. reflexivity.
Qed.

Lemma bind_ext_l {A B} (m1 m2 : M T A) (k : A -> M T B) (w : World T) :
  m1 w = m2 w -> bind m1 k w = bind m2 k w.
Proof. intros H. unfold bind. rewrite H. reflexivity. Qed.

Lemma bind_ext {A B} (m : M T A) (k1 k2 : A -> M T B) (w : World T) :
  (forall a w', k1 a w' = k2 a w') -> bind m k1 w = bind m k2 w.
Proof. intros H. unfold bind. destruct (m w) as [[a w']|]; [apply H | reflexivity]. Qed.

Lemma sim9_searchfor_loop_cstr (count : nat) (s1 s2 : buf) (type : Z) (ce : bool)
    (buffer : buf) (size : Z) (w : World T) :
  cstr s1 = cstr s2 ->
  sim9_searchfor_loop count s1 type ce buffer size w =
  sim9_searchfor_loop count s2 type ce buffer size w.
Proof.
  intros E. revert ce buffer w.
  induction count as [|n IH]; intros ce buffer w;
    rewrite !sim9_searchfor_loop_eq; apply bind_ext; intros [len b1] w1;
    rewrite (search_switch_cstr type ce s1 s2 b1 E);
    destruct (if len =? 0 then _ else _) as [[ce1 ok] stop];
    destruct ok; try reflexivity; destruct stop; try reflexivity.
  apply bind_ext_l. apply IH.
Qed.

Lemma sim9_searchfor_cstr (s1 s2 : buf) (count : Z) (extbuff : option buf)
    (extsize type : Z) (w : World T) :
  cstr s1 = cstr s2 ->
  sim9_searchfor s1 count extbuff extsize type w =
  sim9_searchfor s2 count extbuff extsize type w.
Proof.
  intros E. unfold sim9_searchfor.
  apply bind_ext. intros [size buffer] w1.
  apply bind_ext. intros b0 w2.
  apply bind_ext_l. apply sim9_searchfor_loop_cstr. exact E.
Qed.

(** X3.  [sim9_searchfor_P] with a receive buffer of 1 to 254 bytes: the search
    is the search of [sim9_searchfor] for the pattern cut to the size of
    the receive buffer; a pattern that is not longer than the receive
    buffer is searched for as it is. *)
Theorem sim9_searchfor_P_cuts_pattern (s : list byte) (count : Z) (extbuff : option buf)
    (extsize type : Z) (w : World T) :
  1 <= usart_rx_size (usart w) <= 254 ->
  sim9_searchfor_P s count extbuff extsize type w =
    sim9_searchfor (firstn (Z.to_nat (usart_rx_size (usart w))) (cstr s))
      count extbuff extsize type w /\
  (strlen s <= usart_rx_size (usart w) ->
   sim9_searchfor_P s count extbuff extsize type w =
     sim9_searchfor s count extbuff extsize type w).
Proof.
  intros Hn.
  destruct (ram_copy_P_spec s w Hn) as (b & Hb & Hc).
  assert (Hcut : sim9_searchfor_P s count extbuff extsize type w =
                 sim9_searchfor (firstn (Z.to_nat (usart_rx_size (usart w))) (cstr s))
                   count extbuff extsize type w).
  { unfold sim9_searchfor_P, bind. rewrite Hb.
    apply sim9_searchfor_cstr. rewrite Hc.
    symmetry. apply cstr_id, firstn_no_nul, cstr_no_nul. }
  split; [exact Hcut|].
  intros Hle. rewrite Hcut. apply sim9_searchfor_cstr.
  rewrite firstn_all2 by (unfold strlen in Hle; lia).
  apply cstr_idem.
Qed.

(** X4.  With a receive buffer of 255 bytes and a pattern of 255 characters or
    more the size of the copy, [strnlen_P (s, 255) + 1], wraps to 0 in its
    [uint8_t]: the terminator is stored at [buffer[-1]], outside the
    block. *)
Theorem sim9_searchfor_P_size_wraps (s : list byte) (count : Z) (extbuff : option buf)
    (extsize type : Z) (w : World T) :
  usart_rx_size (usart w) = 255 ->
  255 <= strlen s ->
  sim9_searchfor_P s count extbuff extsize type w = None.
Proof.
  intros Hn Hs. unfold sim9_searchfor_P, ram_copy_P.
  unfold bind at 1. unfold bind at 1. unfold rx_size at 1. rewrite Hn.
  replace (Z.min (strlen s) 255) with 255 by lia.
  change (uint8 (255 + 1)) with 0.
  reflexivity.
Qed.

End RamCopy.

(** An instance: a pattern of 70 characters against the receive buffer of
    64 bytes. *)
Lemma sim9_searchfor_P_cuts_pattern_witness :
  let s := repeat x41 70 in
  let w := Mock.world 0 0 [(0, repeat x41 64 ++ [CR; LF])] in
  1 <= usart_rx_size (usart w) <= 254 /\
  sim9_searchfor_P s 0 None 0 EQUAL w =
    sim9_searchfor (firstn (Z.to_nat (usart_rx_size (usart w))) (cstr s)) 0 None 0 EQUAL w /\
  (strlen s <= usart_rx_size (usart w) ->
   sim9_searchfor_P s 0 None 0 EQUAL w = sim9_searchfor s 0 None 0 EQUAL w).
Proof.
  intros s w. split; [vm_compute; split; discriminate|].
  apply (sim9_searchfor_P_cuts_pattern s 0 None 0 EQUAL w).
  vm_compute. split; discriminate.
Defined.

(** An instance: a receive buffer of 255 bytes and a pattern of 255
    characters. *)
Lemma sim9_searchfor_P_size_wraps_witness :
  let U := Rig.transport 255 (fun _ => xaa) in
  let s := repeat x41 255 in
  let w := Mock.world 0 0 [] in
  usart_rx_size (Usart := U) (usart w) = 255 /\
  255 <= strlen s /\
  sim9_searchfor_P (U := U) s 0 None 0 EQUAL w = None.
Proof.
  intros U s w. split; [reflexivity|]. split; [vm_compute; discriminate|].
  apply (sim9_searchfor_P_size_wraps (U := U) s 0 None 0 EQUAL w);
    [reflexivity | vm_compute; discriminate].
Defined.

(** ** Waiting for a character *)

Section WaitChar.

Context {T : Type} {U : Usart T}.

Lemma sim9_wait4char_loop_spec (n : nat) (s : byte) (w : World T) r w' :
  sim9_wait4char_loop n s w = Some (r, w') ->
  exists k t,
    wait_misses k s (usart w) t /\
    ((r = FALSE /\ k = n /\ usart w' = t) \/
     (r = TRUE /\ (k < n)%nat /\ exists l, usart_get t = (s :: l, usart w'))).
Proof.
  revert w r w'. induction n as [|n IH]; intros w r w' H; simpl in H.
  - apply ret_run in H. injection H as -> ->.
    exists O, (usart w). split; [reflexivity|]. left. auto.
  - apply bind_run in H. destruct H as (c & w1 & Hc & H).
    unfold ask_usart in Hc.
    destruct (usart_get (usart w)) as [c' t1] eqn:Eg.
    injection Hc as -> <-.
    assert (Hmiss : forall r0 w0,
               (_delay_ms 1000 ;; sim9_wait4char_loop n s)%sim9
                 (mk_world (sim9 w) t1 (io w)) = Some (r0, w0) ->
               exists k t,
                 (wait_misses k s (delay_ms 1000 t1) t) /\
                 ((r0 = FALSE /\ k = n /\ usart w0 = t) \/
                  (r0 = TRUE /\ (k < n)%nat /\ exists l, usart_get t = (s :: l, usart w0)))).
    { intros r0 w0 Hr. apply bind_run in Hr. destruct Hr as ([] & w2 & Hd & Hr).
      injection Hd as <-. apply IH in Hr. exact Hr. }
    destruct c as [|c0 l].
    + apply Hmiss in H. destruct H as (k & t & Hk & Hres).
      exists (S k), t. split.
      * simpl. rewrite Eg. simpl. auto.
      * destruct Hres as [(-> & -> & Ht) | (-> & Hlt & Hhit)]; [left | right]; auto.
        split; [reflexivity|]. split; [lia | assumption].
    + destruct (Byte.eqb c0 s) eqn:Ec.
      * apply byte_dec_bl in Ec. subst c0.
        apply ret_run in H. injection H as -> ->.
        exists O, (usart w). split; [reflexivity|]. right.
        split; [reflexivity|]. split; [lia|]. exists l. exact Eg.
      * apply Hmiss in H. destruct H as (k & t & Hk & Hres).
        exists (S k), t. split.
        -- simpl. rewrite Eg. simpl. split; [|assumption].
           intros ->. rewrite (byte_dec_lb eq_refl) in Ec. discriminate.
        -- destruct Hres as [(-> & -> & Ht) | (-> & Hlt & Hhit)]; [left | right]; auto.
           split; [reflexivity|]. split; [lia | assumption].
Qed.

(** X5.  [sim9_wait4char] reads one byte at a time and waits one second after
    every read that does not get the byte looked for.  It returns TRUE
    on the first read that gets it, with no delay after that read and
    after fewer than [timeout] misses; it returns FALSE after exactly
    [timeout] misses, and so at once, with no read at all, when
    [timeout] is 0.  The session is as it was. *)
Theorem sim9_wait4char_reads (s : byte) (timeout : Z) (w : World T) r w' :
  sim9_wait4char s timeout w = Some (r, w') ->
  sim9 w' = sim9 w /\
  exists k t,
    wait_misses k s (usart w) t /\
    ((r = FALSE /\ k = Z.to_nat (uint8 timeout) /\ usart w' = t) \/
     (r = TRUE /\ (k < Z.to_nat (uint8 timeout))%nat /\
      exists l, usart_get t = (s :: l, usart w'))).
Proof.
  intros H. split.
  - exact (proj1 (sim9_wait4char_same _ _ _ _ _ H)).
  - apply sim9_wait4char_loop_spec. exact H.
Qed.

End WaitChar.

(** An instance: the prompt character is the third byte of a line that is
    complete after 1500 ms. *)
Lemma sim9_wait4char_reads_witness :
  let w := Mock.world 0 0 [(1500, lit "ab> ")] in
  exists r w',
    sim9_wait4char x3e 10 w = Some (r, w') /\
    sim9 w' = sim9 w /\
    exists k t,
      wait_misses k x3e (usart w) t /\
      ((r = FALSE /\ k = Z.to_nat (uint8 10) /\ usart w' = t) \/
       (r = TRUE /\ (k < Z.to_nat (uint8 10))%nat /\
        exists l, usart_get t = (x3e :: l, usart w'))).
Proof.
  intros w. eexists. eexists. split; [vm_compute; reflexivity|].
  apply (sim9_wait4char_reads x3e 10 w). vm_compute. reflexivity.
Defined.

(** ** The shapes of a command's answer *)

Section AnswerShapes.

Context {T : Type} {U : Usart T}.

Lemma getmsg_len (s : buf) (size : Z) (w : World T) len s' w' :
  getmsg s size w = Some (len, s', w') -> 0 <= len < 256.
Proof.
  intros H. unfold getmsg in H.
  apply bind_run in H. destruct H as (data & w1 & _ & H).
  apply bind_run in H. destruct H as (s1 & w2 & _ & H).
  apply ret_run in H. injection H as -> _ _. apply uint8_range.
Qed.

Lemma sim9_msg_loop_len (loop : nat) (s : buf) (size : Z) (w : World T) len s' w' :
  sim9_msg_loop loop s size w = Some (len, s', w') -> len = 0 \/ 3 <= len < 256.
Proof.
  revert s w. induction loop as [|n IH]; intros s w H;
    rewrite sim9_msg_loop_eq in H;
    apply bind_run in H; destruct H as ([] & w1 & _ & H);
    apply bind_run in H; destruct H as (eol & w2 & _ & H);
    apply bind_run in H; destruct H as ([len1 s1] & w3 & Hg & H);
    assert (Hl1 : len1 = 0 \/ 3 <= len1 < 256)
      by (destruct (eol =? 0);
          [ apply ret_run in Hg; injection Hg as -> _ _; auto
          | apply bind_run in Hg; destruct Hg as ([len0 s0] & w4 & Hg & Hr);
            apply getmsg_len in Hg;
            apply ret_run in Hr; injection Hr as -> _ _;
            destruct (Z.ltb_spec len0 3); [auto | right; lia] ]);
    destruct (len1 =? 0).
  - apply ret_run in H. injection H as -> _ _. auto.
  - apply ret_run in H. injection H as -> _ _. exact Hl1.
  - eapply IH. eassumption.
  - apply ret_run in H. injection H as -> _ _. exact Hl1.
Qed.

(** The result of [sim9_msg] is 0 or the length, 3 at least, of a message
    stored with its terminator at [len - 2]. *)
Lemma sim9_msg_result (s : buf) (size timeout : Z) (w : World T) len s' w' :
  sim9_msg s size timeout w = Some (len, s', w') ->
  len = 0 \/ (3 <= len < 256 /\ load s' (len - 2) = Some NUL).
Proof.
  intros H. pose proof H as H0. unfold sim9_msg in H.
  apply bind_run in H. destruct H as ([len1 s1] & w1 & Hl & H).
  apply sim9_msg_loop_len in Hl.
  destruct (Z.eqb_spec len1 0) as [E|E].
  - apply ret_run in H. injection H as -> _ _. auto.
  - apply bind_run in H. destruct H as (s2 & w2 & _ & H).
    apply ret_run in H. injection H as -> _ _.
    right. split; [lia|]. eapply sim9_msg_terminated; eassumption.
Qed.

Lemma b2z_bool (b : bool) : b2z b = TRUE \/ b2z b = FALSE.
Proof. destruct b; auto. Qed.

Lemma sim9_searchfor_bool (s : buf) (count : Z) (extbuff : option buf) (extsize type : Z)
    (w : World T) r ext w' :
  sim9_searchfor s count extbuff extsize type w = Some (r, ext, w') ->
  r = TRUE \/ r = FALSE.
Proof.
  intros H. unfold sim9_searchfor in H.
  apply bind_run in H. destruct H as ([size buffer] & w1 & _ & H).
  apply bind_run in H. destruct H as (buffer0 & w2 & _ & H).
  apply bind_run in H. destruct H as ([[ok b] k] & w3 & _ & H).
  apply ret_run in H. injection H as -> _ _. apply b2z_bool.
Qed.

Lemma sim9_send_at_echo_bool (cmd : buf) (w : World T) e w' :
  sim9_send_at_echo cmd w = Some (e, w') -> e = TRUE \/ e = FALSE.
Proof.
  intros H. unfold sim9_send_at_echo in H.
  apply bind_run in H. destruct H as ([] & w1 & _ & H).
  apply bind_run in H. destruct H as ([] & w2 & _ & H).
  apply bind_run in H. destruct H as (echo & w3 & _ & H).
  destruct echo.
  - apply bind_run in H. destruct H as ([] & w4 & _ & H).
    apply bind_run in H. destruct H as ([] & w5 & _ & H).
    apply bind_run in H. destruct H as (eol & w6 & _ & H).
    apply bind_run in H. destruct H as ([r b] & w7 & Hs & H).
    apply ret_run in H. injection H as -> _.
    eapply sim9_searchfor_bool. eassumption.
  - apply ret_run in H. injection H as -> _. auto.
Qed.

(** [ok && sim9_msg (...)]: TRUE exactly when [ok] was not 0 and a message
    was stored, with its terminator; [msg] is untouched when [ok] was 0. *)
Lemma and_sim9_msg_spec (ok : Z) (msg : buf) (size : Z) (w : World T) r msg' w' :
  and_sim9_msg ok msg size w = Some (r, msg', w') ->
  (r = TRUE \/ r = FALSE) /\
  (r = TRUE -> ok <> 0 /\ exists len, 3 <= len < 256 /\ load msg' (len - 2) = Some NUL) /\
  (ok = 0 -> msg' = msg /\ w' = w).
Proof.
  intros H. unfold and_sim9_msg, z2b in H.
  destruct (Z.eqb_spec ok 0) as [E|E]; cbn [negb] in H.
  - apply ret_run in H. injection H as -> -> ->.
    split; [auto|]. split; [discriminate | auto].
  - apply bind_run in H. destruct H as (eol & w1 & _ & H).
    apply bind_run in H. destruct H as ([len msg1] & w2 & Hm & H).
    apply ret_run in H. injection H as -> -> _.
    apply sim9_msg_result in Hm.
    split; [apply b2z_bool|]. split; [|contradiction].
    intros Hr. split; [assumption|].
    destruct Hm as [-> | [Hlen Hnul]]; [discriminate Hr|].
    exists len. auto.
Qed.

Lemma and_search_OK_spec (ok : Z) (w : World T) r w' :
  and_search_OK ok w = Some (r, w') ->
  (r = TRUE \/ r = FALSE) /\ (r = TRUE -> ok <> 0).
Proof.
  intros H. unfold and_search_OK, z2b in H.
  destruct (Z.eqb_spec ok 0) as [E|E]; cbn [negb] in H.
  - apply ret_run in H. injection H as -> _.
    split; [auto | discriminate].
  - apply bind_run in H. destruct H as (eol & w1 & _ & H).
    apply bind_run in H. destruct H as ([r0 b] & w2 & _ & H).
    apply ret_run in H. injection H as -> _.
    split; [apply b2z_bool | auto].
Qed.

(** X6.  What [sim9_send_at] returns, for every value of [type].  The result is
    TRUE or FALSE; the array [msg] keeps its size and the session is as it
    was; a shape other than MSGOK and MSG (OK, NONE and any value that is
    not a shape) leaves [msg] untouched; with the shapes MSGOK and MSG a
    result of TRUE means that [msg] holds a message of 3 bytes at least
    with its terminator in place of the CR. *)
Theorem sim9_send_at_result (cmd msg : buf) (size type : Z) (w : World T) r msg' w' :
  sim9_send_at cmd msg size type w = Some (r, msg', w') ->
  (r = TRUE \/ r = FALSE) /\
  length msg' = length msg /\
  sim9 w' = sim9 w /\
  (uint8 type <> SENDAT_TYPE_MSGOK -> uint8 type <> SENDAT_TYPE_MSG -> msg' = msg) /\
  (r = TRUE -> uint8 type = SENDAT_TYPE_MSGOK \/ uint8 type = SENDAT_TYPE_MSG ->
   exists len, 3 <= len < 256 /\ load msg' (len - 2) = Some NUL).
Proof.
  intros H. pose proof (sim9_send_at_same _ _ _ _ _ _ _ H) as [Hs _].
  unfold sim9_send_at in H.
  apply bind_run in H. destruct H as (e & w1 & He & H).
  apply sim9_send_at_echo_bool in He.
  apply bind_run in H. destruct H as ([] & w2 & _ & H).
  destruct (Z.eqb_spec (uint8 type) SENDAT_TYPE_MSGOK) as [E1|E1].
  { apply bind_run in H. destruct H as ([ok1 msg1] & w3 & Hm & H).
    apply bind_run in H. destruct H as (ok2 & w4 & Hk & H).
    apply ret_run in H. injection H as -> -> _.
    pose proof Hm as Hlen.
    unfold and_sim9_msg in Hlen.
    assert (Hl : length msg1 = length msg).
    { destruct (z2b e).
      - apply bind_run in Hlen. destruct Hlen as (eol & wa & _ & Hlen).
        apply bind_run in Hlen. destruct Hlen as ([len m1] & wb & Hmsg & Hlen).
        apply ret_run in Hlen. injection Hlen as _ -> _.
        eapply sim9_msg_length. eassumption.
      - apply ret_run in Hlen. injection Hlen as _ -> _. reflexivity. }
    apply and_sim9_msg_spec in Hm. destruct Hm as (Hb1 & Ht1 & _).
    apply and_search_OK_spec in Hk. destruct Hk as (Hb2 & Ht2).
    split; [assumption|]. split; [assumption|]. split; [assumption|].
    split; [contradiction|].
    intros Hr _. specialize (Ht2 Hr).
    destruct Hb1 as [-> | ->]; [|contradiction Ht2; reflexivity].
    apply Ht1. reflexivity. }
  destruct (Z.eqb_spec (uint8 type) SENDAT_TYPE_OK) as [E2|E2].
  { apply bind_run in H. destruct H as (ok1 & w3 & Hk & H).
    apply ret_run in H. injection H as -> -> _.
    apply and_search_OK_spec in Hk. destruct Hk as (Hb2 & _).
    split; [assumption|]. split; [reflexivity|]. split; [assumption|].
    split; [reflexivity|].
    intros _ [E|E]; [contradiction|]. rewrite E2 in E. discriminate E. }
  destruct (Z.eqb_spec (uint8 type) SENDAT_TYPE_MSG) as [E3|E3].
  { pose proof H as Hlen.
    unfold and_sim9_msg in Hlen.
    assert (Hl : length msg' = length msg).
    { destruct (z2b e).
      - apply bind_run in Hlen. destruct Hlen as (eol & wa & _ & Hlen).
        apply bind_run in Hlen. destruct Hlen as ([len m1] & wb & Hmsg & Hlen).
        apply ret_run in Hlen. injection Hlen as _ -> _.
        eapply sim9_msg_length. eassumption.
      - apply ret_run in Hlen. injection Hlen as _ -> _. reflexivity. }
    apply and_sim9_msg_spec in H. destruct H as (Hb1 & Ht1 & _).
    split; [assumption|]. split; [assumption|]. split; [assumption|].
    split; [contradiction|].
    intros Hr _. apply Ht1. exact Hr. }
  apply ret_run in H. injection H as -> -> _.
  split; [assumption|]. split; [reflexivity|]. split; [assumption|].
  split; [reflexivity|].
  intros _ [E|E]; contradiction.
Qed.

End AnswerShapes.

(** An instance: the query AT+CGATT? answered with its payload line and
    OK, echo disabled. *)
Lemma sim9_send_at_result_witness :
  let msg := repeat xaa 15 in
  let w := Mock.world 0 0 [(50, Mock.line "+CGATT: 1"); (55, Mock.line "OK")] in
  exists r msg' w',
    sim9_send_at (lit "AT+CGATT?") msg 15 SENDAT_TYPE_MSGOK w = Some (r, msg', w') /\
    (r = TRUE \/ r = FALSE) /\
    length msg' = length msg /\
    sim9 w' = sim9 w /\
    (uint8 SENDAT_TYPE_MSGOK <> SENDAT_TYPE_MSGOK ->
     uint8 SENDAT_TYPE_MSGOK <> SENDAT_TYPE_MSG -> msg' = msg) /\
    (r = TRUE ->
     uint8 SENDAT_TYPE_MSGOK = SENDAT_TYPE_MSGOK \/ uint8 SENDAT_TYPE_MSGOK = SENDAT_TYPE_MSG ->
     exists len, 3 <= len < 256 /\ load msg' (len - 2) = Some NUL).
Proof.
  intros msg w. eexists. eexists. eexists.
  split; [vm_compute; reflexivity|].
  apply (sim9_send_at_result (lit "AT+CGATT?") msg 15 SENDAT_TYPE_MSGOK w).
  vm_compute. reflexivity.
Defined.

(** ** Bit-fields *)

Section FieldFacts.

Lemma set_bit_set_bit (w i : Z) (a b : bool) :
  0 <= i -> set_bit (set_bit w i a) i b = set_bit w i b.
Proof.
  intros Hi. apply Z.bits_inj'. intros n Hn.
  change (bit (set_bit (set_bit w i a) i b) n = bit (set_bit w i b) n).
  rewrite !bit_set_bit by assumption.
  destruct (i =? n); reflexivity.
Qed.

(** A word whose bits are all clear but for bit [k]. *)
Lemma only_bit (e k : Z) :
  0 <= k -> (forall i, i <> k -> bit e i = false) -> e = set_bit 0 k (bit e k).
Proof.
  intros Hk H. apply Z.bits_inj'. intros n Hn.
  change (bit e n = bit (set_bit 0 k (bit e k)) n).
  rewrite bit_set_bit by assumption.
  destruct (Z.eqb_spec k n) as [->|E]; [reflexivity|].
  rewrite H by congruence. unfold bit. symmetry. apply Z.bits_0.
Qed.

Lemma bits_eq (a b : Z) : (forall i, bit a i = bit b i) -> a = b.
Proof. intros H. apply Z.bits_inj'. intros n _. apply H. Qed.

Lemma bit_set_field_other (w pos width v i : Z) :
  0 <= pos -> 0 <= width -> i < pos \/ pos + width <= i ->
  bit (set_field w pos width v) i = bit w i.
Proof.
  intros Hp Hw Hi. unfold bit, set_field.
  destruct (Z.ltb_spec i 0) as [Hneg|Hnn].
  - rewrite !Z.testbit_neg_r by assumption. reflexivity.
  - rewrite Z.lor_spec, Z.ldiff_spec, !Z.shiftl_spec by assumption.
    destruct Hi as [Hi|Hi].
    + rewrite !(Z.testbit_neg_r _ (i - pos)) by lia.
      destruct (Z.testbit w i); reflexivity.
    + rewrite Z.land_spec, Z.testbit_ones by assumption.
      replace (i - pos <? width) with false by (symmetry; apply Z.ltb_ge; lia).
      rewrite !andb_false_r. destruct (Z.testbit w i); reflexivity.
Qed.

Lemma field_set_field (w pos width v : Z) :
  0 <= pos -> 0 <= width ->
  field (set_field w pos width v) pos width = Z.land v (Z.ones width).
Proof.
  intros Hp Hw. unfold field, set_field. apply Z.bits_inj'. intros n Hn.
  rewrite !Z.land_spec, Z.shiftr_spec, Z.lor_spec, Z.ldiff_spec by assumption.
  rewrite !Z.shiftl_spec by lia.
  replace (n + pos - pos) with n by lia.
  rewrite Z.land_spec, Z.testbit_ones by assumption.
  destruct (Z.leb_spec 0 n) as [_|]; [|lia].
  destruct (n <? width); simpl.
  - rewrite !andb_true_r, andb_false_r. reflexivity.
  - rewrite !andb_false_r. reflexivity.
Qed.

(** A field is read from its own bits. *)
Lemma field_ext (w w' pos width : Z) :
  0 <= pos -> 0 <= width ->
  (forall i, pos <= i < pos + width -> bit w' i = bit w i) ->
  field w' pos width = field w pos width.
Proof.
  intros Hp Hw H. unfold field. apply Z.bits_inj'. intros n Hn.
  rewrite !Z.land_spec, !Z.shiftr_spec, Z.testbit_ones by assumption.
  destruct (Z.leb_spec 0 n) as [_|]; [|lia].
  destruct (Z.ltb_spec n width); simpl.
  - rewrite !andb_true_r. apply H. lia.
  - rewrite !andb_false_r. reflexivity.
Qed.

End FieldFacts.

(** ** The footprint of an operation in the session *)

Section KeepsRules.

Context {T : Type}.

Lemma keeps_refl (er st : list Z) (ib : bool) (w : World T) : keeps er st ib w w.
Proof. unfold keeps. repeat split; auto. Qed.

Lemma keeps_trans (er st : list Z) (ib : bool) (w1 w2 w3 : World T) :
  keeps er st ib w1 w2 -> keeps er st ib w2 w3 -> keeps er st ib w1 w3.
Proof.
  intros (A1 & A2 & A3 & A4 & A5 & A6 & A7 & A8) (B1 & B2 & B3 & B4 & B5 & B6 & B7 & B8).
  unfold keeps. repeat split; try congruence.
  - intros i Hi. rewrite B1, A1 by assumption. reflexivity.
  - intros i Hi. rewrite B2, A2 by assumption. reflexivity.
  - auto.
  - intros E. rewrite B4, A4 by assumption. reflexivity.
Qed.

Lemma same_session_keeps (er st : list Z) (ib : bool) (w w' : World T) :
  same_session w w' -> keeps er st ib w w'.
Proof.
  intros [E1 E2]. unfold keeps. rewrite E1. repeat split; auto.
Qed.

Lemma same_session_relates_keeps {A} (er st : list Z) (ib : bool) (m : M T A) :
  relates same_session m -> relates (keeps er st ib) m.
Proof. apply relates_weaken. apply same_session_keeps. Qed.

Lemma set_error_bit_keeps (er st : list Z) (ib : bool) (i : Z) (v : bool) :
  0 <= i -> In i er -> relates (T:=T) (keeps er st ib) (set_error_bit i v).
Proof.
  intros Hi Hin w a w' H. apply set_error_bit_run in H. destruct H as [_ ->].
  unfold keeps. cbn [sim9 io errors status flags gps_lat gps_lon imei_buf with_errors].
  repeat split; auto.
  intros j Hj. apply bit_set_bit_other; [assumption|]. intros ->. contradiction.
Qed.

Lemma set_status_bit_keeps (er st : list Z) (ib : bool) (i : Z) (v : bool) :
  0 <= i -> In i st -> (i = ST_READY -> v = false) ->
  relates (T:=T) (keeps er st ib) (set_status_bit i v).
Proof.
  intros Hi Hin Hr w a w' H. apply set_status_bit_run in H. destruct H as [_ ->].
  unfold keeps. cbn [sim9 io errors status flags gps_lat gps_lon imei_buf with_status].
  repeat split; auto.
  - intros j Hj. apply bit_set_bit_other; [assumption|]. intros ->. contradiction.
  - rewrite bit_set_bit by assumption.
    destruct (Z.eqb_spec i ST_READY) as [E|E]; [|auto].
    rewrite (Hr E). discriminate.
Qed.

Lemma set_provider_keeps (er st : list Z) (ib : bool) (v : Z) :
  In ST_PROVIDER st -> In (ST_PROVIDER + 1) st ->
  relates (T:=T) (keeps er st ib) (set_provider v).
Proof.
  intros H5 H6 w a w' H. injection H as _ <-.
  unfold keeps. cbn [sim9 io errors status flags gps_lat gps_lon imei_buf with_status].
  repeat split; auto.
  - intros j Hj.
    destruct (Z.eq_dec j ST_PROVIDER) as [->|E5]; [contradiction|].
    destruct (Z.eq_dec j (ST_PROVIDER + 1)) as [->|E6]; [contradiction|].
    apply bit_set_field_other; unfold ST_PROVIDER in *; lia.
  - rewrite bit_set_field_other; [auto | | |]; unfold ST_PROVIDER, ST_READY; lia.
Qed.

Lemma put_imei_keeps (er st : list Z) (b : buf) :
  relates (T:=T) (keeps er st true) (put_imei b).
Proof.
  intros w a w' H. injection H as _ <-.
  unfold keeps. cbn [sim9 io errors status flags gps_lat gps_lon imei_buf with_imei].
  repeat split; auto. discriminate.
Qed.

End KeepsRules.

Ltac keeps_leaf :=
  first
    [ assumption
    | match goal with
      | H : forall x, relates _ (?f ?n x) |- relates _ (?f ?n _) => apply H
      end
    | match goal with
      | |- relates _ (set_status_bit ST_READY false) =>
          apply set_status_bit_keeps; [discriminate | simpl; tauto | reflexivity]
      | |- relates _ (set_status_bit _ _) =>
          apply set_status_bit_keeps; [discriminate | simpl; tauto | discriminate]
      | |- relates _ (put_imei _) => apply put_imei_keeps
      | |- relates _ (set_provider _) => apply set_provider_keeps; simpl; tauto
      | |- relates _ (set_error_bit _ _) =>
          apply set_error_bit_keeps; [discriminate | simpl; tauto]
      | |- relates (keeps _ _ _) _ =>
          apply same_session_relates_keeps; solve [auto with frame]
      end ].

Ltac keeps_tac :=
  repeat first
    [ solve [keeps_leaf]
    | match goal with
      | |- forall _, _ => intros ?
      | |- relates _ (ret _) => apply relates_ret; exact (@keeps_refl _ _ _ _)
      | |- relates _ (lift_opt _) => apply relates_lift_opt; exact (@keeps_refl _ _ _ _)
      | |- relates _ (bind _ _) =>
          apply relates_bind; [exact (@keeps_trans _ _ _ _) | | intros ?]
      | |- relates _ (if ?b then _ else _) => destruct b
      | |- relates _ (match ?x with (_, _) => _ end) => destruct x
      | |- relates _ (match ?x with Some _ => _ | None => _ end) => destruct x
      end ].

Section KeepsStages.

Context {T : Type} {U : Usart T}.

Variables (er st : list Z) (ib : bool).

Lemma sim9_escape_loop_keeps (retry : nat) :
  In ST_CONNECTED st -> relates (keeps er st ib) (sim9_escape_loop retry).
Proof.
  intros Hc.
  induction retry as [|n IH]; [apply relates_ret; apply keeps_refl|].
  rewrite sim9_escape_loop_S. keeps_tac.
Qed.

Lemma sim9_escape_keeps :
  In ER_ESC er -> In ST_CONNECTED st -> relates (keeps er st ib) sim9_escape.
Proof.
  intros He Hc. unfold sim9_escape.
  pose proof (sim9_escape_loop_keeps 3 Hc) as Hl.
  keeps_tac.
Qed.

Lemma pin_check_keeps : In ER_PIN er -> relates (keeps er st ib) pin_check.
Proof. intros He. unfold pin_check. keeps_tac. Qed.

Lemma network_registered_loop_keeps (retry : nat) (buffer : buf) :
  In ER_NETREG er -> relates (keeps er st ib) (network_registered_loop retry buffer).
Proof.
  intros He. revert buffer.
  induction retry as [|n IH]; intros buffer; rewrite network_registered_loop_eq; keeps_tac.
Qed.

Lemma network_registered_keeps :
  In ER_NETREG er -> relates (keeps er st ib) network_registered.
Proof.
  intros He. unfold network_registered.
  pose proof (fun b => network_registered_loop_keeps 5 b He) as Hl.
  keeps_tac.
Qed.

Lemma sim9_off_keeps :
  In ER_OFF er -> In ST_READY st -> relates (keeps er st ib) sim9_off.
Proof. intros He Hs. unfold sim9_off. keeps_tac. Qed.

Lemma check_cgatt_keeps :
  In ER_GPRS er -> In ST_GPRS st -> relates (keeps er st ib) check_cgatt.
Proof. intros He Hs. unfold check_cgatt. keeps_tac. Qed.

Lemma gprs_connect_loop_keeps (retry : nat) :
  In ER_GPRS er -> In ST_GPRS st -> relates (keeps er st ib) (gprs_connect_loop retry).
Proof.
  intros He Hs. pose proof (check_cgatt_keeps He Hs) as Hc.
  induction retry as [|n IH]; rewrite gprs_connect_loop_eq; keeps_tac.
Qed.

Lemma gprs_disconnect_loop_keeps (retry : nat) :
  In ER_GPRS er -> In ST_GPRS st -> relates (keeps er st ib) (gprs_disconnect_loop retry).
Proof.
  intros He Hs. pose proof (check_cgatt_keeps He Hs) as Hc.
  induction retry as [|n IH]; rewrite gprs_disconnect_loop_eq; keeps_tac.
Qed.

Lemma gprs_connect_keeps :
  In ER_GPRS er -> In ST_GPRS st -> relates (keeps er st ib) gprs_connect.
Proof.
  intros He Hs. unfold gprs_connect.
  pose proof (gprs_connect_loop_keeps 5 He Hs) as Hl.
  keeps_tac.
Qed.

Lemma gprs_disconnect_keeps :
  In ER_GPRS er -> In ST_GPRS st -> relates (keeps er st ib) gprs_disconnect.
Proof.
  intros He Hs. unfold gprs_disconnect.
  pose proof (gprs_disconnect_loop_keeps 5 He Hs) as Hl.
  keeps_tac.
Qed.

Lemma apn_setup_keeps :
  In ER_APN er -> In ST_PROVIDER st -> In (ST_PROVIDER + 1) st ->
  relates (keeps er st ib) apn_setup.
Proof. intros He H5 H6. unfold apn_setup. keeps_tac. Qed.

Lemma gprs_wireless_connection_keeps :
  In ER_TCPIP er -> relates (keeps er st ib) gprs_wireless_connection.
Proof. intros He. unfold gprs_wireless_connection. keeps_tac. Qed.

Lemma sim9_tcpip_on_keeps :
  In ER_TCPIP er -> In ER_GPRS er -> In ER_APN er ->
  In ST_GPRS st -> In ST_PROVIDER st -> In (ST_PROVIDER + 1) st ->
  relates (keeps er st ib) sim9_tcpip_on.
Proof.
  intros H1 H2 H3 H4 H5 H6. unfold sim9_tcpip_on.
  pose proof (gprs_connect_keeps H2 H4) as Hg.
  pose proof (apn_setup_keeps H3 H5 H6) as Ha.
  pose proof (gprs_wireless_connection_keeps H1) as Hw.
  keeps_tac.
Qed.

End KeepsStages.

Section KeepsIdentity.

Context {T : Type} {U : Usart T}.

Variables (er st : list Z).

Lemma imei_attempt_keeps : relates (keeps er st true) imei_attempt.
Proof. unfold imei_attempt. keeps_tac. Qed.

Lemma imei_loop_keeps (retry : nat) :
  In ER_IMEI er -> relates (keeps er st true) (imei_loop retry).
Proof.
  intros He. pose proof imei_attempt_keeps as Ha.
  induction retry as [|n IH]; rewrite imei_loop_eq; keeps_tac.
Qed.

Lemma imei_keeps : In ER_IMEI er -> relates (keeps er st true) imei.
Proof.
  intros He. unfold imei, imei_reset.
  pose proof (imei_loop_keeps 10 He) as Hl.
  keeps_tac.
Qed.

End KeepsIdentity.

Section Footprint.

Context {T : Type} {U : Usart T}.

(** X7.  What an operation other than [sim9_init] and [sim9_on] can change in
    the session.  Every error bit outside the operation's
    [error_footprint] and every status bit outside its [status_footprint]
    has on return the value it had at the call; no operation raises
    [status.ready]; the identity buffer is written by [imei] alone;
    [flags], the two position buffers and the I/O registers are never
    written. *)
Theorem operation_footprint (o : operation) (w w' : World T) :
  run_operation o w = Some (tt, w') ->
  (forall i, ~ In i (error_footprint o) ->
             bit (errors (sim9 w')) i = bit (errors (sim9 w)) i) /\
  (forall i, ~ In i (status_footprint o) ->
             bit (status (sim9 w')) i = bit (status (sim9 w)) i) /\
  (bit (status (sim9 w')) ST_READY = true -> bit (status (sim9 w)) ST_READY = true) /\
  (writes_imei o = false -> imei_buf (sim9 w') = imei_buf (sim9 w)) /\
  flags (sim9 w') = flags (sim9 w) /\
  gps_lat (sim9 w') = gps_lat (sim9 w) /\
  gps_lon (sim9 w') = gps_lon (sim9 w) /\
  io w' = io w.
Proof.
  intros Hrun.
  assert (Hrel : relates (keeps (error_footprint o) (status_footprint o) (writes_imei o))
                         (run_operation o)).
  { destruct o; simpl.
    - keeps_tac.
    - keeps_tac.
    - keeps_tac.
    - keeps_tac.
    - keeps_tac.
    - keeps_tac.
    - keeps_tac.
    - keeps_tac.
    - keeps_tac.
    - apply sim9_escape_keeps; simpl; auto.
    - apply imei_keeps; simpl; auto.
    - apply pin_check_keeps; simpl; auto.
    - apply network_registered_keeps; simpl; auto.
    - apply same_session_relates_keeps. apply on_usart_same.
    - apply same_session_relates_keeps. apply on_usart_same.
    - apply sim9_off_keeps; simpl; auto.
    - apply check_cgatt_keeps; simpl; auto.
    - apply gprs_connect_keeps; simpl; auto.
    - apply gprs_disconnect_keeps; simpl; auto.
    - apply apn_setup_keeps; simpl; auto.
    - apply gprs_wireless_connection_keeps; simpl; auto.
    - apply sim9_tcpip_on_keeps; simpl; auto. }
  exact (Hrel w tt w' Hrun).
Qed.

End Footprint.

(** An instance: the modem is powered down with every other flag set. *)
Lemma operation_footprint_witness :
  let w := Mock.world 65535 4093 [(50, Mock.line "NORMAL POWER DOWN")] in
  exists w',
    run_operation Op_off w = Some (tt, w') /\
    (forall i, ~ In i (error_footprint Op_off) ->
               bit (errors (sim9 w')) i = bit (errors (sim9 w)) i) /\
    (forall i, ~ In i (status_footprint Op_off) ->
               bit (status (sim9 w')) i = bit (status (sim9 w)) i) /\
    (bit (status (sim9 w')) ST_READY = true -> bit (status (sim9 w)) ST_READY = true) /\
    (writes_imei Op_off = false -> imei_buf (sim9 w') = imei_buf (sim9 w)) /\
    flags (sim9 w') = flags (sim9 w) /\
    gps_lat (sim9 w') = gps_lat (sim9 w) /\
    gps_lon (sim9 w') = gps_lon (sim9 w) /\
    io w' = io w.
Proof.
  intros w. eexists. split; [vm_compute; reflexivity|].
  apply (operation_footprint Op_off w). vm_compute. reflexivity.
Defined.

(** ** The outcome of the single-query stages *)

Section Outcomes.

Context {T : Type} {U : Usart T}.

Lemma list_byte_eqb_eq (a b : list byte) : list_byte_eqb a b = true <-> a = b.
Proof.
  unfold list_byte_eqb. destruct (list_eq_dec byte_eq_dec a b); split; auto; discriminate.
Qed.

Lemma malloc_run (n : Z) (w : World T) b w' :
  malloc n w = Some (b, w') -> w' = w /\ length b = Z.to_nat n.
Proof.
  intros H. injection H as <- <-. split; [reflexivity|].
  rewrite length_map, length_seq. reflexivity.
Qed.

(** X8.  [pin_check] asks AT+CPIN? with the shape MSGOK, into a block of 20
    bytes.  On return [errors.pin] is clear exactly when the command
    succeeded and the answer begins with "+CPIN: READY": the bit is
    assigned on both paths, so its value at the call does not matter.  No
    other error bit and no status bit changes. *)
Theorem pin_check_outcome (w w' : World T) :
  pin_check w = Some (tt, w') ->
  exists buffer ok b w1,
    length buffer = 20%nat /\
    sim9_send_at_P (lit "AT+CPIN?") buffer SOB2 SENDAT_TYPE_MSGOK w = Some (ok, b, w1) /\
    usart w' = usart w1 /\
    (bit (errors (sim9 w')) ER_PIN = false <->
     ok <> 0 /\ firstn 12 b = lit "+CPIN: READY") /\
    (forall i, i <> ER_PIN -> bit (errors (sim9 w')) i = bit (errors (sim9 w)) i) /\
    status (sim9 w') = status (sim9 w).
Proof.
  intros H. unfold pin_check in H.
  apply bind_run in H. destruct H as (buffer & w0 & Hm & H).
  apply malloc_run in Hm. destruct Hm as [-> Hlen].
  apply bind_run in H. destruct H as ([ok b] & w1 & Hc & H).
  pose proof (sim9_send_at_P_same _ _ _ _ _ _ _ Hc) as [Es _].
  exists buffer, ok, b, w1. split; [exact Hlen|]. split; [exact Hc|].
  assert (Hw : w' = mk_world (with_errors (sim9 w1)
                 (set_bit (errors (sim9 w1)) ER_PIN
                    (negb (z2b ok && memcmp_eq b (lit "+CPIN: READY") 12))))
                 (usart w1) (io w1)).
  { destruct (z2b ok && memcmp_eq b (lit "+CPIN: READY") 12);
      apply set_error_bit_run in H; destruct H as [_ ->]; reflexivity. }
  subst w'. cbn [sim9 usart errors status with_errors]. rewrite Es.
  split; [reflexivity|]. split; [|split; [|reflexivity]].
  - rewrite bit_set_bit_same by discriminate.
    rewrite negb_false_iff, andb_true_iff.
    unfold memcmp_eq, z2b. rewrite list_byte_eqb_eq, negb_true_iff, Z.eqb_neq.
    reflexivity.
  - intros i Hi. apply bit_set_bit_other; [discriminate | congruence].
Qed.

(** X9.  [check_cgatt] asks AT+CGATT? with the shape MSGOK, into a block of 15
    bytes.  When the command succeeds [status.gprs] is set exactly when
    the answer begins with "+CGATT: 1", and the error word is as it was:
    a successful query does not clear [errors.gprs].  When the command
    fails [errors.gprs] is set and the status word is as it was:
    [status.gprs] keeps the value of an earlier query. *)
Theorem check_cgatt_outcome (w w' : World T) :
  check_cgatt w = Some (tt, w') ->
  exists buffer ok b w1,
    length buffer = 15%nat /\
    sim9_send_at_P (lit "AT+CGATT?") buffer SIZEOFBUFFER SENDAT_TYPE_MSGOK w
      = Some (ok, b, w1) /\
    usart w' = usart w1 /\
    (ok <> 0 ->
     errors (sim9 w') = errors (sim9 w) /\
     (bit (status (sim9 w')) ST_GPRS = true <-> firstn 9 b = lit "+CGATT: 1") /\
     (forall i, i <> ST_GPRS -> bit (status (sim9 w')) i = bit (status (sim9 w)) i)) /\
    (ok = 0 ->
     status (sim9 w') = status (sim9 w) /\
     bit (errors (sim9 w')) ER_GPRS = true /\
     (forall i, i <> ER_GPRS -> bit (errors (sim9 w')) i = bit (errors (sim9 w)) i)).
Proof.
  intros H. unfold check_cgatt in H.
  apply bind_run in H. destruct H as (buffer & w0 & Hm & H).
  apply malloc_run in Hm. destruct Hm as [-> Hlen].
  apply bind_run in H. destruct H as ([ok b] & w1 & Hc & H).
  pose proof (sim9_send_at_P_same _ _ _ _ _ _ _ Hc) as [Es _].
  exists buffer, ok, b, w1. split; [exact Hlen|]. split; [exact Hc|].
  unfold z2b in H. destruct (Z.eqb_spec ok 0) as [E|E]; cbn [negb] in H.
  - apply set_error_bit_run in H. destruct H as [_ ->].
    cbn [sim9 usart errors status with_errors]. rewrite Es.
    split; [reflexivity|]. split; [contradiction|]. intros _.
    split; [reflexivity|]. split; [apply bit_set_bit_same; discriminate|].
    intros i Hi. apply bit_set_bit_other; [discriminate | congruence].
  - assert (Hw : w' = mk_world (with_status (sim9 w1)
                   (set_bit (status (sim9 w1)) ST_GPRS (memcmp_eq b (lit "+CGATT: 1") 9)))
                   (usart w1) (io w1)).
    { destruct (memcmp_eq b (lit "+CGATT: 1") 9); cbn [negb] in H;
        apply set_status_bit_run in H; destruct H as [_ ->]; reflexivity. }
    subst w'. cbn [sim9 usart errors status with_status]. rewrite Es.
    split; [reflexivity|]. split; [|contradiction]. intros _.
    split; [reflexivity|]. split.
    + rewrite bit_set_bit_same by discriminate.
      unfold memcmp_eq. rewrite list_byte_eqb_eq. reflexivity.
    + intros i Hi. apply bit_set_bit_other; [discriminate | congruence].
Qed.

(** X10.  [sim9_off] sends AT+CPOWD=1 and looks for NORMAL POWER DOWN in up to
    6 messages.  Found: [status.ready] is cleared and nothing else
    changes.  Not found: [errors.off] is set and nothing else changes;
    [status.ready] is then as it was. *)
Theorem sim9_off_outcome (w w' : World T) :
  sim9_off w = Some (tt, w') ->
  exists w0 ok ext w1,
    sim9_send_P (lit "AT+CPOWD=1" ++ [CR]) w = Some (tt, w0) /\
    sim9_searchfor_P (lit "NORMAL POWER DOWN") 5 None 0 RELAX w0 = Some (ok, ext, w1) /\
    usart w' = usart w1 /\
    (ok <> 0 ->
     errors (sim9 w') = errors (sim9 w) /\
     bit (status (sim9 w')) ST_READY = false /\
     (forall i, i <> ST_READY -> bit (status (sim9 w')) i = bit (status (sim9 w)) i)) /\
    (ok = 0 ->
     status (sim9 w') = status (sim9 w) /\
     bit (errors (sim9 w')) ER_OFF = true /\
     (forall i, i <> ER_OFF -> bit (errors (sim9 w')) i = bit (errors (sim9 w)) i)).
Proof.
  intros H. unfold sim9_off in H.
  apply bind_run in H. destruct H as ([] & w0 & H0 & H).
  apply bind_run in H. destruct H as ([ok ext] & w1 & H1 & H).
  pose proof (sim9_send_P_same _ _ _ _ H0) as [E0 _].
  pose proof (sim9_searchfor_P_same _ _ _ _ _ _ _ _ H1) as [E1 _].
  exists w0, ok, ext, w1. split; [exact H0|]. split; [exact H1|].
  unfold z2b in H. destruct (Z.eqb_spec ok 0) as [E|E]; cbn [negb] in H.
  - apply set_error_bit_run in H. destruct H as [_ ->].
    cbn [sim9 usart errors status with_errors]. rewrite E1, E0.
    split; [reflexivity|]. split; [contradiction|]. intros _.
    split; [reflexivity|]. split; [apply bit_set_bit_same; discriminate|].
    intros i Hi. apply bit_set_bit_other; [discriminate | congruence].
  - apply set_status_bit_run in H. destruct H as [_ ->].
    cbn [sim9 usart errors status with_status]. rewrite E1, E0.
    split; [reflexivity|]. split; [|contradiction]. intros _.
    split; [reflexivity|]. split; [apply bit_set_bit_same; discriminate|].
    intros i Hi. apply bit_set_bit_other; [discriminate | congruence].
Qed.

End Outcomes.

(** An instance: the SIM asks for its PIN; [errors.pin] was clear. *)
Lemma pin_check_outcome_witness :
  let w := Mock.world 0 0 [(50, Mock.line "+CPIN: SIM PIN"); (55, Mock.line "OK")] in
  exists w',
    pin_check w = Some (tt, w') /\
    exists buffer ok b w1,
      length buffer = 20%nat /\
      sim9_send_at_P (lit "AT+CPIN?") buffer SOB2 SENDAT_TYPE_MSGOK w = Some (ok, b, w1) /\
      usart w' = usart w1 /\
      (bit (errors (sim9 w')) ER_PIN = false <->
       ok <> 0 /\ firstn 12 b = lit "+CPIN: READY") /\
      (forall i, i <> ER_PIN -> bit (errors (sim9 w')) i = bit (errors (sim9 w)) i) /\
      status (sim9 w') = status (sim9 w).
Proof.
  intros w. eexists. split; [vm_compute; reflexivity|].
  apply (pin_check_outcome w). vm_compute. reflexivity.
Defined.

(** An instance: the query fails while [status.gprs] is set. *)
Lemma check_cgatt_outcome_witness :
  let w := Mock.world 2 0 [(50, Mock.line "ERROR")] in
  exists w',
    check_cgatt w = Some (tt, w') /\
    exists buffer ok b w1,
      length buffer = 15%nat /\
      sim9_send_at_P (lit "AT+CGATT?") buffer SIZEOFBUFFER SENDAT_TYPE_MSGOK w
        = Some (ok, b, w1) /\
      usart w' = usart w1 /\
      (ok <> 0 ->
       errors (sim9 w') = errors (sim9 w) /\
       (bit (status (sim9 w')) ST_GPRS = true <-> firstn 9 b = lit "+CGATT: 1") /\
       (forall i, i <> ST_GPRS -> bit (status (sim9 w')) i = bit (status (sim9 w)) i)) /\
      (ok = 0 ->
       status (sim9 w') = status (sim9 w) /\
       bit (errors (sim9 w')) ER_GPRS = true /\
       (forall i, i <> ER_GPRS -> bit (errors (sim9 w')) i = bit (errors (sim9 w)) i)).
Proof.
  intros w. eexists. split; [vm_compute; reflexivity|].
  apply (check_cgatt_outcome w). vm_compute. reflexivity.
Defined.

(** An instance: the modem confirms the power down. *)
Lemma sim9_off_outcome_witness :
  let w := Mock.world 1 0 [(50, Mock.line "NORMAL POWER DOWN")] in
  exists w',
    sim9_off w = Some (tt, w') /\
    exists w0 ok ext w1,
      sim9_send_P (lit "AT+CPOWD=1" ++ [CR]) w = Some (tt, w0) /\
      sim9_searchfor_P (lit "NORMAL POWER DOWN") 5 None 0 RELAX w0 = Some (ok, ext, w1) /\
      usart w' = usart w1 /\
      (ok <> 0 ->
       errors (sim9 w') = errors (sim9 w) /\
       bit (status (sim9 w')) ST_READY = false /\
       (forall i, i <> ST_READY -> bit (status (sim9 w')) i = bit (status (sim9 w)) i)) /\
      (ok = 0 ->
       status (sim9 w') = status (sim9 w) /\
       bit (errors (sim9 w')) ER_OFF = true /\
       (forall i, i <> ER_OFF -> bit (errors (sim9 w')) i = bit (errors (sim9 w)) i)).
Proof.
  intros w. eexists. split; [vm_compute; reflexivity|].
  apply (sim9_off_outcome w). vm_compute. reflexivity.
Defined.

(** ** The provider *)

Section Provider.

Context {T : Type} {U : Usart T}.

Lemma sim9_searchfor_ext_some (s : buf) (count : Z) (b0 : buf) (extsize type : Z)
    (w : World T) r ext w' :
  sim9_searchfor s count (Some b0) extsize type w = Some (r, ext, w') ->
  exists b, ext = Some b.
Proof.
  intros H. unfold sim9_searchfor in H.
  apply bind_run in H. destruct H as ([size buffer] & w1 & _ & H).
  apply bind_run in H. destruct H as (buffer0 & w2 & _ & H).
  apply bind_run in H. destruct H as ([[ok b] k] & w3 & _ & H).
  apply ret_run in H. injection H as _ -> _. eauto.
Qed.

Lemma set_provider_run (v : Z) (w : World T) a w' :
  set_provider v w = Some (a, w') ->
  w' = mk_world (with_status (sim9 w) (set_field (status (sim9 w)) ST_PROVIDER 2 v))
         (usart w) (io w).
Proof. intros H. injection H as _ <-. reflexivity. Qed.

(** X11.  [apn_setup] sends AT+COPS? and looks for "+COPS:" in up to 6 messages,
    kept in a block of 30 bytes.  Not found: the provider is 0 and
    [errors.apn] is set.  Found: the error word is as it was and the
    provider is 3 when the 5 bytes at offset 12 of the block are "I TIM",
    else 2 when the 5 bytes at offset 13 are "odafo", else 1; the operator
    name is looked for at these two offsets and nowhere else.  No status
    bit outside the provider field and no error bit but [errors.apn]
    changes. *)
Theorem apn_setup_outcome (w w' : World T) :
  apn_setup w = Some (tt, w') ->
  exists s0 w1 ok s w2,
    length s0 = 30%nat /\
    sim9_searchfor (lit "+COPS:") 5 (Some s0) SIZEOF_S RELAX w1 = Some (ok, Some s, w2) /\
    (ok = TRUE \/ ok = FALSE) /\
    (ok = FALSE ->
     field (status (sim9 w')) ST_PROVIDER 2 = 0 /\
     bit (errors (sim9 w')) ER_APN = true) /\
    (ok = TRUE ->
     errors (sim9 w') = errors (sim9 w) /\
     field (status (sim9 w')) ST_PROVIDER 2 =
       if memcmp_eq (skipn 12 s) (lit "I TIM") 5 then 3
       else if memcmp_eq (skipn 13 s) (lit "odafo") 5 then 2 else 1) /\
    (forall i, i <> ST_PROVIDER -> i <> ST_PROVIDER + 1 ->
               bit (status (sim9 w')) i = bit (status (sim9 w)) i) /\
    (forall i, i <> ER_APN -> bit (errors (sim9 w')) i = bit (errors (sim9 w)) i).
Proof.
  intros H.
  pose proof (apn_setup_keeps [ER_APN] [ST_PROVIDER; ST_PROVIDER + 1] false
                ltac:(simpl; auto) ltac:(simpl; auto) ltac:(simpl; auto) _ _ _ H)
    as (Ke & Ks & _).
  unfold apn_setup in H.
  apply bind_run in H. destruct H as (s0 & w0 & Hm & H).
  apply malloc_run in Hm. destruct Hm as [-> Hlen].
  apply bind_run in H. destruct H as (r1 & w1 & Hc & H).
  pose proof (sim9_send_at_P_same _ _ _ _ _ _ _ Hc) as [Ec _].
  apply bind_run in H. destruct H as ([ok ext] & w2 & Hs & H).
  pose proof (sim9_searchfor_same _ _ _ _ _ _ _ _ Hs) as [Es _].
  destruct (sim9_searchfor_ext_some _ _ _ _ _ _ _ _ _ Hs) as (s & ->).
  pose proof (sim9_searchfor_bool _ _ _ _ _ _ _ _ _ Hs) as Hb.
  exists s0, w1, ok, s, w2. split; [exact Hlen|]. split; [exact Hs|].
  split; [exact Hb|].
  assert (Hframe :
    (forall i, i <> ST_PROVIDER -> i <> ST_PROVIDER + 1 ->
               bit (status (sim9 w')) i = bit (status (sim9 w)) i) /\
    (forall i, i <> ER_APN -> bit (errors (sim9 w')) i = bit (errors (sim9 w)) i)).
  { split.
    - intros i H5 H6. apply Ks.
      intros [E|[E|[]]]; [apply H5 | apply H6]; symmetry; exact E.
    - intros i Hi. apply Ke.
      intros [E|[]]. apply Hi. symmetry. exact E. }
  destruct Hb as [-> | ->]; cbn [z2b TRUE FALSE Z.eqb negb] in H.
  - split; [discriminate|]. split; [|exact Hframe]. intros _.
    apply bind_run in H. destruct H as ([] & w3 & Hp & H).
    apply bind_run in H. destruct H as (r2 & w4 & Hk & H).
    apply ret_run in H. injection H as ->.
    pose proof (sim9_searchfor_P_same _ _ _ _ _ _ _ _ Hk) as [Ek _].
    rewrite Ek.
    assert (Hw3 : exists v, 0 <= v <= 3 /\
              v = (if memcmp_eq (skipn 12 s) (lit "I TIM") 5 then 3
                   else if memcmp_eq (skipn 13 s) (lit "odafo") 5 then 2 else 1) /\
              w3 = mk_world (with_status (sim9 w2)
                               (set_field (status (sim9 w2)) ST_PROVIDER 2 v))
                     (usart w2) (io w2)).
    { destruct (memcmp_eq (skipn 12 s) (lit "I TIM") 5);
        [|destruct (memcmp_eq (skipn 13 s) (lit "odafo") 5)];
        apply set_provider_run in Hp; eexists; (split; [|split; [reflexivity | exact Hp]]); lia. }
    destruct Hw3 as (v & Hv & Hvd & ->). rewrite <- Hvd.
    cbn [sim9 errors status with_status]. rewrite Es, Ec.
    split; [reflexivity|].
    rewrite field_set_field by discriminate.
    change (Z.ones 2) with 3.
    assert (v = 0 \/ v = 1 \/ v = 2 \/ v = 3) as [-> | [-> | [-> | ->]]] by lia; reflexivity.
  - split; [|split; [discriminate | exact Hframe]]. intros _.
    apply bind_run in H. destruct H as ([] & w3 & Hp & H).
    apply set_provider_run in Hp. subst w3.
    apply set_error_bit_run in H. destruct H as [_ ->].
    cbn [sim9 errors status with_status with_errors]. split.
    + rewrite field_set_field by discriminate. reflexivity.
    + apply bit_set_bit_same. discriminate.
Qed.

End Provider.

(** An instance: the operator is Vodafone. *)
Lemma apn_setup_outcome_witness :
  let w := Mock.world 0 0 [(50, Mock.cops "vodafone IT"); (55, Mock.line "OK")] in
  exists w',
    apn_setup w = Some (tt, w') /\
    exists s0 w1 ok s w2,
      length s0 = 30%nat /\
      sim9_searchfor (lit "+COPS:") 5 (Some s0) SIZEOF_S RELAX w1 = Some (ok, Some s, w2) /\
      (ok = TRUE \/ ok = FALSE) /\
      (ok = FALSE ->
       field (status (sim9 w')) ST_PROVIDER 2 = 0 /\
       bit (errors (sim9 w')) ER_APN = true) /\
      (ok = TRUE ->
       errors (sim9 w') = errors (sim9 w) /\
       field (status (sim9 w')) ST_PROVIDER 2 =
         if memcmp_eq (skipn 12 s) (lit "I TIM") 5 then 3
         else if memcmp_eq (skipn 13 s) (lit "odafo") 5 then 2 else 1) /\
      (forall i, i <> ST_PROVIDER -> i <> ST_PROVIDER + 1 ->
                 bit (status (sim9 w')) i = bit (status (sim9 w)) i) /\
      (forall i, i <> ER_APN -> bit (errors (sim9 w')) i = bit (errors (sim9 w)) i).
Proof.
  intros w. eexists. split; [vm_compute; reflexivity|].
  apply (apn_setup_outcome w). vm_compute. reflexivity.
Defined.

(** ** Network registration *)

Section Registration.

Context {T : Type} {U : Usart T}.

Lemma netreg_query_same (buffer : buf) : relates same_session (netreg_query buffer).
Proof. unfold netreg_query. same_session_tac. Qed.

Lemma network_registered_loop_spec (n : nat) (buffer : buf) (w w' : World T) :
  network_registered_loop n buffer w = Some (tt, w') ->
  bit (errors (sim9 w)) ER_NETREG = true ->
  (exists j b1 w1 b2 w2,
     (j < n)%nat /\
     netreg_queries_fail j buffer w b1 w1 /\
     netreg_query b1 w1 = Some (true, b2, w2) /\
     set_error_bit ER_NETREG false w2 = Some (tt, w')) \/
  (exists bn, netreg_queries_fail n buffer w bn w' /\
              bit (errors (sim9 w')) ER_NETREG = true).
Proof.
  revert buffer w. induction n as [|n IH]; intros buffer w H He;
    rewrite network_registered_loop_eq in H;
    apply bind_run in H; destruct H as (e & w0 & H0 & H);
    apply error_bit_run in H0; destruct H0 as [-> ->];
    rewrite He in H.
  - apply ret_run in H. injection H as ->.
    right. exists buffer. split; [split; reflexivity | assumption].
  - apply bind_run in H. destruct H as ([] & wa & Hd & H).
    apply bind_run in H. destruct H as ([ok b1] & wb & Hc & H).
    apply bind_run in H. destruct H as ([] & wc & Hset & H).
    assert (Hq : netreg_query buffer w =
                 Some (z2b ok && memcmp_eq b1 (lit "+CGREG: 0,1") 11, b1, wb)).
    { unfold netreg_query, bind. rewrite Hd, Hc. reflexivity. }
    destruct (z2b ok && memcmp_eq b1 (lit "+CGREG: 0,1") 11) eqn:Eg.
    + left. exists O, buffer, w, b1, wb.
      rewrite network_registered_loop_eq in H.
      apply bind_run in H. destruct H as (e & w3 & H3 & H).
      apply error_bit_run in H3. destruct H3 as [-> ->].
      pose proof Hset as Hset'.
      apply set_error_bit_run in Hset'. destruct Hset' as [_ Hwc].
      assert (bit (errors (sim9 wc)) ER_NETREG = false) as Eb.
      { rewrite Hwc.
        change (bit (set_bit (errors (sim9 wb)) ER_NETREG false) ER_NETREG = false).
        apply bit_set_bit_same. discriminate. }
      rewrite Eb in H. apply ret_run in H. injection H as ->.
      split; [lia|]. split; [split; reflexivity|]. split; assumption.
    + apply ret_run in Hset. injection Hset as ->.
      pose proof (netreg_query_same _ _ _ _ Hq) as [Es _].
      apply IH in H; [|rewrite Es; assumption].
      destruct H as [(j & ba & wa' & bb & wb' & Hj & Hf & Hg & Hs) | (bn & Hf & Hb)].
      * left. exists (S j), ba, wa', bb, wb'. split; [lia|].
        split; [|split; assumption].
        simpl. exists b1, wb. split; assumption.
      * right. exists bn. split; [|assumption].
        simpl. exists b1, wb. split; assumption.
Qed.

(** X12.  [network_registered] sets [errors.netreg] and then queries the modem
    at most 5 times, each query after a delay of two seconds and into the
    same block of 20 bytes.  Either some query, the [j + 1]-th with
    [j < 5], is the first whose command succeeds with an answer that
    begins with "+CGREG: 0,1": no query follows it and [errors.netreg] is
    clear on return.  Or all 5 fail and [errors.netreg] is set on return.
    Nothing else changes in the session. *)
Theorem network_registered_five_queries (w w' : World T) :
  network_registered w = Some (tt, w') ->
  exists buffer w0,
    length buffer = 20%nat /\
    set_error_bit ER_NETREG true w = Some (tt, w0) /\
    ((exists j b1 w1 b2 w2,
        (j < 5)%nat /\
        netreg_queries_fail j buffer w0 b1 w1 /\
        netreg_query b1 w1 = Some (true, b2, w2) /\
        usart w' = usart w2 /\
        bit (errors (sim9 w')) ER_NETREG = false) \/
     (exists b5, netreg_queries_fail 5 buffer w0 b5 w' /\
                 bit (errors (sim9 w')) ER_NETREG = true)) /\
    status (sim9 w') = status (sim9 w) /\
    (forall i, i <> ER_NETREG -> bit (errors (sim9 w')) i = bit (errors (sim9 w)) i).
Proof.
  intros H.
  pose proof (network_registered_keeps [ER_NETREG] [] false
                ltac:(simpl; auto) _ _ _ H) as (Ke & Ks & _).
  unfold network_registered in H.
  apply bind_run in H. destruct H as (buffer & wm & Hm & H).
  apply malloc_run in Hm. destruct Hm as [-> Hlen].
  apply bind_run in H. destruct H as ([] & w0 & Hset & H).
  exists buffer, w0. split; [exact Hlen|]. split; [exact Hset|].
  assert (He : bit (errors (sim9 w0)) ER_NETREG = true).
  { apply set_error_bit_run in Hset. destruct Hset as [_ ->].
    change (bit (set_bit (errors (sim9 w)) ER_NETREG true) ER_NETREG = true).
    apply bit_set_bit_same. discriminate. }
  split; [|split].
  - apply network_registered_loop_spec in H; [|assumption].
    destruct H as [(j & b1 & w1 & b2 & w2 & Hj & Hf & Hg & Hs) | (bn & Hf & Hb)].
    + left. exists j, b1, w1, b2, w2.
      split; [assumption|]. split; [assumption|]. split; [assumption|].
      apply set_error_bit_run in Hs. destruct Hs as [_ ->].
      split; [reflexivity|].
      change (bit (set_bit (errors (sim9 w2)) ER_NETREG false) ER_NETREG = false).
      apply bit_set_bit_same. discriminate.
    + right. exists bn. split; assumption.
  - apply bits_eq. intros i. apply Ks. simpl. tauto.
  - intros i Hi. apply Ke. intros [E|[]]. apply Hi. symmetry. exact E.
Qed.

End Registration.

(** An instance: the modem is searching at the first query and registered
    at the second. *)
Lemma network_registered_five_queries_witness :
  let q := [(2050, Mock.line "+CGREG: 0,2"); (2055, Mock.line "OK");
            (4200, Mock.line "+CGREG: 0,1"); (4205, Mock.line "OK")] in
  let w := Mock.world 0 0 q in
  exists w',
    network_registered w = Some (tt, w') /\
    exists buffer w0,
      length buffer = 20%nat /\
      set_error_bit ER_NETREG true w = Some (tt, w0) /\
      ((exists j b1 w1 b2 w2,
          (j < 5)%nat /\
          netreg_queries_fail j buffer w0 b1 w1 /\
          netreg_query b1 w1 = Some (true, b2, w2) /\
          usart w' = usart w2 /\
          bit (errors (sim9 w')) ER_NETREG = false) \/
       (exists b5, netreg_queries_fail 5 buffer w0 b5 w' /\
                   bit (errors (sim9 w')) ER_NETREG = true)) /\
      status (sim9 w') = status (sim9 w) /\
      (forall i, i <> ER_NETREG -> bit (errors (sim9 w')) i = bit (errors (sim9 w)) i).
Proof.
  intros q w. eexists. split; [vm_compute; reflexivity|].
  apply (network_registered_five_queries w). vm_compute. reflexivity.
Defined.

(** ** GPRS detach *)

Section GprsDetach.

Context {T : Type} {U : Usart T}.

(** The loop entered with [retry = n] is [k] polls in a row, one at least
    and [n + 1] at most; GPRS was seen attached after every poll but the
    last; a loop that ends with GPRS attached has made all [n + 1]. *)
Lemma gprs_disconnect_loop_spec (n : nat) (w : World T) k w' :
  gprs_disconnect_loop n w = Some (k, w') ->
  polls k w = Some (tt, w') /\
  (1 <= k <= S n)%nat /\
  (bit (status (sim9 w')) ST_GPRS = true -> k = S n) /\
  (forall j wj, (1 <= j < k)%nat -> polls j w = Some (tt, wj) ->
                bit (status (sim9 wj)) ST_GPRS = true).
Proof.
  revert w k w'. induction n as [|n IH]; intros w k w' H;
    rewrite gprs_disconnect_loop_eq in H;
    apply bind_run in H; destruct H as ([] & w1 & Hc & H);
    apply bind_run in H; destruct H as (g & w1' & Hg & H);
    apply status_bit_run in Hg; destruct Hg as [-> ->];
    destruct (bit (status (sim9 w1)) ST_GPRS) eqn:Eg; simpl in H.
  - run_inv H. rewrite polls_S. unfold bind. rewrite Hc.
    repeat split; auto; try solve [intros; first [reflexivity | lia | congruence]].
  - run_inv H. rewrite polls_S. unfold bind. rewrite Hc.
    repeat split; auto; try solve [intros; first [reflexivity | lia | congruence]].
  - apply bind_run in H. destruct H as (k' & w2 & Hl & H). run_inv H.
    apply IH in Hl. destruct Hl as (Hp & Hk & Hlast & Hbefore).
    repeat split; try lia.
    + rewrite polls_S. unfold bind. rewrite Hc. exact Hp.
    + intros E. rewrite (Hlast E). reflexivity.
    + intros [|[|j]] wj Hj Hpj; [lia | |].
      * rewrite polls_S in Hpj. unfold bind in Hpj. rewrite Hc in Hpj.
        injection Hpj as <-. exact Eg.
      * rewrite polls_S in Hpj. unfold bind in Hpj. rewrite Hc in Hpj.
        eapply Hbefore; [|eassumption]. lia.
  - run_inv H. rewrite polls_S. unfold bind. rewrite Hc.
    repeat split; auto; try solve [intros; first [reflexivity | lia | congruence]].
Qed.

(** X13.  [gprs_disconnect] clears [errors.gprs] and issues the detach command
    AT+CGATT=0.  When the command fails it sets [errors.gprs] and does
    nothing else: no poll, and [status.gprs] is as it was.  When it
    succeeds it polls with [check_cgatt] at least once and at most 6
    times: every poll but the last saw GPRS attached, and fewer than 6
    polls end with GPRS detached. *)
Theorem gprs_disconnect_detach_then_poll (w w' : World T) :
  gprs_disconnect w = Some (tt, w') ->
  exists w0 ok w1,
    set_error_bit ER_GPRS false w = Some (tt, w0) /\
    send_at_P_OK (lit "AT+CGATT=0") w0 = Some (ok, w1) /\
    (ok = 0 ->
     set_error_bit ER_GPRS true w1 = Some (tt, w') /\
     usart w' = usart w1 /\ status (sim9 w') = status (sim9 w)) /\
    (ok <> 0 ->
     exists k,
       (1 <= k <= 6)%nat /\
       polls k w1 = Some (tt, w') /\
       (forall j wj, (1 <= j < k)%nat -> polls j w1 = Some (tt, wj) ->
                     bit (status (sim9 wj)) ST_GPRS = true) /\
       ((k < 6)%nat -> bit (status (sim9 w')) ST_GPRS = false)).
Proof.
  intros H. unfold gprs_disconnect in H.
  apply bind_run in H. destruct H as ([] & w0 & H0 & H).
  apply bind_run in H. destruct H as (ok & w1 & H1 & H).
  exists w0, ok, w1. split; [assumption|]. split; [assumption|].
  unfold z2b in H. destruct (Z.eqb_spec ok 0) as [E|E]; cbn [negb] in H.
  - split; [|contradiction]. intros _. split; [assumption|].
    pose proof (send_at_P_OK_same _ _ _ _ H1) as [E1 _].
    apply set_error_bit_run in H0. destruct H0 as [_ ->].
    apply set_error_bit_run in H. destruct H as [_ ->].
    cbn [sim9 usart status with_errors]. rewrite E1. split; reflexivity.
  - split; [contradiction|]. intros _.
    apply bind_run in H. destruct H as (k & w2 & Hl & H). run_inv H.
    apply gprs_disconnect_loop_spec in Hl. destruct Hl as (Hp & Hk & Hlast & Hbefore).
    exists k. split; [lia|]. split; [assumption|]. split; [assumption|].
    intros Hk6.
    match goal with |- ?b = false => destruct b eqn:Eg end; [|reflexivity].
    specialize (Hlast eq_refl). lia.
Qed.

End GprsDetach.

(** An instance: the modem confirms the detach command and reports GPRS
    detached at the second poll. *)
Lemma gprs_disconnect_detach_then_poll_witness :
  let q := [(50, Mock.line "OK");
            (160, Mock.line "+CGATT: 1"); (165, Mock.line "OK");
            (400, Mock.line "+CGATT: 0"); (405, Mock.line "OK")] in
  let w := Mock.world 2 0 q in
  exists w',
    gprs_disconnect w = Some (tt, w') /\
    exists w0 ok w1,
      set_error_bit ER_GPRS false w = Some (tt, w0) /\
      send_at_P_OK (lit "AT+CGATT=0") w0 = Some (ok, w1) /\
      (ok = 0 ->
       set_error_bit ER_GPRS true w1 = Some (tt, w') /\
       usart w' = usart w1 /\ status (sim9 w') = status (sim9 w)) /\
      (ok <> 0 ->
       exists k,
         (1 <= k <= 6)%nat /\
         polls k w1 = Some (tt, w') /\
         (forall j wj, (1 <= j < k)%nat -> polls j w1 = Some (tt, wj) ->
                       bit (status (sim9 wj)) ST_GPRS = true) /\
         ((k < 6)%nat -> bit (status (sim9 w')) ST_GPRS = false)).
Proof.
  intros q w. eexists. split; [vm_compute; reflexivity|].
  apply (gprs_disconnect_detach_then_poll w). vm_compute. reflexivity.
Defined.

(** ** Pre- and postconditions *)

Section HoareRules.

Context {T : Type}.

Lemma hoare_ret {A} (P : World T -> Prop) (a : A) (Q : A -> World T -> Prop) :
  (forall w, P w -> Q a w) -> hoare P (ret a) Q.
Proof. intros H w a' w' HP Hr. apply ret_run in Hr. injection Hr as -> ->. auto. Qed.

Lemma hoare_bind {A B} (P : World T -> Prop) (m : M T A) (k : A -> M T B)
    (Q1 : A -> World T -> Prop) (Q : B -> World T -> Prop) :
  hoare P m Q1 -> (forall a, hoare (Q1 a) (k a) Q) -> hoare P (bind m k) Q.
Proof.
  intros Hm Hk w b w' HP Hr.
  apply bind_run in Hr. destruct Hr as (a & w1 & H1 & H2).
  eapply Hk; [|eassumption]. eapply Hm; eassumption.
Qed.

Lemma hoare_conseq {A} (P P' : World T -> Prop) (m : M T A) (Q Q' : A -> World T -> Prop) :
  (forall w, P' w -> P w) -> (forall a w, Q a w -> Q' a w) ->
  hoare P m Q -> hoare P' m Q'.
Proof. intros HP HQ Hm w a w' Hp Hr. apply HQ. eapply Hm; [apply HP|]; eassumption. Qed.

Lemma hoare_relates {A} (R : World T -> World T -> Prop) (P Q : World T -> Prop)
    (m : M T A) :
  relates R m -> (forall w w', R w w' -> P w -> Q w') -> hoare P m (fun _ => Q).
Proof. intros Hm HR w a w' HP Hr. eapply HR; [eapply Hm|]; eassumption. Qed.

Lemma sess_same (st : Z) (E : list Z) (iop : avr_io -> Prop) (w w' : World T) :
  same_session w w' -> sess st E iop w -> sess st E iop w'.
Proof. intros [E1 E2]. unfold sess. rewrite E1, E2. auto. Qed.

Lemma sess_incl (st : Z) (E E' : list Z) (iop : avr_io -> Prop) (w : World T) :
  incl E E' -> sess st E iop w -> sess st E' iop w.
Proof. intros Hi (H1 & H2 & H3). unfold sess. auto. Qed.

End HoareRules.

Section HoareSession.

Context {T : Type} {U : Usart T}.

Lemma hoare_same {A} (st : Z) (E : list Z) (iop : avr_io -> Prop) (m : M T A) :
  relates same_session m -> hoare (sess st E iop) m (fun _ => sess st E iop).
Proof. intros Hm. eapply hoare_relates; [exact Hm | apply sess_same]. Qed.

Lemma hoare_get_io (st : Z) (E : list Z) (iop : avr_io -> Prop) :
  hoare (T:=T) (sess st E iop) get_io (fun r => sess st E (fun x => x = r)).
Proof.
  intros w r w' (H1 & H2 & H3) Hr. injection Hr as <- <-.
  unfold sess. auto.
Qed.

Lemma hoare_put_io (st : Z) (E : list Z) (iop : avr_io -> Prop) (r : avr_io) :
  hoare (T:=T) (sess st E iop) (put_io r) (fun _ => sess st E (fun x => x = r)).
Proof.
  intros w a w' (H1 & H2 & H3) Hr. injection Hr as _ <-.
  unfold sess. cbn [sim9 io]. split; [assumption|]. split; [assumption | reflexivity].
Qed.

Lemma hoare_set_error_bit (st : Z) (E : list Z) (iop : avr_io -> Prop) (i : Z) (v : bool) :
  hoare (T:=T) (sess st E iop) (set_error_bit i v)
        (fun _ => sess st (map (fun e => set_bit e i v) E) iop).
Proof.
  intros w a w' (H1 & H2 & H3) Hr.
  apply set_error_bit_run in Hr. destruct Hr as [_ ->].
  unfold sess. cbn [sim9 io errors status with_errors].
  split; [assumption|]. split; [|assumption].
  apply in_map_iff. eauto.
Qed.

Lemma hoare_set_status_bit (st : Z) (E : list Z) (iop : avr_io -> Prop) (i : Z) (v : bool) :
  hoare (T:=T) (sess st E iop) (set_status_bit i v)
        (fun _ => sess (set_bit st i v) E iop).
Proof.
  intros w a w' (H1 & H2 & H3) Hr.
  apply set_status_bit_run in Hr. destruct Hr as [_ ->].
  unfold sess. cbn [sim9 io errors status with_status].
  rewrite H1. auto.
Qed.

Lemma hoare_errors_all (P : World T -> Prop) :
  hoare (T:=T) P errors_all (fun e w => P w /\ e = errors (sim9 w)).
Proof. intros w e w' HP Hr. injection Hr as <- <-. auto. Qed.

(** A stage that is run when no error bit is set and that assigns the
    error bit [k] alone. *)
Lemma hoare_guarded_stage (st : Z) (E : list Z) (iop : avr_io -> Prop) (k e : Z)
    (stage : M T unit) :
  0 <= k -> relates (keeps [k] [] true) stage ->
  hoare (fun w => sess st E iop w /\ e = errors (sim9 w))
        (if e =? 0 then stage else ret tt)
        (fun _ => sess st (set_bit 0 k true :: E) iop).
Proof.
  intros Hk Hs w a w' [(H1 & H2 & H3) He] Hr.
  destruct (Z.eqb_spec e 0) as [E0|E0].
  - apply Hs in Hr. destruct Hr as (Ke & Ks & _ & _ & _ & _ & _ & Kio).
    unfold sess. split; [|split].
    + rewrite <- H1. apply bits_eq. intros i. apply Ks. simpl. tauto.
    + rewrite (only_bit (errors (sim9 w')) k Hk).
      * destruct (bit (errors (sim9 w')) k); [left; reflexivity|].
        right. change (set_bit 0 k false) with (Z.clearbit 0 k).
        replace (Z.clearbit 0 k) with (errors (sim9 w)); [assumption|].
        rewrite <- He, E0. symmetry. apply Z.bits_inj'. intros n _.
        rewrite Z.clearbit_eqb, Z.bits_0. reflexivity.
      * intros i Hi. rewrite Ke by (intros [E1|[]]; congruence).
        rewrite <- He, E0. apply Z.bits_0.
    + rewrite Kio. assumption.
  - apply ret_run in Hr. injection Hr as _ ->.
    unfold sess. split; [assumption|]. split; [right; assumption | assumption].
Qed.

End HoareSession.

(** ** Power-on *)

Section PowerOn.

Context {T : Type} {U : Usart T}.

(** X14.  [sim9_on] clears both flag words before anything else, so what it
    returns does not depend on the flags at the call.  On return the
    status word is [status.echo] and nothing else: [status.ready] is
    clear.  The error word is 0 or exactly one of [errors.init],
    [errors.pin], [errors.imei], [errors.netreg]: each stage runs only
    while no error bit is set, so the first failure is the only one
    recorded.  The power key PA6 is an output and is low again after its
    one second pulse; PA5, PA4, PA7 and PD6 are inputs. *)
Theorem sim9_on_outcome (w w' : World T) :
  sim9_on w = Some (tt, w') ->
  status (sim9 w') = set_bit 0 ST_ECHO true /\
  In (errors (sim9 w'))
     [0; set_bit 0 ER_INIT true; set_bit 0 ER_PIN true;
      set_bit 0 ER_IMEI true; set_bit 0 ER_NETREG true] /\
  Z.testbit (DDRA (io w')) SIM9_PIN_ON = true /\
  Z.testbit (PORTA (io w')) SIM9_PIN_ON = false /\
  Z.testbit (DDRA (io w')) SIM9_STATUS = false /\
  Z.testbit (DDRA (io w')) SIM9_RI = false /\
  Z.testbit (DDRA (io w')) SIM9_DTR = false /\
  Z.testbit (DDRD (io w')) SIM9_NET_ST = false.
Proof.
  intros H. unfold sim9_on in H.
  apply bind_run in H. destruct H as (s & w0 & H0 & H). injection H0 as <- <-.
  apply bind_run in H. destruct H as ([] & w1 & H1 & H). injection H1 as <-.
  apply bind_run in H. destruct H as ([] & w2 & H2 & H). injection H2 as <-.
  apply bind_run in H. destruct H as (r & w3 & H3 & H). injection H3 as <- <-.
  cbv zeta in H. cbn [io sim9 usart] in H.
  apply bind_run in H. destruct H as ([] & w4 & H4 & H). injection H4 as <-.
  apply bind_run in H. destruct H as ([] & w5 & H5 & H). injection H5 as <-.
  apply bind_run in H. destruct H as ([] & w6 & H6 & H). injection H6 as <-.
  apply bind_run in H. destruct H as ([] & w7 & H7 & H). injection H7 as <-.
  apply bind_run in H. destruct H as ([] & w8 & H8 & H). injection H8 as <-.
  cbn [io sim9 usart] in H.
  set (ddra := Z.lor (Z.ldiff (DDRA (io w))
                        (Z.lor (Z.lor (_BV SIM9_STATUS) (_BV SIM9_RI)) (_BV SIM9_DTR)))
                     (_BV SIM9_PIN_ON)) in H.
  set (porta := Z.ldiff (Z.lor (Z.ldiff (PORTA (io w)) (_BV SIM9_PIN_ON)) (_BV SIM9_PIN_ON))
                        (_BV SIM9_PIN_ON)) in H.
  set (ddrd := Z.ldiff (DDRD (io w)) (_BV SIM9_NET_ST)) in H.
  set (iop := fun x : avr_io => x = mk_io ddra porta ddrd).
  match type of H with
  | ?m ?w8 = _ =>
      assert (Hh : hoare (sess 0 [0] iop) m
                     (fun _ => sess (set_bit 0 ST_ECHO true)
                                 [set_bit 0 ER_NETREG true; set_bit 0 ER_IMEI true;
                                  set_bit 0 ER_PIN true; 0; set_bit 0 ER_INIT true] iop));
      [| assert (Hpre : sess 0 [0] iop w8)
           by (unfold sess; cbn [sim9 io status errors with_errors with_status];
               split; [reflexivity|]; split; [left; reflexivity | reflexivity]);
         pose proof (Hh _ _ _ Hpre H) as (Hst & Her & Hio) ]
  end.
  { clear H.
    do 7 (eapply hoare_bind; [apply hoare_same; solve [auto with frame] | intros ?]).
    eapply hoare_bind; [apply hoare_same; solve [auto with frame] | intros ok].
    eapply hoare_bind with (Q1 := fun _ => sess 0 [0; set_bit 0 ER_INIT true] iop).
    { destruct (z2b ok).
      - apply hoare_ret. intros w0. apply sess_incl. intros x Hx. simpl in *. tauto.
      - eapply hoare_conseq; [intros w0 Hw0; exact Hw0 | | apply hoare_set_error_bit].
        intros ? w0. apply sess_incl. intros x Hx. simpl in *. tauto. }
    intros ?.
    eapply hoare_bind; [apply hoare_set_status_bit | intros ?].
    eapply hoare_bind; [apply hoare_same; solve [auto with frame] | intros echo].
    eapply hoare_bind;
      [apply hoare_same; destruct echo; solve [auto with frame] | intros ?].
    do 4 (eapply hoare_bind; [apply hoare_same; solve [auto with frame] | intros ?]).
    eapply hoare_bind; [apply hoare_errors_all | intros e1].
    eapply hoare_bind;
      [apply hoare_guarded_stage with (k := ER_PIN);
       [discriminate | apply pin_check_keeps; simpl; auto] | intros ?].
    eapply hoare_bind; [apply hoare_errors_all | intros e2].
    eapply hoare_bind;
      [apply hoare_guarded_stage with (k := ER_IMEI);
       [discriminate | apply imei_keeps; simpl; auto] | intros ?].
    eapply hoare_bind; [apply hoare_errors_all | intros e3].
    apply hoare_guarded_stage with (k := ER_NETREG); [discriminate|].
    pose proof (network_registered_keeps [ER_NETREG] [] true ltac:(simpl; auto)) as Hn.
    keeps_tac. }
  split; [exact Hst|]. split.
  { simpl in Her. simpl. tauto. }
  unfold iop in Hio. rewrite Hio. cbn [DDRA PORTA DDRD]. unfold ddra, porta, ddrd.
  repeat split.
  - rewrite Z.lor_spec. apply orb_true_r.
  - rewrite Z.ldiff_spec. apply andb_false_r.
  - rewrite Z.lor_spec, Z.ldiff_spec. reflexivity || (rewrite andb_false_r; reflexivity).
  - rewrite Z.lor_spec, Z.ldiff_spec. reflexivity || (rewrite andb_false_r; reflexivity).
  - rewrite Z.lor_spec, Z.ldiff_spec. reflexivity || (rewrite andb_false_r; reflexivity).
  - rewrite Z.ldiff_spec. apply andb_false_r.
Qed.

End PowerOn.

(** An instance: a modem that never answers; the flags at the call are
    arbitrary. *)
Lemma sim9_on_outcome_witness :
  let w := Mock.world 3 512 [] in
  exists w',
    sim9_on w = Some (tt, w') /\
    status (sim9 w') = set_bit 0 ST_ECHO true /\
    In (errors (sim9 w'))
       [0; set_bit 0 ER_INIT true; set_bit 0 ER_PIN true;
        set_bit 0 ER_IMEI true; set_bit 0 ER_NETREG true] /\
    Z.testbit (DDRA (io w')) SIM9_PIN_ON = true /\
    Z.testbit (PORTA (io w')) SIM9_PIN_ON = false /\
    Z.testbit (DDRA (io w')) SIM9_STATUS = false /\
    Z.testbit (DDRA (io w')) SIM9_RI = false /\
    Z.testbit (DDRA (io w')) SIM9_DTR = false /\
    Z.testbit (DDRD (io w')) SIM9_NET_ST = false.
Proof.
  intros w. eexists. split; [vm_compute; reflexivity|].
  apply (sim9_on_outcome w). vm_compute. reflexivity.
Defined.

(** ** The TCP bearer *)

Section Bearer.

Context {T : Type} {U : Usart T}.

Lemma field_provider_range (w : Z) : 0 <= field w ST_PROVIDER 2 <= 3.
Proof.
  unfold field. rewrite Z.land_ones by lia.
  pose proof (Z.mod_pos_bound (Z.shiftr w ST_PROVIDER) (2 ^ 2) ltac:(lia)). lia.
Qed.

Lemma keeps_provider (er st : list Z) (ib : bool) (w w' : World T) :
  keeps er st ib w w' -> ~ In ST_PROVIDER st -> ~ In (ST_PROVIDER + 1) st ->
  field (status (sim9 w')) ST_PROVIDER 2 = field (status (sim9 w)) ST_PROVIDER 2.
Proof.
  intros (_ & Ks & _) H5 H6. apply field_ext; [discriminate | discriminate |].
  intros i Hi. apply Ks. intros Hin.
  assert (i = ST_PROVIDER \/ i = ST_PROVIDER + 1) as [-> | ->]
    by (unfold ST_PROVIDER in *; lia); contradiction.
Qed.

Lemma hoare_status_bit (P : World T -> Prop) (i : Z) :
  hoare (T:=T) P (status_bit i) (fun b w => P w /\ b = bit (status (sim9 w)) i).
Proof.
  intros w b w' HP Hr. apply status_bit_run in Hr. destruct Hr as [-> ->]. auto.
Qed.

Lemma hoare_provider (P : World T -> Prop) :
  hoare (T:=T) P provider (fun p w => P w /\ p = field (status (sim9 w)) ST_PROVIDER 2).
Proof. intros w p w' HP Hr. injection Hr as <- <-. auto. Qed.

(** X15.  [sim9_tcpip_on] called with the provider 0, as [sim9_on] leaves it.
    When [errors.apn] is clear on return, [status.gprs] is set and the
    provider is 1, 2 or 3: [apn_setup] was run and found the operator, and
    the APN command of that provider was sent.  Put the other way round:
    when [status.gprs] is clear after [gprs_connect], or the operator is
    not found, [errors.apn] is set on return. *)
Theorem sim9_tcpip_on_apn_clear (w w' : World T) :
  sim9_tcpip_on w = Some (tt, w') ->
  field (status (sim9 w)) ST_PROVIDER 2 = 0 ->
  bit (errors (sim9 w')) ER_APN = false ->
  bit (status (sim9 w')) ST_GPRS = true /\
  1 <= field (status (sim9 w')) ST_PROVIDER 2 <= 3.
Proof.
  intros H Hp0 Hapn.
  set (P0 := fun x : World T => field (status (sim9 x)) ST_PROVIDER 2 = 0).
  set (Q1 := fun x : World T => field (status (sim9 x)) ST_PROVIDER 2 = 0 \/
                                bit (status (sim9 x)) ST_GPRS = true).
  set (Q2 := fun x : World T =>
               bit (errors (sim9 x)) ER_APN = true \/
               (bit (status (sim9 x)) ST_GPRS = true /\
                1 <= field (status (sim9 x)) ST_PROVIDER 2 <= 3)).
  assert (HP0 : forall A (m : M T A) er st ib,
             relates (keeps er st ib) m ->
             ~ In ST_PROVIDER st -> ~ In (ST_PROVIDER + 1) st ->
             hoare P0 m (fun _ => P0)).
  { intros A m er st ib Hm H5 H6. eapply hoare_relates; [exact Hm|].
    intros x x' Hk Hx. unfold P0 in *.
    rewrite (keeps_provider _ _ _ _ _ Hk H5 H6). exact Hx. }
  assert (Hh : hoare P0 sim9_tcpip_on (fun _ => Q2)).
  { unfold sim9_tcpip_on.
    eapply hoare_bind;
      [apply (HP0 _ _ [ER_TCPIP] [] false); [keeps_tac | simpl; tauto | simpl; tauto]
      | intros ?].
    eapply hoare_bind;
      [apply (HP0 _ _ [] [] false); [keeps_tac | simpl; tauto | simpl; tauto] | intros ?].
    eapply hoare_bind;
      [apply (HP0 _ _ [] [] false); [keeps_tac | simpl; tauto | simpl; tauto] | intros tsmode].
    eapply hoare_bind;
      [apply (HP0 _ _ [] [] false);
       [destruct tsmode; keeps_tac | simpl; tauto | simpl; tauto] | intros ?].
    eapply hoare_bind;
      [apply (HP0 _ _ [ER_GPRS] [ST_GPRS] false);
       [apply gprs_connect_keeps; simpl; auto
       | simpl; intros [E|[]]; discriminate E
       | simpl; intros [E|[]]; discriminate E]
      | intros ?].
    eapply hoare_bind; [apply hoare_status_bit | intros g].
    eapply hoare_bind with (Q1 := fun _ => Q1).
    { intros x ua x' [Hx Hg] Hr. unfold P0, Q1 in *. destruct g.
      - right.
        pose proof (apn_setup_keeps [ER_APN] [ST_PROVIDER; ST_PROVIDER + 1] false
                      ltac:(simpl; auto) ltac:(simpl; auto) ltac:(simpl; auto) _ _ _ Hr)
          as (_ & Ks & _).
        rewrite Ks; [symmetry; exact Hg|].
        simpl. intros [E|[E|[]]]; discriminate E.
      - apply ret_run in Hr. injection Hr as _ ->. left. exact Hx. }
    intros ?.
    eapply hoare_bind; [apply hoare_provider | intros p].
    eapply hoare_bind with (Q1 := fun _ => Q2).
    { intros x ua x' [Hx Hp] Hr. unfold Q1, Q2 in *.
      assert (Hsent : forall cmd r,
                 (send_at_P_OK cmd ;; ret tt)%sim9 x = Some r -> r = (ua, x') ->
                 1 <= p <= 3 ->
                 bit (errors (sim9 x')) ER_APN = true \/
                 bit (status (sim9 x')) ST_GPRS = true /\
                 1 <= field (status (sim9 x')) ST_PROVIDER 2 <= 3).
      { intros cmd r Hs -> Hrange.
        apply bind_run in Hs. destruct Hs as (ok & x1 & Hs & Hret).
        apply ret_run in Hret. injection Hret as _ ->.
        pose proof (send_at_P_OK_same _ _ _ _ Hs) as [Es _].
        right. rewrite Es, <- Hp. split; [|exact Hrange].
        destruct Hx as [Hx|Hx]; [|exact Hx].
        rewrite Hx in Hp. lia. }
      destruct (Z.eqb_spec p 1) as [E1|E1];
        [eapply Hsent; [exact Hr | reflexivity | lia]|].
      destruct (Z.eqb_spec p 2) as [E2|E2];
        [eapply Hsent; [exact Hr | reflexivity | lia]|].
      destruct (Z.eqb_spec p 3) as [E3|E3];
        [eapply Hsent; [exact Hr | reflexivity | lia]|].
      apply set_error_bit_run in Hr. destruct Hr as [_ ->].
      left. cbn [sim9 errors with_errors]. apply bit_set_bit_same. discriminate. }
    intros ?.
    eapply hoare_relates with (R := keeps [ER_TCPIP] [] false).
    - pose proof (gprs_wireless_connection_keeps [ER_TCPIP] [] false ltac:(simpl; auto))
        as Hw.
      keeps_tac.
    - intros x x' (Ke & Ks & _) Hx. unfold Q2 in *.
      assert (Est : status (sim9 x') = status (sim9 x)).
      { apply bits_eq. intros i. apply Ks. simpl. tauto. }
      rewrite Est, Ke; [exact Hx|].
      simpl. intros [E|[]]. discriminate E. }
  pose proof (Hh w tt w' Hp0 H) as [Hq | Hq]; [congruence | exact Hq].
Qed.

End Bearer.

(** An instance: the modem attaches, names TIM as operator and accepts
    every command. *)
Lemma sim9_tcpip_on_apn_clear_witness :
  let q := [(50, Mock.line "OK"); (160, Mock.line "OK"); (270, Mock.line "OK");
            (380, Mock.line "+CGATT: 1"); (385, Mock.line "OK");
            (500, Mock.cops "I TIM"); (505, Mock.line "OK");
            (620, Mock.line "OK"); (730, Mock.line "OK");
            (840, Mock.line "10.0.0.1")] in
  let w := Mock.world 0 0 q in
  exists w',
    sim9_tcpip_on w = Some (tt, w') /\
    field (status (sim9 w)) ST_PROVIDER 2 = 0 /\
    bit (errors (sim9 w')) ER_APN = false /\
    bit (status (sim9 w')) ST_GPRS = true /\
    1 <= field (status (sim9 w')) ST_PROVIDER 2 <= 3.
Proof.
  intros q w. eexists. split; [vm_compute; reflexivity|].
  split; [reflexivity|]. split; [vm_compute; reflexivity|].
  apply (sim9_tcpip_on_apn_clear w); [vm_compute; reflexivity | reflexivity | vm_compute; reflexivity].
Defined.

(** ** The length of the identity *)

Section IdentityLength.

Context {T : Type} {U : Usart T}.
Hypothesis truncates : getmsg_truncates U.

Lemma getmsg_len_le (s : buf) (size : Z) (w : World T) len s' w' :
  0 <= size -> getmsg s size w = Some (len, s', w') -> 0 <= len <= size.
Proof.
  intros Hsz H. unfold getmsg in H.
  apply bind_run in H. destruct H as (data & w1 & Hd & H).
  apply bind_run in H. destruct H as (s1 & w2 & _ & H).
  apply ret_run in H. injection H as -> _ _.
  unfold ask_usart in Hd.
  pose proof (truncates size (usart w) Hsz) as Ht.
  destruct (usart_getmsg size (usart w)) as [d t1]. injection Hd as <- _.
  simpl in Ht. pose proof (uint8_le (Z.of_nat (length d)) ltac:(lia)). lia.
Qed.

Lemma sim9_msg_loop_len_le (loop : nat) (s : buf) (size : Z) (w : World T) len s' w' :
  0 <= size -> sim9_msg_loop loop s size w = Some (len, s', w') -> 0 <= len <= size.
Proof.
  intros Hsz. revert s w. induction loop as [|n IH]; intros s w H;
    rewrite sim9_msg_loop_eq in H;
    apply bind_run in H; destruct H as ([] & w1 & _ & H);
    apply bind_run in H; destruct H as (eol & w2 & _ & H);
    apply bind_run in H; destruct H as ([len1 s1] & w3 & Hg & H);
    assert (Hl1 : 0 <= len1 <= size)
      by (destruct (eol =? 0);
          [ apply ret_run in Hg; injection Hg as -> _ _; lia
          | apply bind_run in Hg; destruct Hg as ([len0 s0] & w4 & Hg & Hr);
            apply getmsg_len_le in Hg; [|assumption];
            apply ret_run in Hr; injection Hr as -> _ _;
            destruct (len0 <? 3); lia ]);
    destruct (len1 =? 0).
  - apply ret_run in H. injection H as -> _ _. lia.
  - apply ret_run in H. injection H as -> _ _. exact Hl1.
  - eapply IH. eassumption.
  - apply ret_run in H. injection H as -> _ _. exact Hl1.
Qed.

(** With a transport that truncates to capacity the length returned is
    within the capacity passed. *)
Lemma sim9_msg_len_le (s : buf) (size timeout : Z) (w : World T) len s' w' :
  sim9_msg s size timeout w = Some (len, s', w') -> 0 <= len <= uint8 size.
Proof.
  intros H. unfold sim9_msg in H.
  apply bind_run in H. destruct H as ([len1 s1] & w1 & Hl & H).
  apply sim9_msg_loop_len_le in Hl; [|apply uint8_range].
  destruct (len1 =? 0).
  - apply ret_run in H. injection H as -> _ _. exact Hl.
  - apply bind_run in H. destruct H as (s2 & w2 & _ & H).
    apply ret_run in H. injection H as -> _ _. exact Hl.
Qed.

Lemma cstr_length_nul (b : buf) (i : nat) :
  nth_error b i = Some NUL -> (length (cstr b) <= i)%nat.
Proof.
  revert i. induction b as [|c b IH]; intros [|i] H; simpl in *; try discriminate.
  - injection H as ->. simpl. lia.
  - destruct (Byte.eqb c NUL); simpl; [lia|]. apply IH in H. lia.
Qed.

Lemma strlen_le_nul (b : buf) (i : Z) : load b i = Some NUL -> strlen b <= i.
Proof.
  unfold load, strlen. destruct (Z.ltb_spec i 0); [discriminate|].
  intros H'. apply cstr_length_nul in H'. lia.
Qed.

(** A MSGOK shaped command that succeeds has stored a string of at most
    [size - 2] characters. *)
Lemma sim9_send_at_MSGOK_strlen (cmd msg : buf) (size : Z) (w : World T) r msg' w' :
  sim9_send_at cmd msg size SENDAT_TYPE_MSGOK w = Some (r, msg', w') ->
  r <> 0 -> strlen msg' <= uint8 size - 2.
Proof.
  intros H Hr. unfold sim9_send_at in H.
  apply bind_run in H. destruct H as (e & w1 & _ & H).
  apply bind_run in H. destruct H as ([] & w2 & _ & H).
  change (uint8 SENDAT_TYPE_MSGOK =? SENDAT_TYPE_MSGOK) with true in H. cbv iota in H.
  apply bind_run in H. destruct H as ([ok1 msg1] & w3 & Hm & H).
  apply bind_run in H. destruct H as (ok2 & w4 & Hk & H).
  apply ret_run in H. injection H as -> -> _.
  assert (Hok1 : ok1 <> 0).
  { intros ->. unfold and_search_OK in Hk. cbn in Hk.
    apply ret_run in Hk. injection Hk as -> _. apply Hr. reflexivity. }
  unfold and_sim9_msg in Hm. destruct (z2b e).
  - apply bind_run in Hm. destruct Hm as (eol & wa & _ & Hm).
    apply bind_run in Hm. destruct Hm as ([len m1] & wb & Hmsg & Hm).
    apply ret_run in Hm. injection Hm as -> -> _.
    assert (Hlen : len <> 0).
    { intros ->. apply Hok1. reflexivity. }
    pose proof (sim9_msg_len_le _ _ _ _ _ _ _ Hmsg) as Hle.
    pose proof (sim9_msg_terminated _ _ _ _ _ _ _ Hmsg Hlen) as Hnul.
    apply strlen_le_nul in Hnul. lia.
  - apply ret_run in Hm. injection Hm as -> _ _. contradiction Hok1. reflexivity.
Qed.

(** X16.  With a transport that truncates to capacity, an identity that [imei]
    accepts, [errors.imei] clear on return, has 15 or 16 characters: the
    array of [IMEI_SIZE] = 18 bytes receives the line with its CR and LF,
    so no more than 16 characters of it are kept. *)
Theorem imei_identity_length (w w' : World T) :
  imei w = Some (tt, w') ->
  bit (errors (sim9 w')) ER_IMEI = false ->
  15 <= strlen (imei_buf (sim9 w')) <= 16.
Proof.
  intros H Hclear. unfold imei in H.
  apply bind_run in H. destruct H as ([] & w0 & Hr & H).
  assert (He : bit (errors (sim9 w0)) ER_IMEI = true).
  { unfold imei_reset in Hr.
    apply bind_run in Hr. destruct Hr as (s0 & wa & Ha & Hr).
    apply bind_run in Hr. destruct Hr as (b & wb & Hb & Hr).
    apply bind_run in Hr. destruct Hr as ([] & wc & Hc & Hr).
    apply bind_run in Hr. destruct Hr as ([] & wd & Hd & Hr).
    apply set_error_bit_run in Hd. destruct Hd as [_ ->].
    injection Hr as <-.
    change (bit (set_bit (errors (sim9 wc)) ER_IMEI true) ER_IMEI = true).
    apply bit_set_bit_same. discriminate. }
  apply imei_loop_spec in H; [|assumption].
  destruct H as [(j & w1 & w2 & Hj & Hf & Hg & Hs) | [Hf Hb]]; [|congruence].
  apply set_error_bit_run in Hs. destruct Hs as [_ ->].
  cbn [sim9 imei_buf with_errors].
  apply imei_attempt_spec in Hg. destruct Hg as (_ & ok & wx & Hcmd & Hg).
  symmetry in Hg. apply andb_true_iff in Hg. destruct Hg as [Hok Hg].
  apply Z.gtb_lt in Hg. split; [lia|].
  unfold sim9_send_at_P in Hcmd.
  apply bind_run in Hcmd. destruct Hcmd as (buffer & wy & _ & Hcmd).
  apply sim9_send_at_MSGOK_strlen in Hcmd.
  - change (uint8 IMEI_SIZE) with 18 in Hcmd. lia.
  - intros ->. discriminate Hok.
Qed.

End IdentityLength.

(** An instance: the modem answers with an identity of 17 digits, of
    which 16 are kept. *)
Lemma imei_identity_length_witness :
  let q := [(50, Mock.line "86000000000000123"); (55, Mock.line "OK")] in
  let w := Mock.world 0 0 q in
  exists w',
    getmsg_truncates Mock.transport /\
    imei w = Some (tt, w') /\
    bit (errors (sim9 w')) ER_IMEI = false /\
    15 <= strlen (imei_buf (sim9 w')) <= 16.
Proof.
  intros q w. eexists. split; [exact mock_truncates|].
  split; [vm_compute; reflexivity|]. split; [vm_compute; reflexivity|].
  apply (imei_identity_length mock_truncates w);
    [vm_compute; reflexivity | vm_compute; reflexivity].
Defined.

(** ** Lines that are ignored *)

Section IgnoredLines.

Context {T : Type} {U : Usart T}.

Lemma sim9_msg_loop_idle (n : nat) (s : buf) (size : Z) (w : World T) :
  idle_polls (S n) (usart w) ->
  exists w', sim9_msg_loop n s size w = Some (0, s, w').
Proof.
  revert w. induction n as [|n IH]; intros w [H0 Hrest];
    rewrite sim9_msg_loop_eq;
    unfold bind at 1; unfold _delay_ms, on_usart; cbn [sim9 usart io];
    unfold bind at 1; unfold flags_eol, ask_usart; cbn [sim9 usart io];
    destruct (usart_eol (delay_ms 10 (usart w))) as [eol t1]; simpl in H0, Hrest;
    subst eol; simpl.
  - unfold bind, ret. simpl. eauto.
  - unfold bind at 1, ret at 1. simpl.
    apply (IH (mk_world (sim9 w) t1 (io w))). exact Hrest.
Qed.

(** X17.  A line of fewer than 3 bytes is dequeued into the caller's array
    before it is ignored.  When the first poll of a call finds such a
    line and the polls that follow find none, [sim9_msg] returns 0, "no
    message", and the first bytes of the array are those of the line: the
    array is not as it was, and no terminator has been stored. *)
Theorem sim9_msg_short_line_overwrites (s : buf) (size timeout : Z) (w : World T) :
  let t1 := usart_eol (delay_ms 10 (usart w)) in
  let d := usart_getmsg (uint8 size) (snd t1) in
  fst t1 <> 0 ->
  (length (fst d) < 3)%nat ->
  (length (fst d) <= length s)%nat ->
  idle_polls (Z.to_nat (uint16 (uint8 timeout * 100))) (snd d) ->
  exists w',
    sim9_msg s size timeout w = Some (0, fst d ++ skipn (length (fst d)) s, w').
Proof.
  intros t1 d Heol Hshort Hfit Hidle.
  unfold sim9_msg.
  set (loop := Z.to_nat (uint16 (uint8 timeout * 100))) in *.
  assert (Hl : exists w',
             sim9_msg_loop loop s (uint8 size) w =
             Some (0, fst d ++ skipn (length (fst d)) s, w')).
  { rewrite sim9_msg_loop_eq.
    unfold bind at 1; unfold _delay_ms, on_usart; cbn [sim9 usart io].
    unfold bind at 1; unfold flags_eol, ask_usart; cbn [sim9 usart io].
    subst t1 d.
    destruct (usart_eol (delay_ms 10 (usart w))) as [eol ta]. cbn [fst snd] in *.
    destruct (Z.eqb_spec eol 0) as [E|_]; [contradiction|].
    unfold bind at 1. unfold bind at 1. unfold getmsg.
    unfold bind at 1. unfold ask_usart. cbn [sim9 usart io].
    destruct (usart_getmsg (uint8 size) ta) as [data tb]. cbn [fst snd] in *.
    unfold bind at 1. unfold lift_opt at 1. unfold blit.
    destruct (Nat.leb_spec (length data) (length s)) as [_|]; [|lia].
    unfold ret at 1. unfold ret at 1.
    assert (Hu : (uint8 (Z.of_nat (length data)) <? 3) = true).
    { apply Z.ltb_lt. rewrite uint8_small by lia. lia. }
    rewrite Hu. cbn [Z.eqb].
    destruct loop as [|n].
    - unfold ret. simpl. eauto.
    - apply (sim9_msg_loop_idle n _ _ (mk_world (sim9 w) tb (io w))). exact Hidle. }
  destruct Hl as (w' & Hl). exists w'.
  unfold bind. rewrite Hl. reflexivity.
Qed.

End IgnoredLines.

(** An instance: a blank line is waiting and nothing follows it; the
    array held the string "abc". *)
Lemma sim9_msg_short_line_overwrites_witness :
  let s := lit "abc" ++ [NUL; xaa; xaa] in
  let w := Mock.world 0 0 [(0, [CR; LF])] in
  let t1 := usart_eol (delay_ms 10 (usart w)) in
  let d := usart_getmsg (uint8 6) (snd t1) in
  fst t1 <> 0 /\
  (length (fst d) < 3)%nat /\
  (length (fst d) <= length s)%nat /\
  idle_polls (Z.to_nat (uint16 (uint8 1 * 100))) (snd d) /\
  exists w',
    sim9_msg s 6 1 w = Some (0, fst d ++ skipn (length (fst d)) s, w').
Proof.
  intros s w t1 d.
  assert (H1 : fst t1 <> 0) by (vm_compute; discriminate).
  assert (H2 : (length (fst d) < 3)%nat) by (vm_compute; lia).
  assert (H3 : (length (fst d) <= length s)%nat) by (vm_compute; lia).
  assert (H4 : idle_polls (Z.to_nat (uint16 (uint8 1 * 100))) (snd d)).
  { vm_compute. repeat split. }
  split; [exact H1|]. split; [exact H2|]. split; [exact H3|]. split; [exact H4|].
  exact (sim9_msg_short_line_overwrites s 6 1 w H1 H2 H3 H4).
Defined.

(** ** Commands from flash *)

Section FlashCommands.

Context {T : Type} {U : Usart T}.

(** X18.  [sim9_send_at_P] with a receive buffer of 1 to 254 bytes: the command
    handed to [sim9_send_at] is the flash string cut to the size of the
    receive buffer; a longer command is sent without its tail. *)
Theorem sim9_send_at_P_cuts_command (cmd : list byte) (msg : buf) (msgsize type : Z)
    (w : World T) :
  1 <= usart_rx_size (usart w) <= 254 ->
  exists b,
    cstr b = firstn (Z.to_nat (usart_rx_size (usart w))) (cstr cmd) /\
    sim9_send_at_P cmd msg msgsize type w = sim9_send_at b msg msgsize type w.
Proof.
  intros Hn. destruct (ram_copy_P_spec cmd w Hn) as (b & Hb & Hc).
  exists b. split; [exact Hc|].
  unfold sim9_send_at_P, bind. rewrite Hb. reflexivity.
Qed.

End FlashCommands.

(** An instance: the APN command of the other providers against the
    receive buffer of 64 bytes. *)
Lemma sim9_send_at_P_cuts_command_witness :
  let w := Mock.world 0 0 [] in
  1 <= usart_rx_size (usart w) <= 254 /\
  exists b,
    cstr b = firstn (Z.to_nat (usart_rx_size (usart w))) (cstr CSTT_others) /\
    sim9_send_at_P CSTT_others [] 0 SENDAT_TYPE_OK w = sim9_send_at b [] 0 SENDAT_TYPE_OK w.
Proof.
  intros w. split; [vm_compute; split; discriminate|].
  apply (sim9_send_at_P_cuts_command CSTT_others [] 0 SENDAT_TYPE_OK w).
  vm_compute. split; discriminate.
Defined.

(** ** A whole session *)

Section WholeSession.

Context {T : Type} {U : Usart T}.
Hypothesis truncates : getmsg_truncates U.
Hypothesis rx_bounds : forall t : T, 1 <= usart_rx_size t <= 254.







End WholeSession.


(** ** The operator name in a short answer *)

(** X20.  The modem answers AT+COPS? with "+COPS: 0", the answer of a modem
    that has no operator: 8 characters, of which the terminator takes the
    place of the CR at offset 8.  [apn_setup] finds "+COPS:" and compares
    the bytes at offsets 12 to 17 of its block, which the answer has not
    written: they are what [malloc] left there.  The provider recorded is
    decided by the heap: 3 when the fresh block holds "I TIM" at offset
    12, else 2 when it holds "odafo" at offset 13, else 1; [errors.apn]
    stays clear in every case. *)
Theorem apn_setup_short_answer (junk : nat -> byte) :
  let w := Mock.world 0 0 [(50, Mock.line "+COPS: 0"); (55, Mock.line "OK")] in
  match apn_setup (U := Rig.transport 64 junk) w with
  | Some (_, w') =>
      bit (errors (sim9 w')) ER_APN = false /\
      field (status (sim9 w')) ST_PROVIDER 2 =
        if memcmp_eq (map junk [12; 13; 14; 15; 16]%nat) (lit "I TIM") 5 then 3
        else if memcmp_eq (map junk [13; 14; 15; 16; 17]%nat) (lit "odafo") 5 then 2
        else 1
  | None => False
  end.
Proof.
  intros w. unfold apn_setup.
  unfold bind at 1. unfold malloc at 1. cbn [usart w Mock.world].
  unfold bind at 1.
  match goal with
  | |- context [sim9_send_at_P ?a ?b ?c ?d ?x] =>
      let v := eval vm_compute in (sim9_send_at_P (U := Rig.transport 64 junk) a b c d x) in
      change (sim9_send_at_P a b c d x) with v
  end.
  cbv iota beta.
  unfold bind at 1.
  match goal with
  | |- context [sim9_searchfor ?a ?b ?c ?d ?e ?x] =>
      let v := eval vm_compute in (sim9_searchfor (U := Rig.transport 64 junk) a b c d e x) in
      change (sim9_searchfor a b c d e x) with v
  end.
  cbv iota beta. cbn [z2b Z.eqb negb].
  match goal with
  | |- context [memcmp_eq (skipn 12 ?s) ?l 5] =>
      change (memcmp_eq (skipn 12 s) l 5)
        with (memcmp_eq (map junk [12; 13; 14; 15; 16]%nat) l 5)
  end.
  match goal with
  | |- context [memcmp_eq (skipn 13 ?s) ?l 5] =>
      change (memcmp_eq (skipn 13 s) l 5)
        with (memcmp_eq (map junk [13; 14; 15; 16; 17]%nat) l 5)
  end.
  destruct (memcmp_eq (map junk [12; 13; 14; 15; 16]%nat) (lit "I TIM") 5);
    [vm_compute; split; reflexivity|].
  destruct (memcmp_eq (map junk [13; 14; 15; 16; 17]%nat) (lit "odafo") 5);
    vm_compute; split; reflexivity.
Qed.

(** ** The budget of a search *)

Section SearchBudget.

Context {T : Type} {U : Usart T}.

(** X21.  The loop of [sim9_searchfor], entered with [count] and with the
    error check not armed, on any transport.  It calls [sim9_msg] at
    least once and at most [count + 1] times.  When it fails it has made
    all [count + 1] calls, or the mode is [EEQUAL] or [ERELAX] and the
    last message retrieved is the string ERROR: nothing else ends a
    search early without a match. *)
Theorem sim9_searchfor_loop_budget (count : nat) (s : buf) (type : Z)
    (buffer : buf) (size : Z) (w : World T) ok b k w' :
  sim9_searchfor_loop count s type false buffer size w = Some (ok, b, k, w') ->
  (1 <= k <= S count)%nat /\
  (ok = false ->
   k = S count \/
   ((type = EEQUAL \/ type = ERELAX) /\ strcmp_eq b (lit "ERROR") = true)).
Proof.
  intros H. split.
  - eapply sim9_searchfor_loop_calls. eassumption.
  - intros ->. apply sim9_searchfor_loop_failure in H.
    destruct H as [H | [[H | H] He]]; [left; assumption | discriminate H | right; auto].
Qed.

End SearchBudget.

(** An instance: OK is looked for with [count = 2] in mode [EEQUAL] and the
    second line is ERROR. *)
Lemma sim9_searchfor_loop_budget_witness :
  let w := Mock.world 0 0 [(0, Mock.line "RING"); (0, Mock.line "ERROR")] in
  exists ok b k w',
    sim9_searchfor_loop 2 (lit "OK") EEQUAL false (NUL :: repeat xaa 63) 64 w
      = Some (ok, b, k, w') /\
    (1 <= k <= 3)%nat /\
    (ok = false ->
     k = 3%nat \/
     ((EEQUAL = EEQUAL \/ EEQUAL = ERELAX) /\ strcmp_eq b (lit "ERROR") = true)).
Proof.
  intros w. eexists. eexists. eexists. eexists.
  split; [vm_compute; reflexivity|].
  eapply (sim9_searchfor_loop_budget 2 (lit "OK") EEQUAL (NUL :: repeat xaa 63) 64 w).
  vm_compute. reflexivity.
Defined.
